(** * Seattle Tip 312 prescriptive deck code engine

    A shallow embedding of [src/domain/models.py],
    [src/domain/code_engine.py] and [src/services/pricing.py], and the
    properties of the size selectors, the footing sizing,
    [generate_structure] and [calculate_quote].

    Numbers.  A Python [float] is read as an exact number: a rational ([Q])
    wherever the code only adds, subtracts, multiplies, divides, compares,
    floors or ceils, and a real ([R]) from the point where the code calls
    [math.sqrt] and [math.pi].  Rounding, infinities and NaN of binary64 are
    outside this model.  A Python [int] is a [Z]; an [int] too large to be
    converted to a float is outside this model too.

    Exceptions.  A function that can raise returns a [result]: [Return v] or
    [Raise e].  Division by a non-literal divisor, [math.sqrt] and [d[k]] are
    the raising operations of the engine, besides its own [raise].

    Messages.  An f-string is kept as its template together with the values
    it formats (type [message]); the rendering of a float as text is outside
    the model. *)

From Stdlib Require Import Floats.
From Stdlib Require Import QArith Qround Qminmax Qreals Reals Psatz Lia ZArith List.
From stdpp Require Import base option list gmap strings pretty.
Import ListNotations.

Local Open Scope Z_scope.
Local Open Scope Q_scope.
Local Open Scope string_scope.

(** ** Python exceptions *)

(** The texts the engine formats: the two [ValueError]s of the selectors,
    the cantilever error, the notes of [generate_structure], and the text
    of the [ValueError] that [math.sqrt] raises. *)
Inductive message : Type :=
  | MsgJoistSpanExceeded (span_ft : Q) (spacing_in : Z) (max_ft : Q)
  | MsgBeamSpanExceeded (beam_span_ft : Q) (joist_cat : string)
  | MsgCantileverExceeded (cantilever_ft max_ft depth_ft : Q)
  | MsgMathDomainError
  | NoteJoists (joist_size : string) (spacing_in : Z) (joist_span_ft : Q)
  | NoteBeam (beam_config : string) (actual_beam_span : Q) (num_posts : Z)
  | NotePostsVerify (post_size : string) (post_height_ft : Q)
  | NotePosts (post_size : string) (post_height_ft : Q)
  | NoteFootings (footing_diameter frost_depth_in : Z) (tributary_area : Q)
  | NoteJoistCount (num_joists : Z).

Inductive exception : Type :=
  | ValueError (msg : message)
  | ZeroDivisionError
  | KeyError (key : string).

Inductive result (A : Type) : Type :=
  | Return (v : A)
  | Raise (e : exception).
Arguments Return {A} v.
Arguments Raise {A} e.

#[export] Instance result_ret : MRet result := fun A v => Return v.
#[export] Instance result_bind : MBind result := fun A B f r =>
  match r with
  | Return v => f v
  | Raise e => Raise e
  end.

(** [a / b] on floats, [b] not a literal. *)
Definition truediv (a b : Q) : result Q :=
  if Qeq_bool b 0 then Raise ZeroDivisionError else Return (a / b).

(** [d[key]] on a dict with string keys. *)
Definition getitem {V : Type} (d : gmap string V) (key : string) : result V :=
  match d !! key with
  | Some v => Return v
  | None => Raise (KeyError key)
  end.

(** [a >= b] and [a > b] on floats. *)
Definition Qge_bool (a b : Q) : bool := Qle_bool b a.
Definition Qgt_bool (a b : Q) : bool := negb (Qle_bool a b).

(** [a >= b] between reals. *)
Definition Rge_bool (a b : R) : bool := if Rle_dec b a then true else false.

(** [math.sqrt]: a [ValueError] on a negative argument. *)
Definition math_sqrt (x : R) : result R :=
  if Rlt_dec x 0 then Raise (ValueError MsgMathDomainError) else Return (sqrt x).

(** ** models.py *)

Inductive DeckingType : Type :=
  COMPOSITE_TREX | COMPOSITE_TIMBERTECH | CEDAR | PRESSURE_TREATED.

Inductive RailingType : Type :=
  NONE | WOOD | CABLE | GLASS | ALUMINUM.

Inductive LedgerAttachment : Type :=
  DIRECT | STANDOFF | FREESTANDING.

#[export] Instance LedgerAttachment_eq_dec : EqDecision LedgerAttachment.
Proof. solve_decision. Defined.

(** [LedgerAttachment.value] *)
Definition LedgerAttachment_value (a : LedgerAttachment) : string :=
  match a with
  | DIRECT => "direct"
  | STANDOFF => "standoff"
  | FREESTANDING => "freestanding"
  end.

Module LumberSpec.
Record t : Type := mk {
  nominal : string;
  width_in : Q;
  height_in : Q
}.
Definition width_ft (self : t) : Q := width_in self / 12.
Definition height_ft (self : t) : Q := height_in self / 12.
End LumberSpec.

Definition LUMBER_SPECS : gmap string LumberSpec.t :=
  list_to_map [
    ("2x6", LumberSpec.mk "2x6" 1.5 5.5);
    ("2x8", LumberSpec.mk "2x8" 1.5 7.25);
    ("2x10", LumberSpec.mk "2x10" 1.5 9.25);
    ("2x12", LumberSpec.mk "2x12" 1.5 11.25);
    ("4x4", LumberSpec.mk "4x4" 3.5 3.5);
    ("4x6", LumberSpec.mk "4x6" 3.5 5.5);
    ("4x8", LumberSpec.mk "4x8" 3.5 7.25);
    ("4x10", LumberSpec.mk "4x10" 3.5 9.25);
    ("4x12", LumberSpec.mk "4x12" 3.5 11.25);
    ("6x6", LumberSpec.mk "6x6" 5.5 5.5)
  ].

Module SiteInput.
Record t : Type := mk {
  width_ft : Q;
  depth_ft : Q;
  height_ft : Q;
  ledger_attachment : LedgerAttachment;
  soil_bearing_psf : Z;
  frost_depth_in : Z;
  slope_percent : Q;
  decking_type : DeckingType;
  railing_type : RailingType;
  railing_lf : Q;
  stair_count : Z;
  customer_name : string;
  site_address : string
}.
(** The dataclass defaults: only the three dimensions are required. *)
Definition default (width depth height : Q) : t :=
  mk width depth height DIRECT 1500 18 0.0 COMPOSITE_TREX NONE 0.0 0 "" "".
End SiteInput.

Module Footing.
Record t : Type := mk {
  x_ft : Q;
  y_ft : Q;
  diameter_in : Z;
  depth_in : Z
}.
End Footing.

Module Post.
Record t : Type := mk {
  x_ft : Q;
  y_ft : Q;
  height_ft : Q;
  lumber : LumberSpec.t
}.
End Post.

Module Beam.
Record t : Type := mk {
  x_start_ft : Q;
  x_end_ft : Q;
  y_ft : Q;
  z_ft : Q;
  lumber : LumberSpec.t;
  ply : Z
}.
End Beam.

Module Joist.
Record t : Type := mk {
  x_ft : Q;
  y_start_ft : Q;
  y_end_ft : Q;
  z_ft : Q;
  lumber : LumberSpec.t
}.
End Joist.

(** The dict that [generate_structure] stores in [structure.ledger]. *)
Module Ledger.
Record t : Type := mk {
  x_start_ft : Q;
  x_end_ft : Q;
  y_ft : Q;
  z_ft : Q;
  lumber : LumberSpec.t;
  attachment : string
}.
End Ledger.

(** The dicts of [structure.rim_joists]: the left and right ones carry
    [x_ft], [y_start_ft], [y_end_ft]; the outer one [x_start_ft],
    [x_end_ft], [y_ft]. *)
Inductive RimJoist : Type :=
  | RimAlongY (location : string) (x_ft y_start_ft y_end_ft : Q) (lumber : LumberSpec.t)
  | RimAlongX (location : string) (x_start_ft x_end_ft y_ft : Q) (lumber : LumberSpec.t).

Module DeckStructure.
Record t : Type := mk {
  input : SiteInput.t;
  footings : list Footing.t;
  posts : list Post.t;
  beams : list Beam.t;
  joists : list Joist.t;
  ledger : option Ledger.t;
  rim_joists : list RimJoist;
  joist_size : string;
  joist_spacing_in : Z;
  beam_size : string;
  beam_ply : Z;
  post_size : string;
  footing_diameter_in : Z;
  compliant : bool;
  notes : list message;
  errors : list message
}.

(** [DeckStructure(input=site_input)]: every other field at its default. *)
Definition new (site_input : SiteInput.t) : t :=
  mk site_input [] [] [] [] None [] "" 16 "" 2 "" 12 true [] [].

(** [self.footings.append(v)] and the like, then the attribute assignments
    [self.f = v], one per field the engine writes. *)
Definition footings_append (v : Footing.t) (s : t) : t :=
  mk (input s) (footings s ++ [v]) (posts s) (beams s) (joists s) (ledger s) (rim_joists s)
     (joist_size s) (joist_spacing_in s) (beam_size s) (beam_ply s)
     (post_size s) (footing_diameter_in s) (compliant s) (notes s) (errors s).
Definition posts_append (v : Post.t) (s : t) : t :=
  mk (input s) (footings s) (posts s ++ [v]) (beams s) (joists s) (ledger s) (rim_joists s)
     (joist_size s) (joist_spacing_in s) (beam_size s) (beam_ply s)
     (post_size s) (footing_diameter_in s) (compliant s) (notes s) (errors s).
Definition beams_append (v : Beam.t) (s : t) : t :=
  mk (input s) (footings s) (posts s) (beams s ++ [v]) (joists s) (ledger s) (rim_joists s)
     (joist_size s) (joist_spacing_in s) (beam_size s) (beam_ply s)
     (post_size s) (footing_diameter_in s) (compliant s) (notes s) (errors s).
Definition joists_append (v : Joist.t) (s : t) : t :=
  mk (input s) (footings s) (posts s) (beams s) (joists s ++ [v]) (ledger s) (rim_joists s)
     (joist_size s) (joist_spacing_in s) (beam_size s) (beam_ply s)
     (post_size s) (footing_diameter_in s) (compliant s) (notes s) (errors s).
Definition set_ledger (v : option Ledger.t) (s : t) : t :=
  mk (input s) (footings s) (posts s) (beams s) (joists s) v (rim_joists s)
     (joist_size s) (joist_spacing_in s) (beam_size s) (beam_ply s)
     (post_size s) (footing_diameter_in s) (compliant s) (notes s) (errors s).
Definition set_rim_joists (v : list RimJoist) (s : t) : t :=
  mk (input s) (footings s) (posts s) (beams s) (joists s) (ledger s) v
     (joist_size s) (joist_spacing_in s) (beam_size s) (beam_ply s)
     (post_size s) (footing_diameter_in s) (compliant s) (notes s) (errors s).
Definition set_joist_size (v : string) (s : t) : t :=
  mk (input s) (footings s) (posts s) (beams s) (joists s) (ledger s) (rim_joists s)
       v (joist_spacing_in s) (beam_size s) (beam_ply s)
     (post_size s) (footing_diameter_in s) (compliant s) (notes s) (errors s).
Definition set_joist_spacing_in (v : Z) (s : t) : t :=
  mk (input s) (footings s) (posts s) (beams s) (joists s) (ledger s) (rim_joists s)
     (joist_size s) v (beam_size s) (beam_ply s)
     (post_size s) (footing_diameter_in s) (compliant s) (notes s) (errors s).
Definition set_beam_size (v : string) (s : t) : t :=
  mk (input s) (footings s) (posts s) (beams s) (joists s) (ledger s) (rim_joists s)
     (joist_size s) (joist_spacing_in s) v (beam_ply s)
     (post_size s) (footing_diameter_in s) (compliant s) (notes s) (errors s).
Definition set_beam_ply (v : Z) (s : t) : t :=
  mk (input s) (footings s) (posts s) (beams s) (joists s) (ledger s) (rim_joists s)
     (joist_size s) (joist_spacing_in s) (beam_size s) v
     (post_size s) (footing_diameter_in s) (compliant s) (notes s) (errors s).
Definition set_post_size (v : string) (s : t) : t :=
  mk (input s) (footings s) (posts s) (beams s) (joists s) (ledger s) (rim_joists s)
     (joist_size s) (joist_spacing_in s) (beam_size s) (beam_ply s)
       v (footing_diameter_in s) (compliant s) (notes s) (errors s).
Definition set_footing_diameter_in (v : Z) (s : t) : t :=
  mk (input s) (footings s) (posts s) (beams s) (joists s) (ledger s) (rim_joists s)
     (joist_size s) (joist_spacing_in s) (beam_size s) (beam_ply s)
     (post_size s) v (compliant s) (notes s) (errors s).
Definition set_compliant (v : bool) (s : t) : t :=
  mk (input s) (footings s) (posts s) (beams s) (joists s) (ledger s) (rim_joists s)
     (joist_size s) (joist_spacing_in s) (beam_size s) (beam_ply s)
     (post_size s) (footing_diameter_in s) v (notes s) (errors s).
(** [self.notes.append(m)] and [self.errors.append(m)] *)
Definition notes_append (m : message) (s : t) : t :=
  mk (input s) (footings s) (posts s) (beams s) (joists s) (ledger s) (rim_joists s)
     (joist_size s) (joist_spacing_in s) (beam_size s) (beam_ply s)
     (post_size s) (footing_diameter_in s) (compliant s) (notes s ++ [m]) (errors s).
Definition errors_append (m : message) (s : t) : t :=
  mk (input s) (footings s) (posts s) (beams s) (joists s) (ledger s) (rim_joists s)
     (joist_size s) (joist_spacing_in s) (beam_size s) (beam_ply s)
     (post_size s) (footing_diameter_in s) (compliant s) (notes s) (errors s ++ [m]).
End DeckStructure.

(** ** code_engine.py: tables and constants *)

(** [d.get(key, default)] *)
Definition dict_get `{Countable K} {V : Type} (d : gmap K V) (key : K) (dflt : V) : V :=
  default dflt (d !! key).

(** Joist span table: (nominal_size, spacing_in) -> max_span_ft *)
Definition JOIST_SPANS : gmap (string * Z) Q :=
  list_to_map [
    (("2x6", 12%Z), 10.5);
    (("2x6", 16%Z), 9.5);
    (("2x6", 24%Z), 8.0);
    (("2x8", 12%Z), 13.83);
    (("2x8", 16%Z), 12.5);
    (("2x8", 24%Z), 10.5);
    (("2x10", 12%Z), 17.67);
    (("2x10", 16%Z), 16.0);
    (("2x10", 24%Z), 13.5);
    (("2x12", 12%Z), 21.5);
    (("2x12", 16%Z), 19.5);
    (("2x12", 24%Z), 16.5)
  ].

(** Beam span table: (beam_config, joist_span_category) -> max_beam_span_ft *)
Definition BEAM_SPANS : gmap (string * string) Q :=
  list_to_map [
    (("2-2x6", "6"), 5.5);   (("2-2x6", "8"), 4.5);   (("2-2x6", "10"), 4.0);   (("2-2x6", "12"), 3.5);
    (("2-2x8", "6"), 7.0);   (("2-2x8", "8"), 6.0);   (("2-2x8", "10"), 5.5);   (("2-2x8", "12"), 5.0);
    (("2-2x10", "6"), 9.0);  (("2-2x10", "8"), 8.0);  (("2-2x10", "10"), 7.0);  (("2-2x10", "12"), 6.5);
    (("2-2x12", "6"), 11.0); (("2-2x12", "8"), 9.5);  (("2-2x12", "10"), 8.5);  (("2-2x12", "12"), 7.5);
    (("4x6", "6"), 5.5);     (("4x6", "8"), 4.5);     (("4x6", "10"), 4.0);     (("4x6", "12"), 3.5);
    (("4x8", "6"), 7.0);     (("4x8", "8"), 6.0);     (("4x8", "10"), 5.5);     (("4x8", "12"), 5.0);
    (("4x10", "6"), 9.0);    (("4x10", "8"), 8.0);    (("4x10", "10"), 7.0);    (("4x10", "12"), 6.5);
    (("4x12", "6"), 11.0);   (("4x12", "8"), 9.5);    (("4x12", "10"), 8.5);    (("4x12", "12"), 7.5)
  ].

(** Post height limits *)
Definition POST_HEIGHT_LIMITS : gmap string Q :=
  list_to_map [ ("4x4", 8.0); ("4x6", 14.0); ("6x6", 20.0) ].

(** Design loads *)
Definition DEAD_LOAD_PSF : Q := 15.0.
Definition LIVE_LOAD_PSF : Q := 40.0.
Definition TOTAL_LOAD_PSF : Q := DEAD_LOAD_PSF + LIVE_LOAD_PSF.

(** Cantilever limit *)
Definition MAX_CANTILEVER_RATIO : Q := 0.25.

(** ** code_engine.py: the selectors *)

Definition _get_joist_span_category (joist_span_ft : Q) : string :=
  if Qle_bool joist_span_ft 6 then "6"
  else if Qle_bool joist_span_ft 8 then "8"
  else if Qle_bool joist_span_ft 10 then "10"
  else "12".

(** The sizes the joist and the beam selector iterate over, in the order of
    the [for] loops. *)
Definition JOIST_SIZES : list string := ["2x6"; "2x8"; "2x10"; "2x12"].

(** The functions that read the module-level [JOIST_SPANS] take the table
    as [joist_spans]; the engine's own functions are these at
    [JOIST_SPANS] (below). *)
Section JoistTable.
Variable joist_spans : gmap (string * Z) Q.

(** A [for] loop that returns at the first element passing the test is
    [find]; falling out of the loop is [None]. *)
Definition _select_joist_size_with (span_ft : Q) (spacing_in : Z) : result string :=
  match find (fun size =>
                let max_span := dict_get joist_spans (size, spacing_in) 0 in
                Qge_bool max_span span_ft) JOIST_SIZES with
  | Some size => Return size
  | None =>
      Raise (ValueError (MsgJoistSpanExceeded span_ft spacing_in
                           (dict_get joist_spans ("2x12", spacing_in) 0)))
  end.
End JoistTable.

Definition _select_joist_size (span_ft : Q) (spacing_in : Z) : result string :=
  _select_joist_size_with JOIST_SPANS span_ft spacing_in.

Definition _select_beam_size (beam_span_ft joist_span_ft : Q) : result (string * Z) :=
  let joist_cat := _get_joist_span_category joist_span_ft in
  match find (fun size =>
                let config := "2-" +:+ size in
                let max_span := dict_get BEAM_SPANS (config, joist_cat) 0 in
                Qge_bool max_span beam_span_ft) JOIST_SIZES with
  | Some size => Return (size, 2%Z)
  | None => Raise (ValueError (MsgBeamSpanExceeded beam_span_ft joist_cat))
  end.

(** The loop of [_select_post_size]: [POST_HEIGHT_LIMITS[size]] can raise. *)
Fixpoint _select_post_size_loop (sizes : list string) (height_ft : Q)
  : result (option string) :=
  match sizes with
  | [] => Return None
  | size :: rest =>
      limit ← getitem POST_HEIGHT_LIMITS size;
      if Qge_bool limit height_ft then Return (Some size)
      else _select_post_size_loop rest height_ft
  end.

Definition POST_SIZES : list string := ["4x4"; "4x6"; "6x6"].

Definition _select_post_size (height_ft : Q) : result string :=
  found ← _select_post_size_loop POST_SIZES height_ft;
  match found with
  | Some size => Return size
  | None => Return "6x6"
  end.

(** ** code_engine.py: footing diameter *)

Definition STANDARD_SIZES : list Z := [12; 14; 16; 18; 20; 24]%Z.

(** Lines 118-122: the required diameter, a real from [math.sqrt] on. *)
Definition required_diameter (tributary_area_sqft : Q) (soil_bearing_psf : Z) : result R :=
  required_area_sqft ←
    truediv (tributary_area_sqft * TOTAL_LOAD_PSF) (inject_Z soil_bearing_psf);
  let required_area_sqin := required_area_sqft * 144 in
  root ← math_sqrt (Q2R required_area_sqin / PI)%R;
  Return (2 * root)%R.

Definition _calculate_footing_diameter (tributary_area_sqft : Q) (soil_bearing_psf : Z)
  : result Z :=
  required_diameter ← required_diameter tributary_area_sqft soil_bearing_psf;
  let standard_sizes := STANDARD_SIZES in
  match find (fun size => Rge_bool (IZR size) required_diameter) standard_sizes with
  | Some size => Return size
  | None => Return 24%Z
  end.

(** ** code_engine.py: generate_structure *)

(** A [for] loop that only updates the structure. *)
Definition for_each {A S : Type} (l : list A) (body : A → S → S) (s : S) : S :=
  foldl (fun s x => body x s) s l.

(** Lines 157-166: [(cantilever_ft, joist_span_ft, beam_count)]. *)
Definition span_policy (ledger_attachment : LedgerAttachment) (depth : Q) : Q * Q * Z :=
  if decide (ledger_attachment = FREESTANDING) then
    let cantilever_ft := 0.0 in
    let joist_span_ft := depth / 2 in
    let beam_count := 2%Z in
    (cantilever_ft, joist_span_ft, beam_count)
  else
    let max_cantilever := depth * MAX_CANTILEVER_RATIO in
    let cantilever_ft := Qmin 2.0 max_cantilever in
    let joist_span_ft := depth - cantilever_ft in
    let beam_count := 1%Z in
    (cantilever_ft, joist_span_ft, beam_count).

(** Lines 197-199: [(num_posts, actual_beam_span)]. *)
Definition post_spacing (width : Q) : result (Z * Q) :=
  let target_beam_span := 8.0 in
  let num_posts := Z.max 2 (Qceiling (width / target_beam_span) + 1) in
  actual_beam_span ← truediv width (inject_Z (num_posts - 1));
  Return (num_posts, actual_beam_span).

Section JoistTable.
Variable joist_spans : gmap (string * Z) Q.

Definition generate_structure_with (site_input : SiteInput.t) : result DeckStructure.t :=
  let structure := DeckStructure.new site_input in
  let width := SiteInput.width_ft site_input in
  let depth := SiteInput.depth_ft site_input in
  let height := SiteInput.height_ft site_input in
  (* Determine joist spacing *)
  let joist_spacing_in := 16%Z in
  let structure := DeckStructure.set_joist_spacing_in joist_spacing_in structure in
  (* Calculate cantilever *)
  let '(cantilever_ft, joist_span_ft, beam_count) :=
    span_policy (SiteInput.ledger_attachment site_input) depth in
  (* Validate cantilever *)
  if Qgt_bool cantilever_ft (depth * MAX_CANTILEVER_RATIO) then
    let structure :=
      DeckStructure.errors_append
        (MsgCantileverExceeded cantilever_ft (depth * MAX_CANTILEVER_RATIO) depth)
        structure in
    let structure := DeckStructure.set_compliant false structure in
    Return structure
  else
  (* Select joist size *)
  match _select_joist_size_with joist_spans joist_span_ft joist_spacing_in with
  | Raise (ValueError e) =>
      let structure := DeckStructure.errors_append e structure in
      let structure := DeckStructure.set_compliant false structure in
      Return structure
  | Raise e => Raise e
  | Return joist_size =>
  let structure := DeckStructure.set_joist_size joist_size structure in
  let structure :=
    DeckStructure.notes_append (NoteJoists joist_size joist_spacing_in joist_span_ft)
      structure in
  joist_lumber ← getitem LUMBER_SPECS joist_size;
  (* Calculate elevations *)
  let decking_thickness_ft := 1.0 / 12 in
  let joist_top_z := height - decking_thickness_ft in
  let joist_bottom_z := joist_top_z - LumberSpec.height_ft joist_lumber in
  let beam_top_z := joist_bottom_z in
  (* Determine post spacing (beam span) and beam size *)
  '(num_posts, actual_beam_span) ← post_spacing width;
  match _select_beam_size actual_beam_span joist_span_ft with
  | Raise (ValueError e) =>
      let structure := DeckStructure.errors_append e structure in
      let structure := DeckStructure.set_compliant false structure in
      Return structure
  | Raise e => Raise e
  | Return (beam_lumber_size, beam_ply) =>
  let structure := DeckStructure.set_beam_size beam_lumber_size structure in
  let structure := DeckStructure.set_beam_ply beam_ply structure in
  let beam_config := pretty beam_ply +:+ "-" +:+ beam_lumber_size in
  let structure :=
    DeckStructure.notes_append (NoteBeam beam_config actual_beam_span num_posts)
      structure in
  beam_lumber ← getitem LUMBER_SPECS beam_lumber_size;
  let beam_bottom_z := beam_top_z - LumberSpec.height_ft beam_lumber in
  (* Post height (grade to bottom of beam) *)
  let post_height_ft := beam_bottom_z in
  (* Select post size *)
  post_size ← _select_post_size post_height_ft;
  let structure := DeckStructure.set_post_size post_size structure in
  post_lumber ← getitem LUMBER_SPECS post_size;
  let structure :=
    if Qgt_bool post_height_ft (dict_get POST_HEIGHT_LIMITS post_size 8.0) then
      DeckStructure.notes_append (NotePostsVerify post_size post_height_ft) structure
    else
      DeckStructure.notes_append (NotePosts post_size post_height_ft) structure in
  (* Calculate footing size *)
  let tributary_area := actual_beam_span * joist_span_ft in
  footing_diameter ←
    _calculate_footing_diameter tributary_area (SiteInput.soil_bearing_psf site_input);
  let structure := DeckStructure.set_footing_diameter_in footing_diameter structure in
  let structure :=
    DeckStructure.notes_append
      (NoteFootings footing_diameter (SiteInput.frost_depth_in site_input) tributary_area)
      structure in
  (* Generate beam Y position(s) *)
  let beam_y_positions :=
    if decide (SiteInput.ledger_attachment site_input = FREESTANDING) then
      [depth / 3; 2 * depth / 3]
    else
      [depth - cantilever_ft] in
  (* Generate footings and posts *)
  let structure :=
    for_each beam_y_positions (fun beam_y structure =>
      for_each (seqZ 0 num_posts) (fun i structure =>
        let x := - (width / 2) + (inject_Z i * actual_beam_span) in
        let structure :=
          DeckStructure.footings_append
            (Footing.mk x beam_y footing_diameter (SiteInput.frost_depth_in site_input))
            structure in
        DeckStructure.posts_append (Post.mk x beam_y post_height_ft post_lumber) structure)
      structure) structure in
  (* Generate beams *)
  let structure :=
    for_each beam_y_positions (fun beam_y structure =>
      DeckStructure.beams_append
        (Beam.mk (- width / 2) (width / 2) beam_y beam_bottom_z beam_lumber beam_ply)
        structure) structure in
  (* Generate joists *)
  joist_spacing_ft ← truediv (inject_Z joist_spacing_in) 12;
  ratio ← truediv width joist_spacing_ft;
  let num_joists := (Qfloor ratio + 1)%Z in
  let total_joist_width := inject_Z (num_joists - 1) * joist_spacing_ft in
  let joist_start_x := - total_joist_width / 2 in
  let structure :=
    for_each (seqZ 0 num_joists) (fun i structure =>
      let x := joist_start_x + (inject_Z i * joist_spacing_ft) in
      DeckStructure.joists_append
        (Joist.mk x
           (if negb (bool_decide (SiteInput.ledger_attachment site_input = FREESTANDING))
            then 0 else 0)
           depth joist_bottom_z joist_lumber)
        structure) structure in
  let structure := DeckStructure.notes_append (NoteJoistCount num_joists) structure in
  (* Generate ledger (if attached) *)
  let structure :=
    if negb (bool_decide (SiteInput.ledger_attachment site_input = FREESTANDING)) then
      DeckStructure.set_ledger
        (Some (Ledger.mk (- width / 2) (width / 2) 0 joist_bottom_z joist_lumber
                 (LedgerAttachment_value (SiteInput.ledger_attachment site_input))))
        structure
    else structure in
  (* Generate rim joists *)
  let structure :=
    DeckStructure.set_rim_joists
      [ RimAlongY "left" (- width / 2) 0 depth joist_lumber;
        RimAlongY "right" (width / 2) 0 depth joist_lumber;
        RimAlongX "outer" (- width / 2) (width / 2) depth joist_lumber ]
      structure in
  Return structure
  end
  end.
End JoistTable.

Definition generate_structure (site_input : SiteInput.t) : result DeckStructure.t :=
  generate_structure_with JOIST_SPANS site_input.

(** ** services/pricing.py *)

(** [DeckingType.value] and [RailingType.value] *)
Definition DeckingType_value (t : DeckingType) : string :=
  match t with
  | COMPOSITE_TREX => "trex"
  | COMPOSITE_TIMBERTECH => "timbertech"
  | CEDAR => "cedar"
  | PRESSURE_TREATED => "pt_wood"
  end.

Definition RailingType_value (t : RailingType) : string :=
  match t with
  | NONE => "none"
  | WOOD => "wood"
  | CABLE => "cable"
  | GLASS => "glass"
  | ALUMINUM => "aluminum"
  end.

#[export] Instance DeckingType_eq_dec : EqDecision DeckingType.
Proof. solve_decision. Defined.

#[export] Instance RailingType_eq_dec : EqDecision RailingType.
Proof. solve_decision. Defined.

(** Material prices (per linear foot unless noted) *)
Definition MATERIAL_PRICES : gmap string Q :=
  list_to_map [
    ("2x6_pt_lf", 1.25);
    ("2x8_pt_lf", 1.55);
    ("2x10_pt_lf", 1.85);
    ("2x12_pt_lf", 2.40);
    ("4x4_pt_lf", 2.10);
    ("4x6_pt_lf", 3.20);
    ("6x6_pt_lf", 4.80);
    ("trex_transcend_lf", 4.50);
    ("trex_select_lf", 3.80);
    ("timbertech_azek_lf", 5.20);
    ("timbertech_pro_lf", 4.00);
    ("cedar_decking_lf", 3.40);
    ("pt_decking_lf", 1.80);
    ("concrete_60lb_bag", 6.50);
    ("joist_hanger", 3.50);
    ("joist_hanger_lus210", 4.25);
    ("post_base_pb44", 18.00);
    ("post_base_pb66", 28.00);
    ("post_cap_bc4", 12.00);
    ("post_cap_bc6", 18.00);
    ("ledger_bolt_half_inch", 1.20);
    ("lag_screw_half_inch", 0.85);
    ("carriage_bolt_half_inch", 1.40);
    ("deck_screws_lb", 8.50);
    ("structural_screws_box", 45.00);
    ("cable_rail_lf", 45.00);
    ("glass_rail_lf", 120.00);
    ("aluminum_rail_lf", 55.00);
    ("wood_rail_cedar_lf", 25.00);
    ("wood_rail_pt_lf", 18.00);
    ("stair_stringer_each", 35.00);
    ("stair_tread_composite_each", 28.00);
    ("stair_tread_cedar_each", 18.00)
  ].

(** Labor rates *)
Definition LABOR_RATES : gmap string Q :=
  list_to_map [
    ("footing_each", 175.00);
    ("framing_sqft", 14.00);
    ("decking_composite_sqft", 9.00);
    ("decking_wood_sqft", 7.00);
    ("railing_lf", 35.00);
    ("stairs_tread_each", 225.00);
    ("permit_filing", 250.00);
    ("cleanup_sqft", 0.50)
  ].

(** Permit fees (Seattle) *)
Definition PERMIT_FEES : gmap string Q :=
  list_to_map [
    ("sdci_base", 197.00);
    ("sdci_per_1000_valuation", 14.50);
    ("plan_review_multiplier", 0.65)
  ].

(** Business *)
Definition WASTE_FACTOR : Q := 1.10.
Definition MARGIN : Q := 0.25.

(** The descriptions of the line items: the f-string templates with the
    values they format. *)
Inductive description : Type :=
  | DescFootings (footing_count : Z) (footing_diameter_in frost_depth_in : Z)
  | DescPosts (post_count : Z) (post_size : string) (post_lf : Q)
  | DescBeams (beam_desc : string) (beam_lf : Q)
  | DescJoists (joist_count : Z) (joist_size : string) (joist_spacing_in : Z) (joist_lf : Q)
  | DescLedgerRim (framing_misc_lf : Q)
  | DescFramingLabor (sqft : Q)
  | DescDecking (decking_type : string) (sqft : Q)
  | DescRailing (railing_type : string) (railing_lf : Q)
  | DescStairs (stair_count : Z)
  | DescCleanup
  | DescPermits.

Module LineItem.
Record t : Type := mk {
  category : string;
  description : description;
  quantity : Q;
  unit : string;
  material_cost : Q;
  labor_cost : Q
}.
Definition total (self : t) : Q := material_cost self + labor_cost self.
End LineItem.

Module Quote.
Record t : Type := mk {
  line_items : list LineItem.t;
  materials_subtotal : Q;
  labor_subtotal : Q;
  permit_fees : Q;
  subtotal : Q;
  margin_amount : Q;
  total : Q;
  deck_sqft : Q;
  price_per_sqft : Q
}.
(** [Quote()] *)
Definition new : t := mk [] 0.0 0.0 0.0 0.0 0.0 0.0 0.0 0.0.
End Quote.

(** [str.lower()] on strings of ASCII characters. *)
Definition ascii_lower (c : Ascii.ascii) : Ascii.ascii :=
  let n := Ascii.N_of_ascii c in
  if (65 <=? n)%N && (n <=? 90)%N then Ascii.ascii_of_N (n + 32) else c.

Fixpoint str_lower (s : string) : string :=
  match s with
  | EmptyString => EmptyString
  | String c rest => String (ascii_lower c) (str_lower rest)
  end.

(** [sum(xs)] on floats: the additions run left to right from 0. *)
Definition sum_floats (xs : list Q) : Q := foldl Qplus 0 xs.

(** [len(xs)] *)
Definition len {A : Type} (xs : list A) : Z := Z.of_nat (length xs).

Definition _get_lumber_price (nominal : string) : Q :=
  let key := str_lower nominal +:+ "_pt_lf" in
  dict_get MATERIAL_PRICES key 2.00.

(** The [mapping] dict literal looks every price up before [get] selects
    one; the enumeration is closed, so the default of [get] is never used. *)
Definition _get_decking_price (decking_type : DeckingType) : result Q :=
  trex ← getitem MATERIAL_PRICES "trex_transcend_lf";
  timbertech ← getitem MATERIAL_PRICES "timbertech_azek_lf";
  cedar ← getitem MATERIAL_PRICES "cedar_decking_lf";
  pt ← getitem MATERIAL_PRICES "pt_decking_lf";
  _ ← getitem MATERIAL_PRICES "trex_transcend_lf";
  Return (match decking_type with
          | COMPOSITE_TREX => trex
          | COMPOSITE_TIMBERTECH => timbertech
          | CEDAR => cedar
          | PRESSURE_TREATED => pt
          end).

Definition _get_railing_price (railing_type : RailingType) : result Q :=
  cable ← getitem MATERIAL_PRICES "cable_rail_lf";
  glass ← getitem MATERIAL_PRICES "glass_rail_lf";
  aluminum ← getitem MATERIAL_PRICES "aluminum_rail_lf";
  wood ← getitem MATERIAL_PRICES "wood_rail_cedar_lf";
  Return (match railing_type with
          | CABLE => cable
          | GLASS => glass
          | ALUMINUM => aluminum
          | WOOD => wood
          | NONE => 0.0
          end).

(** [quote.line_items.append(item)] *)
Definition line_items_append (item : LineItem.t) (q : Quote.t) : Quote.t :=
  Quote.mk (Quote.line_items q ++ [item]) (Quote.materials_subtotal q)
    (Quote.labor_subtotal q) (Quote.permit_fees q) (Quote.subtotal q)
    (Quote.margin_amount q) (Quote.total q) (Quote.deck_sqft q)
    (Quote.price_per_sqft q).

Definition calculate_quote (structure : DeckStructure.t) : result Quote.t :=
  let quote := Quote.new in
  let site := DeckStructure.input structure in
  let width := SiteInput.width_ft site in
  let depth := SiteInput.depth_ft site in
  let sqft := width * depth in
  let deck_sqft := sqft in
  (* FOOTINGS *)
  let footing_count := len (DeckStructure.footings structure) in
  let bags_per_footing := 4%Z in
  concrete ← getitem MATERIAL_PRICES "concrete_60lb_bag";
  let footing_materials := inject_Z footing_count * inject_Z bags_per_footing * concrete in
  post_base ← getitem MATERIAL_PRICES "post_base_pb44";
  let footing_materials := footing_materials + inject_Z footing_count * post_base in
  footing_each ← getitem LABOR_RATES "footing_each";
  let footing_labor := inject_Z footing_count * footing_each in
  let quote :=
    line_items_append
      (LineItem.mk "Footings"
         (DescFootings footing_count (DeckStructure.footing_diameter_in structure)
            (SiteInput.frost_depth_in site))
         (inject_Z footing_count) "each" (footing_materials * WASTE_FACTOR) footing_labor)
      quote in
  (* POSTS *)
  let post_lf := sum_floats (Post.height_ft <$> DeckStructure.posts structure) in
  let post_price := _get_lumber_price (DeckStructure.post_size structure) in
  let post_materials := post_lf * post_price in
  post_cap ← getitem MATERIAL_PRICES "post_cap_bc4";
  let post_materials :=
    post_materials + inject_Z (len (DeckStructure.posts structure)) * post_cap in
  let quote :=
    line_items_append
      (LineItem.mk "Posts"
         (DescPosts (len (DeckStructure.posts structure))
            (DeckStructure.post_size structure) post_lf)
         (inject_Z (len (DeckStructure.posts structure))) "each"
         (post_materials * WASTE_FACTOR) 0)
      quote in
  (* BEAMS *)
  let beam_lf :=
    sum_floats ((fun b => (Beam.x_end_ft b - Beam.x_start_ft b) * inject_Z (Beam.ply b))
           <$> DeckStructure.beams structure) in
  let beam_price := _get_lumber_price (DeckStructure.beam_size structure) in
  let beam_materials := beam_lf * beam_price in
  let beam_desc :=
    pretty (DeckStructure.beam_ply structure) +:+ "-" +:+ DeckStructure.beam_size structure in
  let quote :=
    line_items_append
      (LineItem.mk "Beams" (DescBeams beam_desc beam_lf) beam_lf "LF"
         (beam_materials * WASTE_FACTOR) 0)
      quote in
  (* JOISTS *)
  let joist_lf :=
    sum_floats ((fun j => Joist.y_end_ft j - Joist.y_start_ft j)
           <$> DeckStructure.joists structure) in
  let joist_price := _get_lumber_price (DeckStructure.joist_size structure) in
  let joist_materials := joist_lf * joist_price in
  joist_hanger ← getitem MATERIAL_PRICES "joist_hanger";
  let joist_materials :=
    joist_materials + inject_Z (len (DeckStructure.joists structure)) * 2 * joist_hanger in
  let quote :=
    line_items_append
      (LineItem.mk "Joists"
         (DescJoists (len (DeckStructure.joists structure))
            (DeckStructure.joist_size structure)
            (DeckStructure.joist_spacing_in structure) joist_lf)
         joist_lf "LF" (joist_materials * WASTE_FACTOR) 0)
      quote in
  (* LEDGER & RIM *)
  let ledger_lf := if DeckStructure.ledger structure is Some _ then width else 0 in
  let rim_lf := (depth * 2) + width in
  let framing_misc_lf := ledger_lf + rim_lf in
  let misc_materials := framing_misc_lf * joist_price in
  ledger_bolt ← getitem MATERIAL_PRICES "ledger_bolt_half_inch";
  let misc_materials := misc_materials + (ledger_lf / 16) * 12 * ledger_bolt in
  let quote :=
    line_items_append
      (LineItem.mk "Ledger & Rim" (DescLedgerRim framing_misc_lf) framing_misc_lf "LF"
         (misc_materials * WASTE_FACTOR) 0)
      quote in
  (* FRAMING LABOR (combined) *)
  framing_sqft ← getitem LABOR_RATES "framing_sqft";
  let framing_labor := sqft * framing_sqft in
  let quote :=
    line_items_append
      (LineItem.mk "Framing Labor" (DescFramingLabor sqft) sqft "SF" 0 framing_labor)
      quote in
  (* DECKING *)
  let decking_lf := sqft / (5.5 / 12) in
  decking_price ← _get_decking_price (SiteInput.decking_type site);
  let decking_materials := decking_lf * decking_price in
  deck_screws ← getitem MATERIAL_PRICES "deck_screws_lb";
  let decking_materials := decking_materials + (sqft / 4) * deck_screws in
  let is_composite :=
    bool_decide (SiteInput.decking_type site ∈ [COMPOSITE_TREX; COMPOSITE_TIMBERTECH]) in
  decking_rate ←
    (if is_composite then getitem LABOR_RATES "decking_composite_sqft"
     else getitem LABOR_RATES "decking_wood_sqft");
  let decking_labor := sqft * decking_rate in
  let quote :=
    line_items_append
      (LineItem.mk "Decking"
         (DescDecking (DeckingType_value (SiteInput.decking_type site)) sqft)
         sqft "SF" (decking_materials * WASTE_FACTOR) decking_labor)
      quote in
  (* RAILING (if any) *)
  quote ←
    (if negb (bool_decide (SiteInput.railing_type site = NONE))
        && Qgt_bool (SiteInput.railing_lf site) 0
     then
       railing_price ← _get_railing_price (SiteInput.railing_type site);
       let railing_materials := SiteInput.railing_lf site * railing_price in
       railing_rate ← getitem LABOR_RATES "railing_lf";
       let railing_labor := SiteInput.railing_lf site * railing_rate in
       Return
         (line_items_append
            (LineItem.mk "Railing"
               (DescRailing (RailingType_value (SiteInput.railing_type site))
                  (SiteInput.railing_lf site))
               (SiteInput.railing_lf site) "LF" (railing_materials * WASTE_FACTOR)
               railing_labor)
            quote)
     else Return quote);
  (* STAIRS (if any) *)
  quote ←
    (if (0 <? SiteInput.stair_count site)%Z then
       let stringers := 3%Z in
       stringer_each ← getitem MATERIAL_PRICES "stair_stringer_each";
       let stringer_materials := inject_Z stringers * stringer_each * 1.5 in
       tread_each ← getitem MATERIAL_PRICES "stair_tread_composite_each";
       let tread_materials := inject_Z (SiteInput.stair_count site) * tread_each in
       let stair_materials := stringer_materials + tread_materials in
       stairs_rate ← getitem LABOR_RATES "stairs_tread_each";
       let stair_labor := inject_Z (SiteInput.stair_count site) * stairs_rate in
       Return
         (line_items_append
            (LineItem.mk "Stairs" (DescStairs (SiteInput.stair_count site))
               (inject_Z (SiteInput.stair_count site)) "treads"
               (stair_materials * WASTE_FACTOR) stair_labor)
            quote)
     else Return quote);
  (* CLEANUP *)
  cleanup_sqft ← getitem LABOR_RATES "cleanup_sqft";
  let cleanup_labor := sqft * cleanup_sqft in
  let quote :=
    line_items_append
      (LineItem.mk "Cleanup" DescCleanup sqft "SF" 0 cleanup_labor) quote in
  (* PERMITS *)
  let materials_subtotal := sum_floats (LineItem.material_cost <$> Quote.line_items quote) in
  let labor_subtotal := sum_floats (LineItem.labor_cost <$> Quote.line_items quote) in
  let project_value := materials_subtotal + labor_subtotal in
  permit_fee ← getitem PERMIT_FEES "sdci_base";
  per_1000 ← getitem PERMIT_FEES "sdci_per_1000_valuation";
  let permit_fee := permit_fee + (project_value / 1000) * per_1000 in
  multiplier ← getitem PERMIT_FEES "plan_review_multiplier";
  let plan_review := permit_fee * multiplier in
  permit_filing ← getitem LABOR_RATES "permit_filing";
  let total_permit := permit_fee + plan_review + permit_filing in
  permit_filing' ← getitem LABOR_RATES "permit_filing";
  let quote :=
    line_items_append
      (LineItem.mk "Permits" DescPermits 1 "LS" (permit_fee + plan_review) permit_filing')
      quote in
  (* TOTALS *)
  let materials_subtotal := sum_floats (LineItem.material_cost <$> Quote.line_items quote) in
  let labor_subtotal := sum_floats (LineItem.labor_cost <$> Quote.line_items quote) in
  let permit_fees := total_permit in
  let subtotal := materials_subtotal + labor_subtotal in
  margin_amount ← truediv (subtotal * MARGIN) (1 - MARGIN);
  let total := subtotal + margin_amount in
  price_per_sqft ← truediv total sqft;
  Return
    (Quote.mk (Quote.line_items quote) materials_subtotal labor_subtotal permit_fees
       subtotal margin_amount total deck_sqft price_per_sqft).

(** ** Quantities the properties speak about *)

(** The cantilever and the joist span that [generate_structure] works with. *)
Definition cantilever_ft_of (site_input : SiteInput.t) : Q :=
  (span_policy (SiteInput.ledger_attachment site_input)
     (SiteInput.depth_ft site_input)).1.1.
Definition joist_span_ft_of (site_input : SiteInput.t) : Q :=
  (span_policy (SiteInput.ledger_attachment site_input)
     (SiteInput.depth_ft site_input)).1.2.

(** The two error kinds among the messages. *)
Definition is_span_exceeded (m : message) : bool :=
  match m with
  | MsgJoistSpanExceeded _ _ _ | MsgBeamSpanExceeded _ _ => true
  | _ => false
  end.
Definition is_cantilever_exceeded (m : message) : bool :=
  match m with
  | MsgCantileverExceeded _ _ _ => true
  | _ => false
  end.

(** Tabulated maxima, as the selectors look them up. *)
Definition joist_max_span (spacing_in : Z) (size : string) : Q :=
  dict_get JOIST_SPANS (size, spacing_in) 0.
Definition beam_max_span (joist_cat size : string) : Q :=
  dict_get BEAM_SPANS ("2-" +:+ size, joist_cat) 0.

(** The limit [generate_structure] compares the post height with. *)
Definition post_height_limit (size : string) : Q :=
  dict_get POST_HEIGHT_LIMITS size 8.0.

(** The bearing area a footing needs, in square inches (lines 118-119), and
    the diameter of the circle of that area (line 122). *)
Definition required_area_sqin_of (tributary_area_sqft : Q) (soil_bearing_psf : Z) : Q :=
  tributary_area_sqft * TOTAL_LOAD_PSF / inject_Z soil_bearing_psf * 144.
Definition diameter_of_area (area_sqin : Q) : R :=
  (2 * sqrt (Q2R area_sqin / PI))%R.

(** The structure [generate_structure] returns from one of its three
    early [return]s: nothing generated, the sizes selected so far, the notes
    written so far, one error and [compliant = False]. *)
Definition halted (site_input : SiteInput.t) (joist_size : string)
    (notes : list message) (error : message) : DeckStructure.t :=
  DeckStructure.mk site_input [] [] [] [] None [] joist_size 16 "" 2 "" 12
    false notes [error].

(** The elevation stack of lines 190-193 and 215-218. *)
Definition joist_top_z_of (height : Q) : Q := height - 1.0 / 12.
Definition joist_bottom_z_of (height : Q) (joist_lumber : LumberSpec.t) : Q :=
  joist_top_z_of height - LumberSpec.height_ft joist_lumber.
Definition beam_bottom_z_of (height : Q) (joist_lumber beam_lumber : LumberSpec.t) : Q :=
  joist_bottom_z_of height joist_lumber - LumberSpec.height_ft beam_lumber.

(** The same stack (lines 190-193 and 215-218, with [height_ft] of
    [LumberSpec] as [height_in / 12]) in binary64, for replaying a run at
    the boundary of the exact model. *)
Definition post_height_binary64 (height joist_height_in beam_height_in : float) : float :=
  let decking_thickness_ft := (1.0 / 12)%float in
  let joist_top_z := (height - decking_thickness_ft)%float in
  let joist_bottom_z := (joist_top_z - joist_height_in / 12)%float in
  let beam_top_z := joist_bottom_z in
  let beam_bottom_z := (beam_top_z - beam_height_in / 12)%float in
  beam_bottom_z.

(** The beam rows of lines 240-243. *)
Definition beam_y_positions_of (site_input : SiteInput.t) : list Q :=
  let depth := SiteInput.depth_ft site_input in
  if decide (SiteInput.ledger_attachment site_input = FREESTANDING) then
    [depth / 3; 2 * depth / 3]
  else
    [depth - cantilever_ft_of site_input].

(** What the selection steps of a complete run have chosen. *)
Record Design : Type := mkDesign {
  d_joist_size : string;
  d_joist_lumber : LumberSpec.t;
  d_num_posts : Z;
  d_actual_beam_span : Q;
  d_beam_size : string;
  d_beam_ply : Z;
  d_beam_lumber : LumberSpec.t;
  d_post_size : string;
  d_post_lumber : LumberSpec.t;
  d_footing_diameter : Z
}.

(** The structure of a complete run, with its loops written as maps. *)
Definition assembled (site_input : SiteInput.t) (d : Design) : DeckStructure.t :=
  let width := SiteInput.width_ft site_input in
  let depth := SiteInput.depth_ft site_input in
  let height := SiteInput.height_ft site_input in
  let frost := SiteInput.frost_depth_in site_input in
  let joist_span_ft := joist_span_ft_of site_input in
  let joist_bottom_z := joist_bottom_z_of height (d_joist_lumber d) in
  let beam_bottom_z := beam_bottom_z_of height (d_joist_lumber d) (d_beam_lumber d) in
  let post_height_ft := beam_bottom_z in
  let tributary_area := d_actual_beam_span d * joist_span_ft in
  let joist_spacing_ft := inject_Z 16 / 12 in
  let num_joists := (Qfloor (width / joist_spacing_ft) + 1)%Z in
  let joist_start_x := - (inject_Z (num_joists - 1) * joist_spacing_ft) / 2 in
  let post_x (i : Z) := - (width / 2) + (inject_Z i * d_actual_beam_span d) in
  DeckStructure.mk site_input
    (beam_y ← beam_y_positions_of site_input;
     (fun i => Footing.mk (post_x i) beam_y (d_footing_diameter d) frost)
       <$> seqZ 0 (d_num_posts d))
    (beam_y ← beam_y_positions_of site_input;
     (fun i => Post.mk (post_x i) beam_y post_height_ft (d_post_lumber d))
       <$> seqZ 0 (d_num_posts d))
    ((fun beam_y =>
        Beam.mk (- width / 2) (width / 2) beam_y beam_bottom_z (d_beam_lumber d)
          (d_beam_ply d)) <$> beam_y_positions_of site_input)
    ((fun i =>
        Joist.mk (joist_start_x + (inject_Z i * joist_spacing_ft)) 0 depth
          joist_bottom_z (d_joist_lumber d)) <$> seqZ 0 num_joists)
    (if decide (SiteInput.ledger_attachment site_input = FREESTANDING) then None
     else Some (Ledger.mk (- width / 2) (width / 2) 0 joist_bottom_z (d_joist_lumber d)
                  (LedgerAttachment_value (SiteInput.ledger_attachment site_input))))
    [ RimAlongY "left" (- width / 2) 0 depth (d_joist_lumber d);
      RimAlongY "right" (width / 2) 0 depth (d_joist_lumber d);
      RimAlongX "outer" (- width / 2) (width / 2) depth (d_joist_lumber d) ]
    (d_joist_size d) 16 (d_beam_size d) (d_beam_ply d) (d_post_size d)
    (d_footing_diameter d) true
    [ NoteJoists (d_joist_size d) 16 joist_span_ft;
      NoteBeam (pretty (d_beam_ply d) +:+ "-" +:+ d_beam_size d)
        (d_actual_beam_span d) (d_num_posts d);
      (if Qgt_bool post_height_ft (post_height_limit (d_post_size d))
       then NotePostsVerify (d_post_size d) post_height_ft
       else NotePosts (d_post_size d) post_height_ft);
      NoteFootings (d_footing_diameter d) frost tributary_area;
      NoteJoistCount num_joists ]
    [].

(** The selection steps of [generate_structure], one after the other, as
    the conditions under which a run is complete with design [d]. *)
Definition selects (joist_spans : gmap (string * Z) Q) (site_input : SiteInput.t)
    (d : Design) : Prop :=
  let width := SiteInput.width_ft site_input in
  let height := SiteInput.height_ft site_input in
  let joist_span_ft := joist_span_ft_of site_input in
  _select_joist_size_with joist_spans joist_span_ft 16 = Return (d_joist_size d) ∧
  LUMBER_SPECS !! d_joist_size d = Some (d_joist_lumber d) ∧
  post_spacing width = Return (d_num_posts d, d_actual_beam_span d) ∧
  _select_beam_size (d_actual_beam_span d) joist_span_ft =
    Return (d_beam_size d, d_beam_ply d) ∧
  LUMBER_SPECS !! d_beam_size d = Some (d_beam_lumber d) ∧
  _select_post_size (beam_bottom_z_of height (d_joist_lumber d) (d_beam_lumber d)) =
    Return (d_post_size d) ∧
  LUMBER_SPECS !! d_post_size d = Some (d_post_lumber d) ∧
  _calculate_footing_diameter (d_actual_beam_span d * joist_span_ft)
    (SiteInput.soil_bearing_psf site_input) = Return (d_footing_diameter d).

(** Inputs of the scenarios: a 20 by 8 ft freestanding deck 3 ft above
    grade, and the joist span table with one 12 inch entry overwritten and
    one 24 inch entry removed. *)
Definition freestanding_20_8 : SiteInput.t :=
  SiteInput.mk 20 8 3 FREESTANDING 1500 18 0.0 COMPOSITE_TREX NONE 0.0 0 "" "".
Definition JOIST_SPANS_other_columns : gmap (string * Z) Q :=
  <[("2x6", 12%Z) := 0]> (delete ("2x12", 24%Z) JOIST_SPANS).

(** The line items of [calculate_quote], one per section of the function,
    with the prices and rates it looks up written out. *)
Definition footings_line (s : DeckStructure.t) : LineItem.t :=
  let footing_count := len (DeckStructure.footings s) in
  LineItem.mk "Footings"
    (DescFootings footing_count (DeckStructure.footing_diameter_in s)
       (SiteInput.frost_depth_in (DeckStructure.input s)))
    (inject_Z footing_count) "each"
    ((inject_Z footing_count * inject_Z 4 * 6.50 + inject_Z footing_count * 18.00)
     * WASTE_FACTOR)
    (inject_Z footing_count * 175.00).

Definition posts_line (s : DeckStructure.t) : LineItem.t :=
  let post_lf := sum_floats (Post.height_ft <$> DeckStructure.posts s) in
  let post_count := len (DeckStructure.posts s) in
  LineItem.mk "Posts" (DescPosts post_count (DeckStructure.post_size s) post_lf)
    (inject_Z post_count) "each"
    ((post_lf * _get_lumber_price (DeckStructure.post_size s)
      + inject_Z post_count * 12.00) * WASTE_FACTOR)
    0.

Definition beam_lf_of (s : DeckStructure.t) : Q :=
  sum_floats ((fun b => (Beam.x_end_ft b - Beam.x_start_ft b) * inject_Z (Beam.ply b))
                <$> DeckStructure.beams s).

Definition beams_line (s : DeckStructure.t) : LineItem.t :=
  LineItem.mk "Beams"
    (DescBeams (pretty (DeckStructure.beam_ply s) +:+ "-" +:+ DeckStructure.beam_size s)
       (beam_lf_of s))
    (beam_lf_of s) "LF"
    (beam_lf_of s * _get_lumber_price (DeckStructure.beam_size s) * WASTE_FACTOR)
    0.

Definition joist_lf_of (s : DeckStructure.t) : Q :=
  sum_floats ((fun j => Joist.y_end_ft j - Joist.y_start_ft j) <$> DeckStructure.joists s).

Definition joists_line (s : DeckStructure.t) : LineItem.t :=
  let joist_count := len (DeckStructure.joists s) in
  LineItem.mk "Joists"
    (DescJoists joist_count (DeckStructure.joist_size s)
       (DeckStructure.joist_spacing_in s) (joist_lf_of s))
    (joist_lf_of s) "LF"
    ((joist_lf_of s * _get_lumber_price (DeckStructure.joist_size s)
      + inject_Z joist_count * 2 * 3.50) * WASTE_FACTOR)
    0.

Definition ledger_lf_of (s : DeckStructure.t) : Q :=
  if DeckStructure.ledger s is Some _
  then SiteInput.width_ft (DeckStructure.input s) else 0.

Definition framing_misc_lf_of (s : DeckStructure.t) : Q :=
  ledger_lf_of s
  + (SiteInput.depth_ft (DeckStructure.input s) * 2
     + SiteInput.width_ft (DeckStructure.input s)).

Definition ledger_rim_line (s : DeckStructure.t) : LineItem.t :=
  LineItem.mk "Ledger & Rim" (DescLedgerRim (framing_misc_lf_of s))
    (framing_misc_lf_of s) "LF"
    ((framing_misc_lf_of s * _get_lumber_price (DeckStructure.joist_size s)
      + ledger_lf_of s / 16 * 12 * 1.20) * WASTE_FACTOR)
    0.

Definition sqft_of (s : DeckStructure.t) : Q :=
  SiteInput.width_ft (DeckStructure.input s) * SiteInput.depth_ft (DeckStructure.input s).

Definition framing_labor_line (s : DeckStructure.t) : LineItem.t :=
  LineItem.mk "Framing Labor" (DescFramingLabor (sqft_of s)) (sqft_of s) "SF"
    0 (sqft_of s * 14.00).

Definition decking_price_of (t : DeckingType) : Q :=
  match t with
  | COMPOSITE_TREX => 4.50
  | COMPOSITE_TIMBERTECH => 5.20
  | CEDAR => 3.40
  | PRESSURE_TREATED => 1.80
  end.

Definition decking_rate_of (t : DeckingType) : Q :=
  match t with
  | COMPOSITE_TREX | COMPOSITE_TIMBERTECH => 9.00
  | CEDAR | PRESSURE_TREATED => 7.00
  end.

Definition decking_line (s : DeckStructure.t) : LineItem.t :=
  let decking_type := SiteInput.decking_type (DeckStructure.input s) in
  LineItem.mk "Decking" (DescDecking (DeckingType_value decking_type) (sqft_of s))
    (sqft_of s) "SF"
    ((sqft_of s / (5.5 / 12) * decking_price_of decking_type + sqft_of s / 4 * 8.50)
     * WASTE_FACTOR)
    (sqft_of s * decking_rate_of decking_type).

Definition railing_price_of (t : RailingType) : Q :=
  match t with
  | CABLE => 45.00
  | GLASS => 120.00
  | ALUMINUM => 55.00
  | WOOD => 25.00
  | NONE => 0.0
  end.

Definition has_railing (s : DeckStructure.t) : bool :=
  negb (bool_decide (SiteInput.railing_type (DeckStructure.input s) = NONE))
  && Qgt_bool (SiteInput.railing_lf (DeckStructure.input s)) 0.

Definition railing_line (s : DeckStructure.t) : LineItem.t :=
  let site := DeckStructure.input s in
  LineItem.mk "Railing"
    (DescRailing (RailingType_value (SiteInput.railing_type site))
       (SiteInput.railing_lf site))
    (SiteInput.railing_lf site) "LF"
    (SiteInput.railing_lf site * railing_price_of (SiteInput.railing_type site)
     * WASTE_FACTOR)
    (SiteInput.railing_lf site * 35.00).

Definition has_stairs (s : DeckStructure.t) : bool :=
  (0 <? SiteInput.stair_count (DeckStructure.input s))%Z.

Definition stairs_line (s : DeckStructure.t) : LineItem.t :=
  let stair_count := SiteInput.stair_count (DeckStructure.input s) in
  LineItem.mk "Stairs" (DescStairs stair_count) (inject_Z stair_count) "treads"
    ((inject_Z 3 * 35.00 * 1.5 + inject_Z stair_count * 28.00) * WASTE_FACTOR)
    (inject_Z stair_count * 225.00).

Definition cleanup_line (s : DeckStructure.t) : LineItem.t :=
  LineItem.mk "Cleanup" DescCleanup (sqft_of s) "SF" 0 (sqft_of s * 0.50).

(** The line items before the permit line. *)
Definition work_lines (s : DeckStructure.t) : list LineItem.t :=
  ([footings_line s; posts_line s; beams_line s; joists_line s; ledger_rim_line s;
    framing_labor_line s; decking_line s]
   ++ (if has_railing s then [railing_line s] else [])
   ++ (if has_stairs s then [stairs_line s] else [])
   ++ [cleanup_line s])%list.

(** The permit fee with plan review, on a project value. *)
Definition permit_fee_of (project_value : Q) : Q :=
  197.00 + project_value / 1000 * 14.50.

Definition permits_line (s : DeckStructure.t) : LineItem.t :=
  let project_value :=
    sum_floats (LineItem.material_cost <$> work_lines s)
    + sum_floats (LineItem.labor_cost <$> work_lines s) in
  let permit_fee := permit_fee_of project_value in
  LineItem.mk "Permits" DescPermits 1 "LS" (permit_fee + permit_fee * 0.65) 250.00.

(** The quote [calculate_quote] returns. *)
Definition priced (s : DeckStructure.t) : Quote.t :=
  let line_items := (work_lines s ++ [permits_line s])%list in
  let project_value :=
    sum_floats (LineItem.material_cost <$> work_lines s)
    + sum_floats (LineItem.labor_cost <$> work_lines s) in
  let permit_fee := permit_fee_of project_value in
  let materials_subtotal := sum_floats (LineItem.material_cost <$> line_items) in
  let labor_subtotal := sum_floats (LineItem.labor_cost <$> line_items) in
  let subtotal := materials_subtotal + labor_subtotal in
  let margin_amount := subtotal * MARGIN / (1 - MARGIN) in
  let total := subtotal + margin_amount in
  Quote.mk line_items materials_subtotal labor_subtotal
    (permit_fee + permit_fee * 0.65 + 250.00)
    subtotal margin_amount total (sqft_of s) (total / sqft_of s).

(** [size] is the first entry of [sizes] that passes [ok]: it stands at
    some index [i], passes, and no entry before [i] passes. *)
Definition first_passing (ok : string → Prop) (sizes : list string) (size : string) : Prop :=
  ∃ i : nat, sizes !! i = Some size ∧ ok size ∧
    ∀ (j : nat) (smaller : string), (j < i)%nat → sizes !! j = Some smaller → ¬ ok smaller.

(** Every way [generate_structure] returns a structure: one of its three
    early returns, or a complete run. *)
Inductive outcome (tbl : gmap (string * Z) Q) (site_input : SiteInput.t)
  : DeckStructure.t → Prop :=
  | CantileverHalt :
      SiteInput.depth_ft site_input * MAX_CANTILEVER_RATIO < cantilever_ft_of site_input →
      outcome tbl site_input
        (halted site_input "" []
           (MsgCantileverExceeded (cantilever_ft_of site_input)
              (SiteInput.depth_ft site_input * MAX_CANTILEVER_RATIO)
              (SiteInput.depth_ft site_input)))
  | JoistHalt (m : message) :
      cantilever_ft_of site_input <=
        SiteInput.depth_ft site_input * MAX_CANTILEVER_RATIO →
      _select_joist_size_with tbl (joist_span_ft_of site_input) 16 =
        Raise (ValueError m) →
      outcome tbl site_input (halted site_input "" [] m)
  | BeamHalt (joist_size : string) (joist_lumber : LumberSpec.t) (num_posts : Z)
      (actual_beam_span : Q) (m : message) :
      cantilever_ft_of site_input <=
        SiteInput.depth_ft site_input * MAX_CANTILEVER_RATIO →
      _select_joist_size_with tbl (joist_span_ft_of site_input) 16 = Return joist_size →
      LUMBER_SPECS !! joist_size = Some joist_lumber →
      post_spacing (SiteInput.width_ft site_input) =
        Return (num_posts, actual_beam_span) →
      _select_beam_size actual_beam_span (joist_span_ft_of site_input) =
        Raise (ValueError m) →
      outcome tbl site_input
        (halted site_input joist_size
           [NoteJoists joist_size 16 (joist_span_ft_of site_input)] m)
  | Complete (d : Design) :
      cantilever_ft_of site_input <=
        SiteInput.depth_ft site_input * MAX_CANTILEVER_RATIO →
      selects tbl site_input d →
      outcome tbl site_input (assembled site_input d).

(** ** Loops that return at the first match *)

Lemma find_Some_first {A : Type} (p : A → bool) (l : list A) (x : A) :
  find p l = Some x ↔
  ∃ i : nat, l !! i = Some x ∧ p x = true ∧
    ∀ (j : nat) (y : A), (j < i)%nat → l !! j = Some y → p y = false.
Proof.
  induction l as [|a l IH]; simpl.
  - split; [discriminate|]. intros (i & Hi & _). destruct i; discriminate.
  - destruct (p a) eqn:Hpa.
    + split.
      * intros [= ->]. exists 0%nat. repeat split; auto. intros j y Hj. lia.
      * intros (i & Hi & Hpx & Hmin). destruct i as [|i]; simpl in Hi.
        -- congruence.
        -- specialize (Hmin 0%nat a ltac:(lia) eq_refl). congruence.
    + rewrite IH. split.
      * intros (i & Hi & Hpx & Hmin). exists (S i). repeat split; auto.
        intros [|j] y Hj Hy; simpl in Hy; [congruence|]. apply (Hmin j); [lia|done].
      * intros (i & Hi & Hpx & Hmin). destruct i as [|i]; simpl in Hi; [congruence|].
        exists i. repeat split; auto. intros j y Hj Hy. apply (Hmin (S j)); [lia|done].
Qed.

Lemma find_None_all {A : Type} (p : A → bool) (l : list A) :
  find p l = None ↔ ∀ x, x ∈ l → p x = false.
Proof.
  induction l as [|a l IH]; simpl.
  - split; [|done]. intros _ x Hx. inversion Hx.
  - destruct (p a) eqn:Hpa.
    + split; [discriminate|]. intros H. specialize (H a ltac:(left)). congruence.
    + rewrite IH. split.
      * intros H x Hx. inversion Hx; subst; auto.
      * intros H x Hx. apply H. by right.
Qed.

Lemma Qge_bool_true (a b : Q) : Qge_bool a b = true ↔ b <= a.
Proof. unfold Qge_bool. apply Qle_bool_iff. Qed.

Lemma Qge_bool_false (a b : Q) : Qge_bool a b = false ↔ ¬ b <= a.
Proof. rewrite <- Qge_bool_true. destruct (Qge_bool a b); split; congruence. Qed.

Lemma Qgt_bool_true (a b : Q) : Qgt_bool a b = true ↔ b < a.
Proof.
  unfold Qgt_bool. rewrite negb_true_iff. rewrite <- not_true_iff_false, Qle_bool_iff.
  split; [apply Qnot_le_lt | apply Qlt_not_le].
Qed.

Lemma Qgt_bool_false (a b : Q) : Qgt_bool a b = false ↔ a <= b.
Proof. unfold Qgt_bool. rewrite negb_false_iff. apply Qle_bool_iff. Qed.

(** ** The joist selector *)

Lemma select_joist_size_with_Return (tbl : gmap (string * Z) Q) (span_ft : Q)
    (spacing_in : Z) (size : string) :
  _select_joist_size_with tbl span_ft spacing_in = Return size ↔
  first_passing (fun s => span_ft <= dict_get tbl (s, spacing_in) 0) JOIST_SIZES size.
Proof.
  unfold _select_joist_size_with, first_passing.
  destruct (find _ JOIST_SIZES) as [found|] eqn:Hfind.
  - apply find_Some_first in Hfind. split.
    + intros [= <-]. destruct Hfind as (i & Hi & Hp & Hmin). exists i.
      split; [done|]. split; [by apply Qge_bool_true|].
      intros j y Hj Hy. apply Qge_bool_false. by apply (Hmin j).
    + intros (i & Hi & Hp & Hmin). destruct Hfind as (i' & Hi' & Hp' & Hmin').
      f_equal. destruct (Nat.lt_trichotomy i i') as [Hlt|[->|Hlt]].
      * specialize (Hmin' i size Hlt Hi). apply Qge_bool_false in Hmin'. done.
      * congruence.
      * apply Qge_bool_true in Hp'. by specialize (Hmin i' found Hlt Hi').
  - split; [discriminate|]. intros (i & Hi & Hp & _).
    assert (Hin : size ∈ JOIST_SIZES) by (by eapply list_elem_of_lookup_2).
    pose proof (proj1 (find_None_all _ _) Hfind size Hin) as Hf.
    apply Qge_bool_false in Hf. done.
Qed.

Lemma select_joist_size_with_Raise (tbl : gmap (string * Z) Q) (span_ft : Q)
    (spacing_in : Z) (e : exception) :
  _select_joist_size_with tbl span_ft spacing_in = Raise e ↔
  (∀ size, size ∈ JOIST_SIZES → ¬ span_ft <= dict_get tbl (size, spacing_in) 0) ∧
  e = ValueError (MsgJoistSpanExceeded span_ft spacing_in
                    (dict_get tbl ("2x12", spacing_in) 0)).
Proof.
  unfold _select_joist_size_with.
  destruct (find _ JOIST_SIZES) as [found|] eqn:Hfind.
  - split; [discriminate|]. intros [Hnone _].
    apply find_some in Hfind as [Hin Hp]. apply Qge_bool_true in Hp.
    apply list_elem_of_In in Hin. by specialize (Hnone found Hin).
  - split.
    + intros [= <-]. split; [|done]. intros size Hin.
      apply Qge_bool_false. by apply (proj1 (find_None_all _ _) Hfind).
    + intros [_ ->]. done.
Qed.

(** Comparisons between rational constants. *)
Ltac Qconst :=
  first [ apply Qlt_not_le; vm_compute; reflexivity
        | vm_compute; first [ reflexivity | discriminate | (intros ?; discriminate) ] ].

Lemma JOIST_SIZES_elem (size : string) :
  size ∈ JOIST_SIZES ↔ size = "2x6" ∨ size = "2x8" ∨ size = "2x10" ∨ size = "2x12".
Proof. unfold JOIST_SIZES. rewrite !elem_of_cons, elem_of_nil. tauto. Qed.

Lemma JOIST_SIZES_lookup (i : nat) (size : string) :
  JOIST_SIZES !! i = Some size →
  (i = 0%nat ∧ size = "2x6") ∨ (i = 1%nat ∧ size = "2x8") ∨
  (i = 2%nat ∧ size = "2x10") ∨ (i = 3%nat ∧ size = "2x12").
Proof.
  destruct i as [|[|[|[|i]]]]; simpl; intros [= <-]; auto.
Qed.

(** The catalog order is ascending: a later entry of [JOIST_SIZES] is a
    deeper section. *)
Lemma JOIST_SIZES_ascending (i j : nat) (a b : string) :
  (i < j)%nat → JOIST_SIZES !! i = Some a → JOIST_SIZES !! j = Some b →
  ∃ la lb, LUMBER_SPECS !! a = Some la ∧ LUMBER_SPECS !! b = Some lb ∧
           LumberSpec.height_in la < LumberSpec.height_in lb.
Proof.
  intros Hij Ha Hb.
  apply JOIST_SIZES_lookup in Ha as [[-> ->]|[[-> ->]|[[-> ->]|[-> ->]]]];
  apply JOIST_SIZES_lookup in Hb as [[-> ->]|[[-> ->]|[[-> ->]|[-> ->]]]];
  try lia; (eexists _, _; split; [vm_compute; reflexivity|];
            split; [vm_compute; reflexivity|]; Qconst).
Qed.

(** C3. For a spacing of 12, 16 or 24 inches the joist selector walks
    2x6, 2x8, 2x10, 2x12 in this (ascending) order and returns exactly the
    first size whose tabulated maximum span at that spacing is at least the
    required span, so that no smaller catalog size qualifies; it raises
    exactly when no size qualifies, and the error then reports the tabulated
    span of 2x12 at that spacing, which is the largest span of the column. *)
Theorem joist_selector_first_fit (span_ft : Q) (spacing_in : Z) :
  spacing_in ∈ [12; 16; 24]%Z →
  JOIST_SIZES = ["2x6"; "2x8"; "2x10"; "2x12"] ∧
  (∀ i j a b, (i < j)%nat → JOIST_SIZES !! i = Some a → JOIST_SIZES !! j = Some b →
     ∃ la lb, LUMBER_SPECS !! a = Some la ∧ LUMBER_SPECS !! b = Some lb ∧
              LumberSpec.height_in la < LumberSpec.height_in lb) ∧
  (∀ size, _select_joist_size span_ft spacing_in = Return size ↔
     first_passing (fun s => span_ft <= joist_max_span spacing_in s) JOIST_SIZES size) ∧
  (∀ e, _select_joist_size span_ft spacing_in = Raise e ↔
     (∀ size, size ∈ JOIST_SIZES → ¬ span_ft <= joist_max_span spacing_in size) ∧
     e = ValueError (MsgJoistSpanExceeded span_ft spacing_in
                       (joist_max_span spacing_in "2x12"))) ∧
  (∀ size, size ∈ JOIST_SIZES →
     joist_max_span spacing_in size <= joist_max_span spacing_in "2x12").
Proof.
  intros Hspacing. split; [reflexivity|]. split; [apply JOIST_SIZES_ascending|].
  split; [|split].
  - intros size. apply select_joist_size_with_Return.
  - intros e. apply select_joist_size_with_Raise.
  - intros size Hsize. apply JOIST_SIZES_elem in Hsize.
    rewrite !elem_of_cons, elem_of_nil in Hspacing.
    destruct Hspacing as [->|[->|[->|[]]]];
      destruct Hsize as [->|[->|[->| ->]]]; Qconst.
Qed.

Lemma joist_selector_first_fit_witness :
  (16%Z ∈ [12; 16; 24]%Z) ∧ _select_joist_size 10 16 = Return "2x8" ∧
  first_passing (fun s => 10 <= joist_max_span 16 s) JOIST_SIZES "2x8".
Proof.
  assert (H16 : 16%Z ∈ [12; 16; 24]%Z) by (right; left).
  split; [exact H16|]. split; [vm_compute; reflexivity|].
  apply (proj1 (proj2 (proj2 (joist_selector_first_fit 10 16 H16)))).
  vm_compute. reflexivity.
Defined.

(** Scenario 3 of the specification: a 28 ft joist span exceeds every
    entry of the 16 inch column. *)
Example joist_selector_span_28 :
  _select_joist_size 28 16 = Raise (ValueError (MsgJoistSpanExceeded 28 16 19.5)).
Proof. vm_compute. reflexivity. Qed.

(** ** The beam selector *)

Lemma get_joist_span_category_cases (joist_span_ft : Q) :
  (joist_span_ft <= 6 → _get_joist_span_category joist_span_ft = "6") ∧
  (6 < joist_span_ft → joist_span_ft <= 8 → _get_joist_span_category joist_span_ft = "8") ∧
  (8 < joist_span_ft → joist_span_ft <= 10 →
     _get_joist_span_category joist_span_ft = "10") ∧
  (10 < joist_span_ft → _get_joist_span_category joist_span_ft = "12").
Proof.
  unfold _get_joist_span_category.
  destruct (Qle_bool joist_span_ft 6) eqn:H6;
  destruct (Qle_bool joist_span_ft 8) eqn:H8;
  destruct (Qle_bool joist_span_ft 10) eqn:H10;
  try apply Qle_bool_iff in H6; try apply Qle_bool_iff in H8;
  try apply Qle_bool_iff in H10;
  try (apply not_true_iff_false in H6; rewrite Qle_bool_iff in H6);
  try (apply not_true_iff_false in H8; rewrite Qle_bool_iff in H8);
  try (apply not_true_iff_false in H10; rewrite Qle_bool_iff in H10);
  repeat split; intros; try reflexivity; exfalso; lra.
Qed.

Lemma select_beam_size_Return (beam_span_ft joist_span_ft : Q) (size : string) (ply : Z) :
  _select_beam_size beam_span_ft joist_span_ft = Return (size, ply) ↔
  ply = 2%Z ∧
  first_passing
    (fun s => beam_span_ft <= beam_max_span (_get_joist_span_category joist_span_ft) s)
    JOIST_SIZES size.
Proof.
  unfold _select_beam_size, first_passing, beam_max_span.
  set (joist_cat := _get_joist_span_category joist_span_ft).
  destruct (find _ JOIST_SIZES) as [found|] eqn:Hfind.
  - pose proof Hfind as Hfirst. apply find_Some_first in Hfirst.
    destruct Hfirst as (i' & Hi' & Hp' & Hmin'). split.
    + intros [= <- <-]. split; [done|]. exists i'.
      split; [done|]. split; [by apply Qge_bool_true|].
      intros j y Hj Hy. apply Qge_bool_false. by apply (Hmin' j).
    + intros (-> & i & Hi & Hp & Hmin). do 2 f_equal.
      destruct (Nat.lt_trichotomy i i') as [Hlt|[->|Hlt]].
      * specialize (Hmin' i size Hlt Hi). apply Qge_bool_false in Hmin'. done.
      * congruence.
      * apply Qge_bool_true in Hp'. by specialize (Hmin i' found Hlt Hi').
  - pose proof (proj1 (find_None_all _ _) Hfind) as Hall.
    split; [discriminate|]. intros (_ & i & Hi & Hp & _).
    assert (Hin : size ∈ JOIST_SIZES) by (by eapply list_elem_of_lookup_2).
    specialize (Hall size Hin). apply Qge_bool_false in Hall. done.
Qed.

Lemma select_beam_size_Raise (beam_span_ft joist_span_ft : Q) (e : exception) :
  _select_beam_size beam_span_ft joist_span_ft = Raise e ↔
  (∀ size, size ∈ JOIST_SIZES →
     ¬ beam_span_ft <= beam_max_span (_get_joist_span_category joist_span_ft) size) ∧
  e = ValueError (MsgBeamSpanExceeded beam_span_ft
                    (_get_joist_span_category joist_span_ft)).
Proof.
  unfold _select_beam_size, beam_max_span.
  set (joist_cat := _get_joist_span_category joist_span_ft).
  destruct (find _ JOIST_SIZES) as [found|] eqn:Hfind.
  - split; [discriminate|]. intros [Hnone _].
    apply find_some in Hfind as [Hin Hp]. apply Qge_bool_true in Hp.
    apply list_elem_of_In in Hin. by specialize (Hnone found Hin).
  - pose proof (proj1 (find_None_all _ _) Hfind) as Hall. split.
    + intros [= <-]. split; [|done]. intros size Hin.
      apply Qge_bool_false. by apply Hall.
    + intros [_ ->]. done.
Qed.

(** C4. The beam selector maps the joist span to the category "6" (span at
    most 6), "8" (at most 8), "10" (at most 10) or "12" (above 10), reads
    only the doubled configurations "2-<size>" of that category, walks
    2x6, 2x8, 2x10, 2x12 in this order and returns exactly the first size
    whose tabulated maximum is at least the beam span, with ply 2; it raises
    a span-exceeded [ValueError] exactly when no size qualifies. *)
Theorem beam_selector_first_fit (beam_span_ft joist_span_ft : Q) :
  let joist_cat := _get_joist_span_category joist_span_ft in
  ((joist_span_ft <= 6 → joist_cat = "6") ∧
   (6 < joist_span_ft → joist_span_ft <= 8 → joist_cat = "8") ∧
   (8 < joist_span_ft → joist_span_ft <= 10 → joist_cat = "10") ∧
   (10 < joist_span_ft → joist_cat = "12")) ∧
  JOIST_SIZES = ["2x6"; "2x8"; "2x10"; "2x12"] ∧
  (∀ size, beam_max_span joist_cat size =
             dict_get BEAM_SPANS ("2-" +:+ size, joist_cat) 0) ∧
  (∀ size ply, _select_beam_size beam_span_ft joist_span_ft = Return (size, ply) ↔
     ply = 2%Z ∧
     first_passing (fun s => beam_span_ft <= beam_max_span joist_cat s) JOIST_SIZES size) ∧
  (∀ e, _select_beam_size beam_span_ft joist_span_ft = Raise e ↔
     (∀ size, size ∈ JOIST_SIZES → ¬ beam_span_ft <= beam_max_span joist_cat size) ∧
     e = ValueError (MsgBeamSpanExceeded beam_span_ft joist_cat)).
Proof.
  intros joist_cat. split; [apply get_joist_span_category_cases|].
  split; [reflexivity|]. split; [reflexivity|]. split.
  - intros size ply. apply select_beam_size_Return.
  - intros e. apply select_beam_size_Raise.
Qed.

Lemma beam_selector_first_fit_witness :
  _get_joist_span_category 10 = "10" ∧
  _select_beam_size 9 10 = Raise (ValueError (MsgBeamSpanExceeded 9 "10")) ∧
  _select_beam_size 5 8 = Return ("2x8", 2%Z).
Proof.
  split; [|split].
  - apply (proj1 (beam_selector_first_fit 9 10)); Qconst.
  - apply (proj2 (proj2 (proj2 (proj2 (beam_selector_first_fit 9 10))))).
    split; [|reflexivity]. intros size Hsize. apply JOIST_SIZES_elem in Hsize.
    destruct Hsize as [->|[->|[->| ->]]]; Qconst.
  - apply (proj1 (proj2 (proj2 (proj2 (beam_selector_first_fit 5 8))))).
    split; [reflexivity|]. exists 1%nat. split; [reflexivity|]. split; [Qconst|].
    intros [|j] smaller Hj; [|lia]. intros [= <-]. Qconst.
Defined.

(** ** The post selector *)

Lemma select_post_size_eq (height_ft : Q) :
  _select_post_size height_ft =
  Return (if Qge_bool 8.0 height_ft then "4x4"
          else if Qge_bool 14.0 height_ft then "4x6" else "6x6").
Proof.
  unfold _select_post_size, POST_SIZES, _select_post_size_loop, getitem.
  replace (POST_HEIGHT_LIMITS !! "4x4") with (Some 8.0) by (vm_compute; reflexivity).
  replace (POST_HEIGHT_LIMITS !! "4x6") with (Some 14.0) by (vm_compute; reflexivity).
  replace (POST_HEIGHT_LIMITS !! "6x6") with (Some 20.0) by (vm_compute; reflexivity).
  cbn [mbind result_bind].
  destruct (Qge_bool 8.0 height_ft); [reflexivity|].
  destruct (Qge_bool 14.0 height_ft); [reflexivity|].
  destruct (Qge_bool 20.0 height_ft); reflexivity.
Qed.

Lemma post_height_limit_values :
  post_height_limit "4x4" = 8.0 ∧ post_height_limit "4x6" = 14.0 ∧
  post_height_limit "6x6" = 20.0.
Proof. repeat split; vm_compute; reflexivity. Qed.

Lemma POST_SIZES_elem (size : string) :
  size ∈ POST_SIZES ↔ size = "4x4" ∨ size = "4x6" ∨ size = "6x6".
Proof. unfold POST_SIZES. rewrite !elem_of_cons, elem_of_nil. tauto. Qed.

(** The post selector never raises; it returns the first of 4x4, 4x6, 6x6
    whose limit is at least the height, and 6x6 when none is. *)
Lemma select_post_size_first_fit (height_ft : Q) :
  ∃ size, _select_post_size height_ft = Return size ∧
    (first_passing (fun s => height_ft <= post_height_limit s) POST_SIZES size ∨
     ((∀ s, s ∈ POST_SIZES → ¬ height_ft <= post_height_limit s) ∧ size = "6x6")).
Proof.
  rewrite select_post_size_eq.
  destruct post_height_limit_values as (L4 & L6 & L66).
  destruct (Qge_bool 8.0 height_ft) eqn:H8.
  { eexists. split; [reflexivity|]. left. exists 0%nat.
    split; [reflexivity|]. split; [rewrite L4; by apply Qge_bool_true|].
    intros j y Hj. lia. }
  destruct (Qge_bool 14.0 height_ft) eqn:H14.
  { eexists. split; [reflexivity|]. left. exists 1%nat.
    split; [reflexivity|]. split; [rewrite L6; by apply Qge_bool_true|].
    intros [|j] y Hj; [|lia]. intros [= <-]. rewrite L4. by apply Qge_bool_false. }
  eexists. split; [reflexivity|].
  destruct (Qge_bool 20.0 height_ft) eqn:H20.
  - left. exists 2%nat.
    split; [reflexivity|]. split; [rewrite L66; by apply Qge_bool_true|].
    intros [|[|j]] y Hj; [| |lia]; intros [= <-].
    + rewrite L4. by apply Qge_bool_false.
    + rewrite L6. by apply Qge_bool_false.
  - right. split; [|reflexivity]. intros s Hs. apply POST_SIZES_elem in Hs.
    destruct Hs as [->|[->| ->]]; rewrite ?L4, ?L6, ?L66; by apply Qge_bool_false.
Qed.

(** ** Footing diameter *)

Lemma truediv_Return (a b : Q) : ¬ b == 0 → truediv a b = Return (a / b).
Proof.
  intros Hb. unfold truediv. destruct (Qeq_bool b 0) eqn:E; [|reflexivity].
  apply Qeq_bool_iff in E. contradiction.
Qed.

Lemma truediv_Raise (a b : Q) : b == 0 → truediv a b = Raise ZeroDivisionError.
Proof.
  intros Hb. unfold truediv. apply Qeq_bool_iff in Hb. by rewrite Hb.
Qed.

Lemma inject_Z_nonzero (z : Z) : z ≠ 0%Z → ¬ inject_Z z == 0.
Proof. intros Hz Heq. apply Hz. unfold Qeq in Heq. simpl in Heq. lia. Qed.

Lemma inject_Z_pos (z : Z) : (0 < z)%Z → 0 < inject_Z z.
Proof. intros Hz. unfold Qlt. simpl. lia. Qed.

Lemma required_area_sqin_nonneg (tributary_area_sqft : Q) (soil_bearing_psf : Z) :
  0 <= tributary_area_sqft → (0 < soil_bearing_psf)%Z →
  0 <= required_area_sqin_of tributary_area_sqft soil_bearing_psf.
Proof.
  intros Ha Hs. unfold required_area_sqin_of.
  assert (0 <= tributary_area_sqft * TOTAL_LOAD_PSF / inject_Z soil_bearing_psf).
  { apply Qle_shift_div_l; [by apply inject_Z_pos|].
    unfold TOTAL_LOAD_PSF, DEAD_LOAD_PSF, LIVE_LOAD_PSF. lra. }
  lra.
Qed.

Lemma math_sqrt_Return (x : R) : (0 <= x)%R → math_sqrt x = Return (sqrt x).
Proof. intros Hx. unfold math_sqrt. destruct (Rlt_dec x 0); [lra|reflexivity]. Qed.

Lemma required_diameter_Return (tributary_area_sqft : Q) (soil_bearing_psf : Z) :
  0 <= tributary_area_sqft → (0 < soil_bearing_psf)%Z →
  required_diameter tributary_area_sqft soil_bearing_psf =
  Return (diameter_of_area (required_area_sqin_of tributary_area_sqft soil_bearing_psf)).
Proof.
  intros Ha Hs. unfold required_diameter.
  rewrite truediv_Return by (apply inject_Z_nonzero; lia).
  cbn [mbind result_bind].
  fold (required_area_sqin_of tributary_area_sqft soil_bearing_psf).
  rewrite math_sqrt_Return; [reflexivity|].
  pose proof (required_area_sqin_nonneg _ _ Ha Hs) as Hq.
  apply Qle_Rle in Hq. rewrite RMicromega.Q2R_0 in Hq.
  apply Rmult_le_pos; [exact Hq|]. left. apply Rinv_0_lt_compat, PI_RGT_0.
Qed.

Lemma STANDARD_SIZES_elem (size : Z) :
  size ∈ STANDARD_SIZES ↔
  (size = 12 ∨ size = 14 ∨ size = 16 ∨ size = 18 ∨ size = 20 ∨ size = 24)%Z.
Proof. unfold STANDARD_SIZES. rewrite !elem_of_cons, elem_of_nil. tauto. Qed.

(** The round-up loop on a required diameter [d]. *)
Lemma standard_size_round_up (d : R) :
  ∃ size,
    match find (fun size => Rge_bool (IZR size) d) STANDARD_SIZES with
    | Some size => Return size
    | None => Return 24%Z
    end = Return size ∧
    size ∈ STANDARD_SIZES ∧
    ((d <= 24)%R → (d <= IZR size)%R ∧
       ∀ s, s ∈ STANDARD_SIZES → (d <= IZR s)%R → (size <= s)%Z) ∧
    ((24 < d)%R → size = 24%Z).
Proof.
  unfold STANDARD_SIZES, find, Rge_bool.
  destruct (Rle_dec d (IZR 12)) as [H12|H12];
  [|destruct (Rle_dec d (IZR 14)) as [H14|H14];
  [|destruct (Rle_dec d (IZR 16)) as [H16|H16];
  [|destruct (Rle_dec d (IZR 18)) as [H18|H18];
  [|destruct (Rle_dec d (IZR 20)) as [H20|H20];
  [|destruct (Rle_dec d (IZR 24)) as [H24|H24]]]]]];
  (eexists; split; [reflexivity|]; split;
   [rewrite !elem_of_cons; tauto|]; split;
   [intros Hd; split; [lra|];
    intros s Hs Hds; rewrite !elem_of_cons, elem_of_nil in Hs;
    destruct Hs as [->|[->|[->|[->|[->|[->|[]]]]]]]; first [lia | exfalso; lra]
   |intros Hd; first [reflexivity | exfalso; lra]]).
Qed.

Lemma calculate_footing_diameter_round_up (tributary_area_sqft : Q) (soil_bearing_psf : Z) :
  0 <= tributary_area_sqft → (0 < soil_bearing_psf)%Z →
  ∃ size,
    _calculate_footing_diameter tributary_area_sqft soil_bearing_psf = Return size ∧
    size ∈ STANDARD_SIZES ∧
    let d := diameter_of_area (required_area_sqin_of tributary_area_sqft soil_bearing_psf) in
    ((d <= 24)%R → (d <= IZR size)%R ∧
       ∀ s, s ∈ STANDARD_SIZES → (d <= IZR s)%R → (size <= s)%Z) ∧
    ((24 < d)%R → size = 24%Z).
Proof.
  intros Ha Hs. unfold _calculate_footing_diameter.
  rewrite required_diameter_Return by assumption. cbn [mbind result_bind].
  apply standard_size_round_up.
Qed.

Lemma diameter_of_area_le (area_sqin : Q) (k : R) :
  (0 <= k)%R → (4 * Q2R area_sqin <= PI * k * k)%R → (diameter_of_area area_sqin <= k)%R.
Proof.
  intros Hk Hle. unfold diameter_of_area. pose proof PI_RGT_0 as Hpi.
  assert (Hx : (Q2R area_sqin / PI <= (k / 2) * (k / 2))%R).
  { apply Rmult_le_reg_r with PI; [exact Hpi|].
    replace (Q2R area_sqin / PI * PI)%R with (Q2R area_sqin) by (field; lra). lra. }
  apply sqrt_le_1_alt in Hx. rewrite sqrt_square in Hx by lra. lra.
Qed.

Lemma diameter_of_area_gt (area_sqin : Q) (k : R) :
  (0 <= k)%R → (PI * k * k < 4 * Q2R area_sqin)%R → (k < diameter_of_area area_sqin)%R.
Proof.
  intros Hk Hlt. unfold diameter_of_area. pose proof PI_RGT_0 as Hpi.
  assert (Hx : ((k / 2) * (k / 2) < Q2R area_sqin / PI)%R).
  { apply Rmult_lt_reg_r with PI; [exact Hpi|].
    replace (Q2R area_sqin / PI * PI)%R with (Q2R area_sqin) by (field; lra). lra. }
  assert (Hsq : (0 <= (k / 2) * (k / 2))%R) by nra.
  pose proof (sqrt_lt_1_alt _ _ (conj Hsq Hx)) as Hs.
  rewrite sqrt_square in Hs by lra. lra.
Qed.

Lemma PI_gt_3 : (3 < PI)%R.
Proof. pose proof PI2_3_2. lra. Qed.

(** 80 sq ft on 1000 psf soil needs 633.6 sq in; on 1500 psf, 422.4 sq in. *)
Lemma required_area_80_1000 : Q2R (required_area_sqin_of 80 1000) = (6336 / 10)%R.
Proof.
  rewrite (Qeq_eqR _ (6336 # 10)) by (vm_compute; reflexivity).
  unfold Q2R. cbn [Qnum Qden]. reflexivity.
Qed.

Lemma required_area_80_1500 : Q2R (required_area_sqin_of 80 1500) = (4224 / 10)%R.
Proof.
  rewrite (Qeq_eqR _ (4224 # 10)) by (vm_compute; reflexivity).
  unfold Q2R. cbn [Qnum Qden]. reflexivity.
Qed.

(** C2, as the code has it. For a positive tributary area and a positive
    soil bearing capacity, the footing diameter is one of 12, 14, 16, 18, 20,
    24; when the required diameter d = 2·√(A/π) is at most 24 it is at most
    the returned diameter and no smaller standard diameter reaches d; when d
    is above 24 the function returns 24, which is below d. *)
Theorem footing_diameter_round_up (tributary_area_sqft : Q) (soil_bearing_psf : Z) :
  0 < tributary_area_sqft → (0 < soil_bearing_psf)%Z →
  let d := diameter_of_area (required_area_sqin_of tributary_area_sqft soil_bearing_psf) in
  required_diameter tributary_area_sqft soil_bearing_psf = Return d ∧
  ∃ size,
    _calculate_footing_diameter tributary_area_sqft soil_bearing_psf = Return size ∧
    size ∈ [12; 14; 16; 18; 20; 24]%Z ∧
    ((d <= 24)%R → (d <= IZR size)%R ∧
       ∀ s, s ∈ [12; 14; 16; 18; 20; 24]%Z → (d <= IZR s)%R → (size <= s)%Z) ∧
    ((24 < d)%R → size = 24%Z ∧ (IZR size < d)%R).
Proof.
  intros Ha Hs d. split; [apply required_diameter_Return; [lra|lia]|].
  destruct (calculate_footing_diameter_round_up tributary_area_sqft soil_bearing_psf)
    as (size & Hret & Hin & Hle & Hgt); [lra|lia|].
  exists size. split; [exact Hret|]. split; [exact Hin|]. split; [exact Hle|].
  intros Hd. specialize (Hgt Hd). split; [exact Hgt|]. subst size. exact Hd.
Qed.

(** Scenario 5 of the specification: 80 sq ft on 1500 psf soil needs about
    23.2 in, rounded up to 24. *)
Lemma footing_diameter_round_up_witness :
  0 < 80 ∧ (0 < 1500)%Z ∧
  _calculate_footing_diameter 80 1500 = Return 24%Z ∧
  (20 < diameter_of_area (required_area_sqin_of 80 1500) <= 24)%R.
Proof.
  assert (Ha : 0 < 80) by reflexivity. assert (Hs : (0 < 1500)%Z) by reflexivity.
  assert (Hd : (20 < diameter_of_area (required_area_sqin_of 80 1500) <= 24)%R).
  { pose proof PI_gt_3. pose proof PI_4. split.
    - apply diameter_of_area_gt; [lra|]. rewrite required_area_80_1500. lra.
    - apply diameter_of_area_le; [lra|]. rewrite required_area_80_1500. lra. }
  split; [exact Ha|]. split; [exact Hs|]. split; [|exact Hd].
  destruct (footing_diameter_round_up 80 1500 Ha Hs) as (_ & size & Hret & Hin & Hle & _).
  rewrite Hret. f_equal. destruct (Hle (proj2 Hd)) as [Hsize _].
  rewrite !elem_of_cons, elem_of_nil in Hin.
  destruct Hin as [->|[->|[->|[->|[->|[->|[]]]]]]]; first [reflexivity | exfalso; lra].
Defined.

(** C2 as stated fails where the soft clamp applies: 80 sq ft on 1000 psf
    soil needs more than 24 in, and the function returns 24. *)
Lemma footing_diameter_clamp_counterexample :
  0 < 80 ∧ (0 < 1000)%Z ∧
  ∃ size d,
    _calculate_footing_diameter 80 1000 = Return size ∧
    required_diameter 80 1000 = Return d ∧
    ¬ (d <= IZR size)%R.
Proof.
  split; [reflexivity|]. split; [reflexivity|].
  assert (Hd : (24 < diameter_of_area (required_area_sqin_of 80 1000))%R).
  { pose proof PI_4. apply diameter_of_area_gt; [lra|].
    rewrite required_area_80_1000. lra. }
  destruct (calculate_footing_diameter_round_up 80 1000)
    as (size & Hret & _ & _ & Hgt); [Qconst|reflexivity|].
  exists size, (diameter_of_area (required_area_sqin_of 80 1000)).
  split; [exact Hret|]. split; [apply required_diameter_Return; [Qconst|reflexivity]|].
  rewrite (Hgt Hd). lra.
Qed.

(** ** The loops of [generate_structure] as maps *)

Lemma for_each_footings_posts (F : Z → Footing.t) (P : Z → Post.t) (l : list Z)
    (s : DeckStructure.t) :
  for_each l (fun i s => DeckStructure.posts_append (P i)
                           (DeckStructure.footings_append (F i) s)) s =
  DeckStructure.mk (DeckStructure.input s)
    (DeckStructure.footings s ++ (F <$> l)) (DeckStructure.posts s ++ (P <$> l))
    (DeckStructure.beams s) (DeckStructure.joists s) (DeckStructure.ledger s)
    (DeckStructure.rim_joists s) (DeckStructure.joist_size s)
    (DeckStructure.joist_spacing_in s) (DeckStructure.beam_size s)
    (DeckStructure.beam_ply s) (DeckStructure.post_size s)
    (DeckStructure.footing_diameter_in s) (DeckStructure.compliant s)
    (DeckStructure.notes s) (DeckStructure.errors s).
Proof.
  revert s. induction l as [|i l IH]; intros s.
  - destruct s. cbn. by rewrite !app_nil_r.
  - unfold for_each in *. cbn [foldl]. rewrite IH. destruct s. cbn.
    by rewrite <- !app_assoc.
Qed.

Lemma for_each_joists (J : Z → Joist.t) (l : list Z) (s : DeckStructure.t) :
  for_each l (fun i s => DeckStructure.joists_append (J i) s) s =
  DeckStructure.mk (DeckStructure.input s)
    (DeckStructure.footings s) (DeckStructure.posts s)
    (DeckStructure.beams s) (DeckStructure.joists s ++ (J <$> l)) (DeckStructure.ledger s)
    (DeckStructure.rim_joists s) (DeckStructure.joist_size s)
    (DeckStructure.joist_spacing_in s) (DeckStructure.beam_size s)
    (DeckStructure.beam_ply s) (DeckStructure.post_size s)
    (DeckStructure.footing_diameter_in s) (DeckStructure.compliant s)
    (DeckStructure.notes s) (DeckStructure.errors s).
Proof.
  revert s. induction l as [|i l IH]; intros s.
  - destruct s. cbn. by rewrite !app_nil_r.
  - unfold for_each in *. cbn [foldl]. rewrite IH. destruct s. cbn.
    by rewrite <- !app_assoc.
Qed.

Lemma for_each_rows (F : Q → Z → Footing.t) (P : Q → Z → Post.t) (ys : list Q)
    (l : list Z) (s : DeckStructure.t) :
  for_each ys (fun y s =>
    for_each l (fun i s => DeckStructure.posts_append (P y i)
                             (DeckStructure.footings_append (F y i) s)) s) s =
  DeckStructure.mk (DeckStructure.input s)
    (DeckStructure.footings s ++ (y ← ys; F y <$> l))
    (DeckStructure.posts s ++ (y ← ys; P y <$> l))
    (DeckStructure.beams s) (DeckStructure.joists s) (DeckStructure.ledger s)
    (DeckStructure.rim_joists s) (DeckStructure.joist_size s)
    (DeckStructure.joist_spacing_in s) (DeckStructure.beam_size s)
    (DeckStructure.beam_ply s) (DeckStructure.post_size s)
    (DeckStructure.footing_diameter_in s) (DeckStructure.compliant s)
    (DeckStructure.notes s) (DeckStructure.errors s).
Proof.
  revert s. induction ys as [|y ys IH]; intros s.
  - destruct s. cbn. by rewrite !app_nil_r.
  - unfold for_each at 1. cbn [foldl]. fold (for_each (A:=Q) (S:=DeckStructure.t)).
    unfold for_each at 1 in IH. rewrite IH, for_each_footings_posts.
    cbn. by rewrite <- !app_assoc.
Qed.

Lemma for_each_beams (B : Q → Beam.t) (ys : list Q) (s : DeckStructure.t) :
  for_each ys (fun y s => DeckStructure.beams_append (B y) s) s =
  DeckStructure.mk (DeckStructure.input s)
    (DeckStructure.footings s) (DeckStructure.posts s)
    (DeckStructure.beams s ++ (B <$> ys)) (DeckStructure.joists s) (DeckStructure.ledger s)
    (DeckStructure.rim_joists s) (DeckStructure.joist_size s)
    (DeckStructure.joist_spacing_in s) (DeckStructure.beam_size s)
    (DeckStructure.beam_ply s) (DeckStructure.post_size s)
    (DeckStructure.footing_diameter_in s) (DeckStructure.compliant s)
    (DeckStructure.notes s) (DeckStructure.errors s).
Proof.
  revert s. induction ys as [|y ys IH]; intros s.
  - destruct s. cbn. by rewrite !app_nil_r.
  - unfold for_each in *. cbn [foldl]. rewrite IH. destruct s. cbn.
    by rewrite <- !app_assoc.
Qed.

Lemma joist_spacing_ft_nonzero : ¬ inject_Z 16 / 12 == 0.
Proof. Qconst. Qed.

Lemma twelve_nonzero : ¬ 12 == 0.
Proof. Qconst. Qed.

Ltac ds_norm :=
  cbn [DeckStructure.new DeckStructure.footings_append DeckStructure.posts_append
       DeckStructure.beams_append DeckStructure.joists_append DeckStructure.set_ledger
       DeckStructure.set_rim_joists DeckStructure.set_joist_size
       DeckStructure.set_joist_spacing_in DeckStructure.set_beam_size
       DeckStructure.set_beam_ply DeckStructure.set_post_size
       DeckStructure.set_footing_diameter_in DeckStructure.set_compliant
       DeckStructure.notes_append DeckStructure.errors_append
       DeckStructure.input DeckStructure.footings DeckStructure.posts
       DeckStructure.beams DeckStructure.joists DeckStructure.ledger
       DeckStructure.rim_joists DeckStructure.joist_size
       DeckStructure.joist_spacing_in DeckStructure.beam_size DeckStructure.beam_ply
       DeckStructure.post_size DeckStructure.footing_diameter_in
       DeckStructure.compliant DeckStructure.notes DeckStructure.errors app].

Lemma generate_structure_with_complete (tbl : gmap (string * Z) Q)
    (site_input : SiteInput.t) (d : Design) :
  cantilever_ft_of site_input <= SiteInput.depth_ft site_input * MAX_CANTILEVER_RATIO →
  selects tbl site_input d →
  generate_structure_with tbl site_input = Return (assembled site_input d).
Proof.
  intros Hc (Hj & Hjl & Hps & Hb & Hbl & Hp & Hpl & Hf).
  unfold generate_structure_with, assembled, beam_y_positions_of, post_height_limit.
  unfold cantilever_ft_of, joist_span_ft_of, beam_bottom_z_of, joist_bottom_z_of,
    joist_top_z_of in *.
  destruct (span_policy _ _) as [[c jspan] bc] eqn:Hpol. cbn [fst snd] in *.
  cbv beta iota zeta.
  rewrite (proj2 (Qgt_bool_false _ _) Hc), Hj.
  unfold getitem. rewrite Hjl. cbn [mbind result_bind].
  rewrite Hps. cbn [mbind result_bind]. rewrite Hb, Hbl. cbn [mbind result_bind].
  rewrite Hp. cbn [mbind result_bind]. rewrite Hpl. cbn [mbind result_bind].
  rewrite Hf. cbn [mbind result_bind].
  rewrite (truediv_Return _ _ twelve_nonzero). cbn [mbind result_bind].
  rewrite (truediv_Return _ _ joist_spacing_ft_nonzero). cbn [mbind result_bind].
  f_equal. ds_norm.
  destruct (Qgt_bool _ _); ds_norm;
    (rewrite for_each_rows; ds_norm; rewrite for_each_beams; ds_norm;
     rewrite for_each_joists; ds_norm;
     destruct (decide (SiteInput.ledger_attachment site_input = FREESTANDING))
       as [Hfs|Hfs];
     [ rewrite (bool_decide_eq_true_2 _ Hfs)
     | rewrite (bool_decide_eq_false_2 _ Hfs) ]; cbn [negb]; ds_norm; reflexivity).
Qed.

Lemma generate_structure_with_cantilever (tbl : gmap (string * Z) Q)
    (site_input : SiteInput.t) :
  let depth := SiteInput.depth_ft site_input in
  depth * MAX_CANTILEVER_RATIO < cantilever_ft_of site_input →
  generate_structure_with tbl site_input =
  Return (halted site_input "" []
            (MsgCantileverExceeded (cantilever_ft_of site_input)
               (depth * MAX_CANTILEVER_RATIO) depth)).
Proof.
  intros depth Hc. subst depth. unfold generate_structure_with, cantilever_ft_of in *.
  destruct (span_policy _ _) as [[c jspan] bc]. cbn [fst snd] in *.
  cbv beta iota zeta. rewrite (proj2 (Qgt_bool_true _ _) Hc). reflexivity.
Qed.

Lemma generate_structure_with_joist_exceeded (tbl : gmap (string * Z) Q)
    (site_input : SiteInput.t) (m : message) :
  cantilever_ft_of site_input <= SiteInput.depth_ft site_input * MAX_CANTILEVER_RATIO →
  _select_joist_size_with tbl (joist_span_ft_of site_input) 16 = Raise (ValueError m) →
  generate_structure_with tbl site_input = Return (halted site_input "" [] m).
Proof.
  intros Hc Hj. unfold generate_structure_with, cantilever_ft_of, joist_span_ft_of in *.
  destruct (span_policy _ _) as [[c jspan] bc]. cbn [fst snd] in *.
  cbv beta iota zeta. rewrite (proj2 (Qgt_bool_false _ _) Hc), Hj. reflexivity.
Qed.

Lemma generate_structure_with_beam_exceeded (tbl : gmap (string * Z) Q)
    (site_input : SiteInput.t) (joist_size : string) (joist_lumber : LumberSpec.t)
    (num_posts : Z) (actual_beam_span : Q) (m : message) :
  cantilever_ft_of site_input <= SiteInput.depth_ft site_input * MAX_CANTILEVER_RATIO →
  _select_joist_size_with tbl (joist_span_ft_of site_input) 16 = Return joist_size →
  LUMBER_SPECS !! joist_size = Some joist_lumber →
  post_spacing (SiteInput.width_ft site_input) = Return (num_posts, actual_beam_span) →
  _select_beam_size actual_beam_span (joist_span_ft_of site_input) =
    Raise (ValueError m) →
  generate_structure_with tbl site_input =
  Return (halted site_input joist_size
            [NoteJoists joist_size 16 (joist_span_ft_of site_input)] m).
Proof.
  intros Hc Hj Hjl Hps Hb.
  unfold generate_structure_with, cantilever_ft_of, joist_span_ft_of in *.
  destruct (span_policy _ _) as [[c jspan] bc]. cbn [fst snd] in *.
  cbv beta iota zeta. rewrite (proj2 (Qgt_bool_false _ _) Hc), Hj.
  unfold getitem. rewrite Hjl. cbn [mbind result_bind].
  rewrite Hps. cbn [mbind result_bind]. rewrite Hb. reflexivity.
Qed.

Lemma generate_structure_with_outcome (tbl : gmap (string * Z) Q)
    (site_input : SiteInput.t) (s : DeckStructure.t) :
  generate_structure_with tbl site_input = Return s ↔ outcome tbl site_input s.
Proof.
  split.
  - intros Hret.
    destruct (Qlt_le_dec (SiteInput.depth_ft site_input * MAX_CANTILEVER_RATIO)
                (cantilever_ft_of site_input)) as [Hc|Hc].
    { rewrite generate_structure_with_cantilever in Hret by exact Hc.
      injection Hret as <-. by constructor. }
    destruct (_select_joist_size_with tbl (joist_span_ft_of site_input) 16)
      as [js|e] eqn:Hj.
    2:{ pose proof Hj as Hj'. apply select_joist_size_with_Raise in Hj' as [_ ->].
        rewrite (generate_structure_with_joist_exceeded _ _ _ Hc Hj) in Hret.
        injection Hret as <-. by econstructor. }
    pose proof Hret as H. unfold generate_structure_with in H.
    unfold cantilever_ft_of, joist_span_ft_of in *.
    destruct (span_policy _ _) as [[c jspan] bc] eqn:Hpol. cbn [fst snd] in *.
    cbv beta iota zeta in H.
    rewrite (proj2 (Qgt_bool_false _ _) Hc), Hj in H. unfold getitem in H.
    destruct (LUMBER_SPECS !! js) as [jl|] eqn:Hjl; [|discriminate].
    cbn [mbind result_bind] in H.
    destruct (post_spacing _) as [[n span]|e] eqn:Hps; [|discriminate].
    cbn [mbind result_bind] in H.
    destruct (_select_beam_size span jspan) as [[bs ply]|e] eqn:Hb.
    2:{ destruct e as [m| |k]; try discriminate.
        assert (Hhalt := generate_structure_with_beam_exceeded tbl site_input js jl n span m).
        unfold cantilever_ft_of, joist_span_ft_of in Hhalt. rewrite Hpol in Hhalt.
        cbn [fst snd] in Hhalt. rewrite (Hhalt Hc Hj Hjl Hps Hb) in Hret.
        injection Hret as <-.
        assert (Hout := BeamHalt tbl site_input js jl n span m).
        unfold cantilever_ft_of, joist_span_ft_of in Hout. rewrite Hpol in Hout.
        cbn [fst snd] in Hout. by apply Hout. }
    destruct (LUMBER_SPECS !! bs) as [bl|] eqn:Hbl; [|discriminate].
    cbn [mbind result_bind] in H.
    destruct (_select_post_size _) as [ps|e] eqn:Hp; [|discriminate].
    cbn [mbind result_bind] in H.
    destruct (LUMBER_SPECS !! ps) as [pl|] eqn:Hpl; [|discriminate].
    cbn [mbind result_bind] in H.
    destruct (_calculate_footing_diameter _ _) as [fd|e] eqn:Hf; [|discriminate].
    clear H.
    assert (Hsel : selects tbl site_input (mkDesign js jl n span bs ply bl ps pl fd)).
    { unfold selects, joist_span_ft_of. rewrite Hpol. cbn [fst snd].
      cbn [d_joist_size d_joist_lumber d_num_posts d_actual_beam_span d_beam_size
           d_beam_ply d_beam_lumber d_post_size d_post_lumber d_footing_diameter].
      repeat split; assumption. }
    assert (Hc' : cantilever_ft_of site_input <=
                  SiteInput.depth_ft site_input * MAX_CANTILEVER_RATIO).
    { unfold cantilever_ft_of. rewrite Hpol. exact Hc. }
    rewrite (generate_structure_with_complete _ _ _ Hc' Hsel) in Hret.
    injection Hret as <-. by constructor.
  - intros [Hc|m Hc Hj|js jl n span m Hc Hj Hjl Hps Hb|d Hc Hsel].
    + by apply generate_structure_with_cantilever.
    + by apply generate_structure_with_joist_exceeded.
    + by eapply generate_structure_with_beam_exceeded.
    + by apply generate_structure_with_complete.
Qed.

(** An exception of the footing computation is raised outside the two
    [try] blocks: it reaches the caller. *)
Lemma generate_structure_with_footing_Raise (tbl : gmap (string * Z) Q)
    (site_input : SiteInput.t) (d : Design) (e : exception) :
  let width := SiteInput.width_ft site_input in
  let height := SiteInput.height_ft site_input in
  let joist_span_ft := joist_span_ft_of site_input in
  cantilever_ft_of site_input <= SiteInput.depth_ft site_input * MAX_CANTILEVER_RATIO →
  _select_joist_size_with tbl joist_span_ft 16 = Return (d_joist_size d) →
  LUMBER_SPECS !! d_joist_size d = Some (d_joist_lumber d) →
  post_spacing width = Return (d_num_posts d, d_actual_beam_span d) →
  _select_beam_size (d_actual_beam_span d) joist_span_ft =
    Return (d_beam_size d, d_beam_ply d) →
  LUMBER_SPECS !! d_beam_size d = Some (d_beam_lumber d) →
  _select_post_size (beam_bottom_z_of height (d_joist_lumber d) (d_beam_lumber d)) =
    Return (d_post_size d) →
  LUMBER_SPECS !! d_post_size d = Some (d_post_lumber d) →
  _calculate_footing_diameter (d_actual_beam_span d * joist_span_ft)
    (SiteInput.soil_bearing_psf site_input) = Raise e →
  generate_structure_with tbl site_input = Raise e.
Proof.
  intros width height joist_span_ft Hc Hj Hjl Hps Hb Hbl Hp Hpl Hf.
  subst width height joist_span_ft. unfold generate_structure_with.
  unfold cantilever_ft_of, joist_span_ft_of, beam_bottom_z_of, joist_bottom_z_of,
    joist_top_z_of in *.
  destruct (span_policy _ _) as [[c jspan] bc] eqn:Hpol. cbn [fst snd] in *.
  cbv beta iota zeta.
  rewrite (proj2 (Qgt_bool_false _ _) Hc), Hj.
  unfold getitem. rewrite Hjl. cbn [mbind result_bind].
  rewrite Hps. cbn [mbind result_bind]. rewrite Hb, Hbl. cbn [mbind result_bind].
  rewrite Hp. cbn [mbind result_bind]. rewrite Hpl. cbn [mbind result_bind].
  rewrite Hf. reflexivity.
Qed.

(** ** Cantilever and joist span *)

Lemma span_policy_freestanding (depth : Q) :
  span_policy FREESTANDING depth = (0.0, depth / 2, 2%Z).
Proof. reflexivity. Qed.

Lemma span_policy_attached (attachment : LedgerAttachment) (depth : Q) :
  attachment ≠ FREESTANDING →
  span_policy attachment depth =
  (Qmin 2.0 (depth * MAX_CANTILEVER_RATIO),
   depth - Qmin 2.0 (depth * MAX_CANTILEVER_RATIO), 1%Z).
Proof. intros Hatt. unfold span_policy. by destruct (decide _). Qed.

Lemma half_eq (x : Q) : x / 2 == x * (1 # 2).
Proof. reflexivity. Qed.

Lemma cantilever_within_limit (site_input : SiteInput.t) :
  0 <= SiteInput.depth_ft site_input ∨
  SiteInput.ledger_attachment site_input ≠ FREESTANDING →
  cantilever_ft_of site_input <= SiteInput.depth_ft site_input * MAX_CANTILEVER_RATIO.
Proof.
  intros H. unfold cantilever_ft_of.
  destruct (decide (SiteInput.ledger_attachment site_input = FREESTANDING)) as [Hfs|Hfs].
  - destruct H as [H|H]; [|done]. rewrite Hfs, span_policy_freestanding. cbn [fst].
    unfold MAX_CANTILEVER_RATIO. lra.
  - rewrite span_policy_attached by done. cbn [fst]. apply Q.le_min_r.
Qed.

Lemma joist_span_pos_depth_nonneg (site_input : SiteInput.t) :
  0 < joist_span_ft_of site_input →
  0 <= SiteInput.depth_ft site_input ∨
  SiteInput.ledger_attachment site_input ≠ FREESTANDING.
Proof.
  intros H. unfold joist_span_ft_of in H.
  destruct (decide (SiteInput.ledger_attachment site_input = FREESTANDING)) as [Hfs|Hfs];
    [left|by right].
  rewrite Hfs, span_policy_freestanding in H. cbn [fst snd] in H.
  rewrite half_eq in H. lra.
Qed.

Lemma joist_span_pos (site_input : SiteInput.t) :
  0 < SiteInput.depth_ft site_input → 0 < joist_span_ft_of site_input.
Proof.
  intros H. unfold joist_span_ft_of.
  destruct (decide (SiteInput.ledger_attachment site_input = FREESTANDING)) as [Hfs|Hfs].
  - rewrite Hfs, span_policy_freestanding. cbn [fst snd]. rewrite half_eq. lra.
  - rewrite span_policy_attached by done. cbn [fst snd].
    pose proof (Q.le_min_r 2.0 (SiteInput.depth_ft site_input * MAX_CANTILEVER_RATIO)).
    unfold MAX_CANTILEVER_RATIO in *. lra.
Qed.

(** ** Post count and beam span *)

Lemma post_spacing_Return (width : Q) :
  let num_posts := Z.max 2 (Qceiling (width / 8.0) + 1) in
  post_spacing width = Return (num_posts, width / inject_Z (num_posts - 1)) ∧
  (2 <= num_posts)%Z.
Proof.
  intros num_posts. unfold post_spacing. fold num_posts.
  assert (Hn : (2 <= num_posts)%Z) by (subst num_posts; lia).
  rewrite truediv_Return by (apply inject_Z_nonzero; lia). done.
Qed.

Lemma width_le_posts (width : Q) :
  let num_posts := Z.max 2 (Qceiling (width / 8.0) + 1) in
  width <= 8 * inject_Z (num_posts - 1).
Proof.
  intros num_posts.
  assert (Hge : (Qceiling (width / 8.0) <= num_posts - 1)%Z) by (subst num_posts; lia).
  rewrite Zle_Qle in Hge. pose proof (Qle_ceiling (width / 8.0)) as Hceil.
  assert (Hw : width == 8.0 * (width / 8.0)) by (symmetry; apply Qmult_div_r; Qconst).
  rewrite Hw at 1. lra.
Qed.

Lemma post_spacing_bounds (width : Q) (num_posts : Z) (actual_beam_span : Q) :
  post_spacing width = Return (num_posts, actual_beam_span) →
  num_posts = Z.max 2 (Qceiling (width / 8.0) + 1) ∧
  actual_beam_span = width / inject_Z (num_posts - 1) ∧
  actual_beam_span <= 8 ∧
  inject_Z (num_posts - 1) * actual_beam_span == width ∧
  (0 < width → 0 < actual_beam_span).
Proof.
  destruct (post_spacing_Return width) as [Hret Hn]. rewrite Hret. intros [= <- <-].
  set (num_posts := Z.max 2 (Qceiling (width / 8.0) + 1)) in *.
  assert (Hk : 0 < inject_Z (num_posts - 1)) by (apply inject_Z_pos; lia).
  split; [reflexivity|]. split; [reflexivity|]. split; [|split].
  - apply Qle_shift_div_r; [exact Hk|]. apply width_le_posts.
  - apply Qmult_div_r. lra.
  - intros Hw. apply Qlt_shift_div_l; [exact Hk|]. lra.
Qed.

(** C6. With a positive depth the cantilever that [generate_structure]
    chooses, 0 for a freestanding deck and min(2, depth × 0.25) for a
    ledger-attached one, is at most 25% of the depth; the cantilever check
    is then false and no run records a cantilever error. *)
Theorem cantilever_check_unreachable (site_input : SiteInput.t) :
  0 < SiteInput.depth_ft site_input →
  let depth := SiteInput.depth_ft site_input in
  (SiteInput.ledger_attachment site_input = FREESTANDING →
     cantilever_ft_of site_input = 0.0) ∧
  (SiteInput.ledger_attachment site_input ≠ FREESTANDING →
     cantilever_ft_of site_input = Qmin 2.0 (depth * 0.25)) ∧
  cantilever_ft_of site_input <= depth * 0.25 ∧
  Qgt_bool (cantilever_ft_of site_input) (depth * MAX_CANTILEVER_RATIO) = false ∧
  ∀ s, generate_structure site_input = Return s →
       ∀ m, m ∈ DeckStructure.errors s → is_cantilever_exceeded m = false.
Proof.
  intros Hdepth depth.
  assert (Hc : cantilever_ft_of site_input <= depth * MAX_CANTILEVER_RATIO)
    by (apply cantilever_within_limit; left; subst depth; lra).
  split; [|split; [|split; [|split]]].
  - intros Hfs. unfold cantilever_ft_of. by rewrite Hfs.
  - intros Hfs. unfold cantilever_ft_of. by rewrite span_policy_attached.
  - exact Hc.
  - by apply Qgt_bool_false.
  - intros s Hs m Hm. apply generate_structure_with_outcome in Hs.
    destruct Hs as [Hgt|m' _ Hj|js jl n span m' _ _ _ _ Hb|d _ _].
    + exfalso. subst depth. lra.
    + apply select_joist_size_with_Raise in Hj as [_ [= ->]].
      cbn in Hm. apply list_elem_of_singleton in Hm as ->. reflexivity.
    + apply select_beam_size_Raise in Hb as [_ [= ->]].
      cbn in Hm. apply list_elem_of_singleton in Hm as ->. reflexivity.
    + cbn in Hm. by apply elem_of_nil in Hm.
Qed.

(** Scenario 4 of the specification: depth 4, attached, cantilever 1. *)
Lemma cantilever_check_unreachable_witness :
  0 < 4 ∧ cantilever_ft_of (SiteInput.default 10 4 3) == 1 ∧
  cantilever_ft_of (SiteInput.default 10 4 3) <= 4 * 0.25.
Proof.
  assert (H4 : 0 < SiteInput.depth_ft (SiteInput.default 10 4 3)) by reflexivity.
  split; [exact H4|]. split; [reflexivity|].
  exact (proj1 (proj2 (proj2 (cantilever_check_unreachable _ H4)))).
Defined.

(** ** Catalog lookups of the selected sizes *)

Lemma first_passing_elem (ok : string → Prop) (sizes : list string) (size : string) :
  first_passing ok sizes size → size ∈ sizes.
Proof. intros (i & Hi & _). by eapply list_elem_of_lookup_2. Qed.

Lemma select_joist_size_with_catalog (tbl : gmap (string * Z) Q) (span_ft : Q)
    (spacing_in : Z) (size : string) :
  _select_joist_size_with tbl span_ft spacing_in = Return size → size ∈ JOIST_SIZES.
Proof. intros H. apply select_joist_size_with_Return in H. by eapply first_passing_elem. Qed.

Lemma select_beam_size_catalog (beam_span_ft joist_span_ft : Q) (size : string) (ply : Z) :
  _select_beam_size beam_span_ft joist_span_ft = Return (size, ply) →
  size ∈ JOIST_SIZES ∧ ply = 2%Z.
Proof.
  intros H. apply select_beam_size_Return in H as [-> H].
  split; [by eapply first_passing_elem|reflexivity].
Qed.

Lemma LUMBER_SPECS_values :
  LUMBER_SPECS !! "2x6" = Some (LumberSpec.mk "2x6" 1.5 5.5) ∧
  LUMBER_SPECS !! "2x8" = Some (LumberSpec.mk "2x8" 1.5 7.25) ∧
  LUMBER_SPECS !! "2x10" = Some (LumberSpec.mk "2x10" 1.5 9.25) ∧
  LUMBER_SPECS !! "2x12" = Some (LumberSpec.mk "2x12" 1.5 11.25).
Proof. repeat split; vm_compute; reflexivity. Qed.

Lemma JOIST_SIZES_lumber (size : string) :
  size ∈ JOIST_SIZES →
  ∃ l, LUMBER_SPECS !! size = Some l ∧ 0 < LumberSpec.height_ft l.
Proof.
  intros H. apply JOIST_SIZES_elem in H as [->|[->|[->| ->]]];
    (eexists; split; [vm_compute; reflexivity|Qconst]).
Qed.

Lemma select_post_size_lumber (height_ft : Q) :
  ∃ size l, _select_post_size height_ft = Return size ∧ LUMBER_SPECS !! size = Some l.
Proof.
  rewrite select_post_size_eq.
  destruct (Qge_bool 8.0 height_ft); [|destruct (Qge_bool 14.0 height_ft)];
    (eexists _, _; split; [reflexivity|vm_compute; reflexivity]).
Qed.

(** ** When [generate_structure] returns *)

(** The selection steps past the beam selector never stop a run. *)
Lemma selects_exists (tbl : gmap (string * Z) Q) (site_input : SiteInput.t)
    (joist_size : string) (num_posts : Z) (actual_beam_span : Q)
    (beam_size : string) (beam_ply : Z) :
  let joist_span_ft := joist_span_ft_of site_input in
  _select_joist_size_with tbl joist_span_ft 16 = Return joist_size →
  post_spacing (SiteInput.width_ft site_input) = Return (num_posts, actual_beam_span) →
  _select_beam_size actual_beam_span joist_span_ft = Return (beam_size, beam_ply) →
  0 <= actual_beam_span * joist_span_ft →
  (0 < SiteInput.soil_bearing_psf site_input)%Z →
  ∃ d, selects tbl site_input d ∧
       d_joist_size d = joist_size ∧ d_num_posts d = num_posts ∧
       d_actual_beam_span d = actual_beam_span ∧ d_beam_size d = beam_size ∧
       d_beam_ply d = beam_ply.
Proof.
  intros joist_span_ft Hj Hps Hb Harea Hsoil.
  destruct (JOIST_SIZES_lumber joist_size) as (jl & Hjl & _);
    [by eapply select_joist_size_with_catalog|].
  destruct (JOIST_SIZES_lumber beam_size) as (bl & Hbl & _);
    [by eapply select_beam_size_catalog|].
  destruct (select_post_size_lumber
              (beam_bottom_z_of (SiteInput.height_ft site_input) jl bl))
    as (ps & pl & Hp & Hpl).
  destruct (calculate_footing_diameter_round_up _ _ Harea Hsoil) as (fd & Hf & _).
  exists (mkDesign joist_size jl num_posts actual_beam_span beam_size beam_ply bl ps pl fd).
  split; [|done]. unfold selects.
  cbn [d_joist_size d_joist_lumber d_num_posts d_actual_beam_span d_beam_size
       d_beam_ply d_beam_lumber d_post_size d_post_lumber d_footing_diameter].
  repeat split; assumption.
Qed.

(** With positive width, depth and soil bearing capacity, a run returns a
    structure: no exception reaches the caller. *)
Lemma generate_structure_with_returns (tbl : gmap (string * Z) Q)
    (site_input : SiteInput.t) :
  0 < SiteInput.width_ft site_input →
  0 < SiteInput.depth_ft site_input →
  (0 < SiteInput.soil_bearing_psf site_input)%Z →
  ∃ s, generate_structure_with tbl site_input = Return s.
Proof.
  intros Hw Hd Hsoil.
  assert (Hc : cantilever_ft_of site_input <=
               SiteInput.depth_ft site_input * MAX_CANTILEVER_RATIO)
    by (apply cantilever_within_limit; left; lra).
  pose proof (joist_span_pos _ Hd) as Hjspan.
  destruct (_select_joist_size_with tbl (joist_span_ft_of site_input) 16)
    as [js|e] eqn:Hj.
  2:{ pose proof Hj as Hj'. apply select_joist_size_with_Raise in Hj' as [_ ->].
      eexists. by apply generate_structure_with_joist_exceeded. }
  destruct (post_spacing_Return (SiteInput.width_ft site_input)) as [Hps _].
  destruct (post_spacing_bounds _ _ _ Hps) as (_ & _ & _ & _ & Hspan).
  specialize (Hspan Hw). revert Hps Hspan.
  generalize (Z.max 2 (Qceiling (SiteInput.width_ft site_input / 8.0) + 1)).
  intros n. generalize (SiteInput.width_ft site_input / inject_Z (n - 1)).
  intros span Hps Hspan.
  destruct (_select_beam_size span (joist_span_ft_of site_input))
    as [[bs ply]|e] eqn:Hb.
  2:{ pose proof Hb as Hb'. apply select_beam_size_Raise in Hb' as [_ ->].
      destruct (JOIST_SIZES_lumber js) as (jl & Hjl & _);
        [by eapply select_joist_size_with_catalog|].
      eexists. by eapply generate_structure_with_beam_exceeded. }
  destruct (selects_exists tbl site_input _ _ _ _ _ Hj Hps Hb) as (d & Hsel & _);
    [nra|exact Hsoil|].
  eexists. by apply generate_structure_with_complete.
Qed.

(** ** Post count and beam span in the structure *)

(** C8. For a positive width, with post count = max(2, ceil(width / 8) + 1)
    and beam span = width / (post count − 1): the count is at least 2, the
    span is positive and at most the 8 ft target, and post count − 1 such
    spans add up to the width.  These are the numbers [generate_structure]
    works with.  Every compliant structure it returns names this span and
    count in its beam note, has its beam selected for this span, and has
    this many posts per beam row, this span apart from x = −width / 2; a
    beam span-exceeded error of a returned structure names this span.
    And the structures are there: with a positive depth and soil bearing
    capacity, whenever the joist selector returns, [generate_structure]
    returns a structure that is compliant with this span and count in its
    beam note if the beam selector returns for this span, and one whose only
    error is the beam selector's message for this span if it raises. *)
Theorem post_count_and_beam_span (site_input : SiteInput.t) :
  let width := SiteInput.width_ft site_input in
  let joist_span_ft := joist_span_ft_of site_input in
  let num_posts := Z.max 2 (Qceiling (width / 8.0) + 1) in
  let actual_beam_span := width / inject_Z (num_posts - 1) in
  let post_xs :=
    _ ← beam_y_positions_of site_input;
    (fun i => - (width / 2) + inject_Z i * actual_beam_span) <$> seqZ 0 num_posts in
  0 < width →
  (2 <= num_posts)%Z ∧
  0 < actual_beam_span ∧ actual_beam_span <= 8 ∧
  inject_Z (num_posts - 1) * actual_beam_span == width ∧
  (∀ s, generate_structure site_input = Return s →
     (DeckStructure.compliant s = true →
        (∃ beam_config, NoteBeam beam_config actual_beam_span num_posts
                          ∈ DeckStructure.notes s) ∧
        _select_beam_size actual_beam_span joist_span_ft =
          Return (DeckStructure.beam_size s, DeckStructure.beam_ply s) ∧
        Post.x_ft <$> DeckStructure.posts s = post_xs) ∧
     (∀ beam_span joist_cat,
        MsgBeamSpanExceeded beam_span joist_cat ∈ DeckStructure.errors s →
        beam_span = actual_beam_span)) ∧
  (0 < SiteInput.depth_ft site_input →
   (0 < SiteInput.soil_bearing_psf site_input)%Z →
   ∀ joist_size, _select_joist_size joist_span_ft 16 = Return joist_size →
     ∃ s, generate_structure site_input = Return s ∧
       ((∃ beam_size,
           _select_beam_size actual_beam_span joist_span_ft = Return (beam_size, 2%Z) ∧
           DeckStructure.compliant s = true ∧
           NoteBeam ("2-" +:+ beam_size) actual_beam_span num_posts
             ∈ DeckStructure.notes s ∧
           Post.x_ft <$> DeckStructure.posts s = post_xs) ∨
        (∃ joist_cat,
           _select_beam_size actual_beam_span joist_span_ft =
             Raise (ValueError (MsgBeamSpanExceeded actual_beam_span joist_cat)) ∧
           DeckStructure.compliant s = false ∧
           DeckStructure.errors s = [MsgBeamSpanExceeded actual_beam_span joist_cat] ∧
           DeckStructure.posts s = []))).
Proof.
  intros width joist_span_ft num_posts actual_beam_span post_xs Hw.
  destruct (post_spacing_Return width) as [Hret Hn].
  fold num_posts actual_beam_span in Hret, Hn.
  destruct (post_spacing_bounds _ _ _ Hret) as (_ & _ & Hle & Hsum & Hpos).
  assert (Hxs : ∀ d, d_num_posts d = num_posts → d_actual_beam_span d = actual_beam_span →
            Post.x_ft <$> DeckStructure.posts (assembled site_input d) = post_xs).
  { intros d Hdn Hds. unfold assembled, post_xs. cbn [DeckStructure.posts].
    rewrite Hdn, Hds. fold width.
    generalize (beam_y_positions_of site_input). intros ys.
    induction ys as [|y ys IH]; [reflexivity|].
    cbn [mbind list_bind]. rewrite !fmap_app, <- list_fmap_compose. f_equal. exact IH. }
  split; [exact Hn|]. split; [by apply Hpos|]. split; [exact Hle|].
  split; [exact Hsum|]. split.
  - intros s Hs. apply generate_structure_with_outcome in Hs.
    destruct Hs as [Hgt|m' _ Hj|js jl n span m' _ _ _ Hps Hb|d _ Hsel].
    + split; [intros Hcompl; cbn in Hcompl; discriminate|].
      intros bspan cat Hin. cbn in Hin. apply list_elem_of_singleton in Hin. discriminate.
    + split; [intros Hcompl; cbn in Hcompl; discriminate|].
      intros bspan cat Hin. cbn in Hin. apply list_elem_of_singleton in Hin.
      apply select_joist_size_with_Raise in Hj as [_ [= ->]]. discriminate.
    + split; [intros Hcompl; cbn in Hcompl; discriminate|].
      intros bspan cat Hin. cbn in Hin. apply list_elem_of_singleton in Hin.
      apply select_beam_size_Raise in Hb as [_ [= ->]].
      fold width in Hps. rewrite Hret in Hps. injection Hps as _ <-.
      by injection Hin as -> _.
    + destruct Hsel as (_ & _ & Hps & Hb & _).
      fold width in Hps. rewrite Hret in Hps. injection Hps as Hdn Hds.
      split.
      * intros _. split; [|split].
        -- eexists. unfold assembled. cbn [DeckStructure.notes]. rewrite <- Hdn, <- Hds.
           right; left.
        -- rewrite <- Hds in Hb. exact Hb.
        -- by apply Hxs.
      * intros bspan cat Hin. cbn in Hin. by apply elem_of_nil in Hin.
  - intros Hd Hsoil joist_size Hj.
    assert (Hc : cantilever_ft_of site_input <=
                 SiteInput.depth_ft site_input * MAX_CANTILEVER_RATIO)
      by (apply cantilever_within_limit; left; lra).
    pose proof (joist_span_pos _ Hd) as Hjspan. fold joist_span_ft in Hjspan.
    specialize (Hpos Hw).
    destruct (_select_beam_size actual_beam_span joist_span_ft) as [[bs ply]|e] eqn:Hb.
    + pose proof (select_beam_size_catalog _ _ _ _ Hb) as [_ ->].
      destruct (selects_exists JOIST_SPANS site_input _ _ _ _ _ Hj Hret Hb)
        as (d & Hsel & _ & Hdn & Hds & Hdb & Hdp);
        [apply Qmult_le_0_compat; apply Qlt_le_weak; assumption|exact Hsoil|].
      exists (assembled site_input d).
      split; [by apply generate_structure_with_complete|].
      left. exists bs. split; [reflexivity|]. split; [reflexivity|]. split.
      * unfold assembled. cbn [DeckStructure.notes]. rewrite Hdn, Hds, Hdb, Hdp.
        right; left.
      * by apply Hxs.
    + pose proof Hb as Hb'. apply select_beam_size_Raise in Hb' as [_ ->].
      destruct (JOIST_SIZES_lumber joist_size) as (jl & Hjl & _);
        [by eapply select_joist_size_with_catalog|].
      eexists. split.
      { eapply generate_structure_with_beam_exceeded; [exact Hc|exact Hj|exact Hjl| |exact Hb].
        exact Hret. }
      right. eexists. split; [reflexivity|]. split; [reflexivity|].
      split; reflexivity.
Qed.

Lemma post_count_and_beam_span_witness :
  ∃ s, generate_structure (SiteInput.default 16 12 3) = Return s ∧
       DeckStructure.compliant s = true ∧
       NoteBeam "2-2x12" (16 / inject_Z 2) 3 ∈ DeckStructure.notes s.
Proof.
  assert (Hw : 0 < SiteInput.width_ft (SiteInput.default 16 12 3)) by reflexivity.
  assert (Hd : 0 < SiteInput.depth_ft (SiteInput.default 16 12 3)) by reflexivity.
  assert (Hsoil : (0 < SiteInput.soil_bearing_psf (SiteInput.default 16 12 3))%Z)
    by reflexivity.
  assert (Hj : _select_joist_size (joist_span_ft_of (SiteInput.default 16 12 3)) 16
               = Return "2x8") by (vm_compute; reflexivity).
  destruct (post_count_and_beam_span (SiteInput.default 16 12 3) Hw)
    as (_ & _ & _ & _ & _ & Hex).
  destruct (Hex Hd Hsoil "2x8" Hj)
    as (s & Hret & [(bs & Hb & Hc & Hnote & _)|(cat & Hb & _)]).
  - assert (Hsel : _select_beam_size (16 / inject_Z 2)
                     (joist_span_ft_of (SiteInput.default 16 12 3))
                   = Return ("2x12", 2%Z)) by (vm_compute; reflexivity).
    change (_select_beam_size (16 / inject_Z 2)
              (joist_span_ft_of (SiteInput.default 16 12 3)) = Return (bs, 2%Z)) in Hb.
    rewrite Hsel in Hb. injection Hb as <-.
    exists s. split; [exact Hret|]. split; [exact Hc|exact Hnote].
  - assert (Hsel : _select_beam_size (16 / inject_Z 2)
                     (joist_span_ft_of (SiteInput.default 16 12 3))
                   = Return ("2x12", 2%Z)) by (vm_compute; reflexivity).
    change (_select_beam_size (16 / inject_Z 2)
              (joist_span_ft_of (SiteInput.default 16 12 3))
            = Raise (ValueError (MsgBeamSpanExceeded (16 / inject_Z 2) cat))) in Hb.
    rewrite Hsel in Hb. discriminate Hb.
Defined.

(** Outside the constraints of [SiteInput] the footing step does raise: a
    zero soil bearing capacity divides by zero, a negative one takes the
    square root of a negative area. *)
Lemma calculate_footing_diameter_zero_soil (tributary_area_sqft : Q) :
  _calculate_footing_diameter tributary_area_sqft 0 = Raise ZeroDivisionError.
Proof.
  unfold _calculate_footing_diameter, required_diameter.
  by rewrite truediv_Raise by reflexivity.
Qed.

Lemma calculate_footing_diameter_negative_soil :
  _calculate_footing_diameter 80 (-1500) = Raise (ValueError MsgMathDomainError).
Proof.
  unfold _calculate_footing_diameter, required_diameter.
  rewrite truediv_Return by Qconst. cbn [mbind result_bind].
  unfold math_sqrt. destruct (Rlt_dec _ 0) as [Hneg|Hnonneg]; [reflexivity|].
  exfalso. apply Hnonneg.
  rewrite (Qeq_eqR _ (- (4224 # 10))) by (vm_compute; reflexivity).
  rewrite Q2R_opp. unfold Q2R. cbn [Qnum Qden].
  pose proof PI_RGT_0 as Hpi. apply Rmult_lt_reg_r with PI; [exact Hpi|].
  replace (- (4224 * / 10) / PI * PI)%R with (- (4224 / 10))%R by (field; lra). lra.
Qed.

Example generate_structure_zero_soil :
  generate_structure
    (SiteInput.mk 16 12 3 DIRECT 0 18 0.0 COMPOSITE_TREX NONE 0.0 0 "" "")
  = Raise ZeroDivisionError.
Proof.
  apply (generate_structure_with_footing_Raise JOIST_SPANS _
           (mkDesign "2x8" (LumberSpec.mk "2x8" 1.5 7.25) 3 (16 / inject_Z 2)
              "2x12" 2 (LumberSpec.mk "2x12" 1.5 11.25)
              "4x4" (LumberSpec.mk "4x4" 3.5 3.5) 12));
    first [ apply calculate_footing_diameter_zero_soil
          | vm_compute; reflexivity
          | Qconst ].
Qed.

(** ** Span-exceeded errors *)

(** The joist selector of the engine fails only on a span above 19.5 ft,
    the beam selector only on a joist span above 10 ft. *)
Lemma select_joist_size_Raise_span (span_ft : Q) (e : exception) :
  _select_joist_size span_ft 16 = Raise e → 19.5 < span_ft.
Proof.
  intros H. apply select_joist_size_with_Raise in H as [Hnone _].
  specialize (Hnone "2x12" ltac:(apply JOIST_SIZES_elem; tauto)).
  apply Qnot_le_lt in Hnone. exact Hnone.
Qed.

Lemma select_beam_size_Raise_span (beam_span_ft joist_span_ft : Q) (e : exception) :
  beam_span_ft <= 8 →
  _select_beam_size beam_span_ft joist_span_ft = Raise e → 10 < joist_span_ft.
Proof.
  intros Hle H. apply select_beam_size_Raise in H as [Hnone _].
  specialize (Hnone "2x12" ltac:(apply JOIST_SIZES_elem; tauto)).
  apply Qnot_le_lt in Hnone.
  destruct (Qlt_le_dec 10 joist_span_ft) as [Hgt|Hle10]; [exact Hgt|exfalso].
  unfold _get_joist_span_category in Hnone.
  destruct (Qle_bool joist_span_ft 6) eqn:H6.
  { assert (8 < beam_max_span "6" "2x12") by Qconst. lra. }
  destruct (Qle_bool joist_span_ft 8) eqn:H8.
  { assert (8 < beam_max_span "8" "2x12") by Qconst. lra. }
  destruct (Qle_bool joist_span_ft 10) eqn:H10.
  { assert (8 < beam_max_span "10" "2x12") by Qconst. lra. }
  apply not_true_iff_false in H10. rewrite Qle_bool_iff in H10. contradiction.
Qed.

(** C5. When the joist selector raises, [generate_structure] returns the
    structure with the selector's message as its only error, compliant set
    to false and nothing generated; when the beam selector raises, it
    returns the structure with the joist size and the joist note, the
    selector's message as its only error, compliant false and nothing
    generated.  No exception reaches the caller in either case.  When both
    selectors return, no span-exceeded message is among the errors.  With
    positive width, depth and soil bearing capacity every run returns a
    structure. *)
Theorem span_exceeded_is_collected (site_input : SiteInput.t) :
  let width := SiteInput.width_ft site_input in
  let joist_span_ft := joist_span_ft_of site_input in
  (∀ e, _select_joist_size joist_span_ft 16 = Raise e →
     ∃ m, e = ValueError m ∧
          generate_structure site_input = Return (halted site_input "" [] m)) ∧
  (∀ joist_size num_posts actual_beam_span e,
     _select_joist_size joist_span_ft 16 = Return joist_size →
     post_spacing width = Return (num_posts, actual_beam_span) →
     _select_beam_size actual_beam_span joist_span_ft = Raise e →
     ∃ m, e = ValueError m ∧
          generate_structure site_input =
          Return (halted site_input joist_size
                    [NoteJoists joist_size 16 joist_span_ft] m)) ∧
  (∀ joist_size notes m,
     let s := halted site_input joist_size notes m in
     DeckStructure.errors s = [m] ∧ DeckStructure.compliant s = false ∧
     DeckStructure.notes s = notes ∧ DeckStructure.joist_size s = joist_size ∧
     DeckStructure.beam_size s = "" ∧ DeckStructure.post_size s = "" ∧
     DeckStructure.footings s = [] ∧ DeckStructure.posts s = [] ∧
     DeckStructure.beams s = [] ∧ DeckStructure.joists s = [] ∧
     DeckStructure.ledger s = None ∧ DeckStructure.rim_joists s = []) ∧
  (∀ joist_size num_posts actual_beam_span beam_size beam_ply s,
     _select_joist_size joist_span_ft 16 = Return joist_size →
     post_spacing width = Return (num_posts, actual_beam_span) →
     _select_beam_size actual_beam_span joist_span_ft = Return (beam_size, beam_ply) →
     generate_structure site_input = Return s →
     ∀ m, m ∈ DeckStructure.errors s → is_span_exceeded m = false) ∧
  (0 < width → 0 < SiteInput.depth_ft site_input →
   (0 < SiteInput.soil_bearing_psf site_input)%Z →
   ∃ s, generate_structure site_input = Return s).
Proof.
  intros width joist_span_ft. split; [|split; [|split; [|split]]].
  - intros e He. pose proof (select_joist_size_Raise_span _ _ He) as Hspan.
    pose proof He as He'. apply select_joist_size_with_Raise in He' as [_ ->].
    eexists. split; [reflexivity|].
    apply generate_structure_with_joist_exceeded; [|exact He].
    apply cantilever_within_limit, joist_span_pos_depth_nonneg.
    subst joist_span_ft. lra.
  - intros js n span e Hj Hps He.
    destruct (post_spacing_bounds _ _ _ Hps) as (_ & _ & Hle & _).
    pose proof (select_beam_size_Raise_span _ _ _ Hle He) as Hspan.
    pose proof He as He'. apply select_beam_size_Raise in He' as [_ ->].
    destruct (JOIST_SIZES_lumber js) as (jl & Hjl & _);
      [by eapply select_joist_size_with_catalog|].
    eexists. split; [reflexivity|].
    eapply generate_structure_with_beam_exceeded; try eassumption.
    apply cantilever_within_limit, joist_span_pos_depth_nonneg.
    subst joist_span_ft. lra.
  - intros js notes m s. subst s. cbn. repeat split.
  - intros js n span bs ply s Hj Hps Hb Hs m Hm.
    apply generate_structure_with_outcome in Hs.
    destruct Hs as [Hgt|m' _ Hj'|js' jl n' span' m' _ _ _ Hps' Hb'|d _ _].
    + cbn in Hm. apply list_elem_of_singleton in Hm as ->. reflexivity.
    + unfold _select_joist_size in Hj. subst joist_span_ft. congruence.
    + subst width joist_span_ft. rewrite Hps in Hps'. injection Hps' as <- <-.
      congruence.
    + cbn in Hm. by apply elem_of_nil in Hm.
  - apply generate_structure_with_returns.
Qed.

(** Scenario 3 of the specification: depth 30, attached, joist span 28. *)
Lemma span_exceeded_is_collected_witness :
  ∃ m, _select_joist_size (joist_span_ft_of (SiteInput.default 16 30 3)) 16 =
         Raise (ValueError m) ∧
       generate_structure (SiteInput.default 16 30 3) =
         Return (halted (SiteInput.default 16 30 3) "" [] m).
Proof.
  assert (He : _select_joist_size (joist_span_ft_of (SiteInput.default 16 30 3)) 16 =
               Raise (ValueError
                        (MsgJoistSpanExceeded
                           (joist_span_ft_of (SiteInput.default 16 30 3)) 16 19.5)))
    by (vm_compute; reflexivity).
  destruct (proj1 (span_exceeded_is_collected (SiteInput.default 16 30 3)) _ He)
    as (m & Hm & Hret).
  exists m. injection Hm as <-. split; [exact He|exact Hret].
Defined.

(** ** The members of a complete structure *)

Lemma assembled_post (site_input : SiteInput.t) (d : Design) (p : Post.t) :
  p ∈ DeckStructure.posts (assembled site_input d) →
  Post.height_ft p =
    beam_bottom_z_of (SiteInput.height_ft site_input) (d_joist_lumber d)
      (d_beam_lumber d) ∧
  Post.lumber p = d_post_lumber d ∧
  Post.y_ft p ∈ beam_y_positions_of site_input.
Proof.
  unfold assembled. cbn [DeckStructure.posts]. intros H.
  apply list_elem_of_bind in H as (y & H & Hy).
  apply list_elem_of_fmap in H as (i & -> & _). done.
Qed.

Lemma assembled_footing (site_input : SiteInput.t) (d : Design) (f : Footing.t) :
  f ∈ DeckStructure.footings (assembled site_input d) →
  Footing.depth_in f = SiteInput.frost_depth_in site_input ∧
  Footing.diameter_in f = d_footing_diameter d.
Proof.
  unfold assembled. cbn [DeckStructure.footings]. intros H.
  apply list_elem_of_bind in H as (y & H & Hy).
  apply list_elem_of_fmap in H as (i & -> & _). done.
Qed.

Lemma assembled_beam (site_input : SiteInput.t) (d : Design) (b : Beam.t) :
  b ∈ DeckStructure.beams (assembled site_input d) →
  Beam.z_ft b =
    beam_bottom_z_of (SiteInput.height_ft site_input) (d_joist_lumber d)
      (d_beam_lumber d) ∧
  Beam.lumber b = d_beam_lumber d ∧ Beam.ply b = d_beam_ply d.
Proof.
  unfold assembled. cbn [DeckStructure.beams]. intros H.
  apply list_elem_of_fmap in H as (y & -> & _). done.
Qed.

Lemma assembled_joist (site_input : SiteInput.t) (d : Design) (j : Joist.t) :
  j ∈ DeckStructure.joists (assembled site_input d) →
  Joist.z_ft j = joist_bottom_z_of (SiteInput.height_ft site_input) (d_joist_lumber d) ∧
  Joist.lumber j = d_joist_lumber d.
Proof.
  unfold assembled. cbn [DeckStructure.joists]. intros H.
  apply list_elem_of_fmap in H as (i & -> & _). done.
Qed.

Lemma selects_lumber_heights (tbl : gmap (string * Z) Q) (site_input : SiteInput.t)
    (d : Design) :
  selects tbl site_input d →
  0 < LumberSpec.height_ft (d_joist_lumber d) ∧
  0 < LumberSpec.height_ft (d_beam_lumber d).
Proof.
  intros (Hj & Hjl & _ & Hb & Hbl & _).
  destruct (JOIST_SIZES_lumber (d_joist_size d)) as (jl & Hjl' & Hjpos);
    [by eapply select_joist_size_with_catalog|].
  destruct (JOIST_SIZES_lumber (d_beam_size d)) as (bl & Hbl' & Hbpos);
    [by eapply select_beam_size_catalog|].
  rewrite Hjl in Hjl'. rewrite Hbl in Hbl'.
  injection Hjl' as <-. injection Hbl' as <-. done.
Qed.

(** A compliant structure comes from a complete run. *)
Lemma compliant_complete (tbl : gmap (string * Z) Q) (site_input : SiteInput.t)
    (s : DeckStructure.t) :
  generate_structure_with tbl site_input = Return s →
  DeckStructure.compliant s = true →
  ∃ d, selects tbl site_input d ∧ s = assembled site_input d.
Proof.
  intros Hs Hcompl. apply generate_structure_with_outcome in Hs.
  destruct Hs as [?|? ? ?|? ? ? ? ? ? ? ? ? ?|d ? Hsel];
    try (cbn in Hcompl; discriminate).
  by exists d.
Qed.

(** Members are generated on a complete run only. *)
Lemma posts_complete (tbl : gmap (string * Z) Q) (site_input : SiteInput.t)
    (s : DeckStructure.t) (p : Post.t) :
  generate_structure_with tbl site_input = Return s →
  p ∈ DeckStructure.posts s →
  ∃ d, selects tbl site_input d ∧ s = assembled site_input d.
Proof.
  intros Hs Hp. apply generate_structure_with_outcome in Hs.
  destruct Hs as [?|? ? ?|? ? ? ? ? ? ? ? ? ?|d ? Hsel];
    try (cbn in Hp; by apply elem_of_nil in Hp).
  by exists d.
Qed.

(** ** Post height above the table *)

Lemma select_post_size_above_table (height_ft : Q) :
  (∀ size, size ∈ POST_SIZES → ¬ height_ft <= post_height_limit size) →
  _select_post_size height_ft = Return "6x6" ∧
  Qgt_bool height_ft (post_height_limit "6x6") = true.
Proof.
  intros Hnone. destruct post_height_limit_values as (L4 & L6 & L66).
  pose proof (Hnone "4x4" ltac:(apply POST_SIZES_elem; tauto)) as H4.
  pose proof (Hnone "4x6" ltac:(apply POST_SIZES_elem; tauto)) as H6.
  pose proof (Hnone "6x6" ltac:(apply POST_SIZES_elem; tauto)) as H66.
  rewrite L4 in H4. rewrite L6 in H6.
  rewrite select_post_size_eq.
  rewrite (proj2 (Qge_bool_false _ _) H4), (proj2 (Qge_bool_false _ _) H6).
  split; [reflexivity|]. apply Qgt_bool_true. by apply Qnot_le_lt.
Qed.

(** C7. The post selector walks 4x4, 4x6, 6x6 in this order and returns
    the first size whose height limit is at least the height, and 6x6 when
    none is; it never raises.  The errors of a returned structure are
    span-exceeded or cantilever-exceeded messages only.  When the height
    of a generated post is above every limit, the structure has post size
    6x6 and a verify-with-engineer note for that height, its errors are
    empty and compliant is still true. *)
Theorem post_height_is_advisory :
  POST_SIZES = ["4x4"; "4x6"; "6x6"] ∧
  (∀ height_ft, ∃ size,
     _select_post_size height_ft = Return size ∧
     (first_passing (fun s => height_ft <= post_height_limit s) POST_SIZES size ∨
      ((∀ s, s ∈ POST_SIZES → ¬ height_ft <= post_height_limit s) ∧ size = "6x6"))) ∧
  (∀ site_input s m,
     generate_structure site_input = Return s → m ∈ DeckStructure.errors s →
     is_span_exceeded m || is_cantilever_exceeded m = true) ∧
  (∀ site_input s p,
     generate_structure site_input = Return s →
     p ∈ DeckStructure.posts s →
     (∀ size, size ∈ POST_SIZES → ¬ Post.height_ft p <= post_height_limit size) →
     DeckStructure.post_size s = "6x6" ∧
     NotePostsVerify "6x6" (Post.height_ft p) ∈ DeckStructure.notes s ∧
     DeckStructure.errors s = [] ∧
     DeckStructure.compliant s = true).
Proof.
  split; [reflexivity|]. split; [apply select_post_size_first_fit|]. split.
  - intros site_input s m Hs Hm. apply generate_structure_with_outcome in Hs.
    destruct Hs as [Hgt|m' _ Hj|js jl n span m' _ _ _ _ Hb|d _ _].
    + cbn in Hm. apply list_elem_of_singleton in Hm as ->. reflexivity.
    + apply select_joist_size_with_Raise in Hj as [_ [= ->]].
      cbn in Hm. apply list_elem_of_singleton in Hm as ->. reflexivity.
    + apply select_beam_size_Raise in Hb as [_ [= ->]].
      cbn in Hm. apply list_elem_of_singleton in Hm as ->. reflexivity.
    + cbn in Hm. by apply elem_of_nil in Hm.
  - intros site_input s p Hs Hp Hnone.
    destruct (posts_complete _ _ _ _ Hs Hp) as (d & Hsel & ->).
    apply assembled_post in Hp as (Hh & _ & _). rewrite Hh in *.
    destruct (select_post_size_above_table _ Hnone) as [Hsize Hgt].
    destruct Hsel as (_ & _ & _ & _ & _ & Hps & _).
    rewrite Hsize in Hps. injection Hps as Hps.
    unfold assembled.
    cbn [DeckStructure.post_size DeckStructure.notes DeckStructure.errors
         DeckStructure.compliant].
    rewrite <- Hps, Hgt. split; [reflexivity|]. split; [|done].
    do 2 right. left.
Qed.

Lemma beam_y_positions_nonempty (site_input : SiteInput.t) :
  ∃ y, y ∈ beam_y_positions_of site_input.
Proof.
  unfold beam_y_positions_of. destruct (decide _); eexists; left.
Qed.

(** A complete structure has members of every kind. *)
Lemma assembled_members (site_input : SiteInput.t) (d : Design) :
  (0 < d_num_posts d)%Z → 0 <= SiteInput.width_ft site_input →
  ∃ j b p f,
    j ∈ DeckStructure.joists (assembled site_input d) ∧
    b ∈ DeckStructure.beams (assembled site_input d) ∧
    p ∈ DeckStructure.posts (assembled site_input d) ∧
    f ∈ DeckStructure.footings (assembled site_input d).
Proof.
  intros Hn Hw. destruct (beam_y_positions_nonempty site_input) as [y Hy].
  assert (H0 : 0%Z ∈ seqZ 0 (d_num_posts d)) by (apply elem_of_seqZ; lia).
  assert (Hfloor : (0 <= Qfloor (SiteInput.width_ft site_input / (inject_Z 16 / 12)))%Z).
  { change 0%Z with (Qfloor 0). apply Qfloor_resp_le.
    apply Qle_shift_div_l; [Qconst|]. lra. }
  unfold assembled.
  cbn [DeckStructure.joists DeckStructure.beams DeckStructure.posts
       DeckStructure.footings].
  eexists _, _, _, _. split; [|split; [|split]].
  - apply list_elem_of_fmap. exists 0%Z. split; [reflexivity|]. apply elem_of_seqZ. lia.
  - apply list_elem_of_fmap. exists y. split; [reflexivity|exact Hy].
  - apply list_elem_of_bind. exists y. split; [|exact Hy].
    apply list_elem_of_fmap. exists 0%Z. split; [reflexivity|exact H0].
  - apply list_elem_of_bind. exists y. split; [|exact Hy].
    apply list_elem_of_fmap. exists 0%Z. split; [reflexivity|exact H0].
Qed.

(** A complete run of the engine at an input whose selectors return. *)
Lemma generate_structure_complete_run (site_input : SiteInput.t)
    (joist_size : string) (num_posts : Z) (actual_beam_span : Q)
    (beam_size : string) (beam_ply : Z) :
  let joist_span_ft := joist_span_ft_of site_input in
  cantilever_ft_of site_input <= SiteInput.depth_ft site_input * MAX_CANTILEVER_RATIO →
  _select_joist_size joist_span_ft 16 = Return joist_size →
  post_spacing (SiteInput.width_ft site_input) = Return (num_posts, actual_beam_span) →
  _select_beam_size actual_beam_span joist_span_ft = Return (beam_size, beam_ply) →
  0 <= actual_beam_span * joist_span_ft →
  (0 < SiteInput.soil_bearing_psf site_input)%Z →
  ∃ d, generate_structure site_input = Return (assembled site_input d) ∧
       selects JOIST_SPANS site_input d ∧
       d_joist_size d = joist_size ∧ d_num_posts d = num_posts ∧
       d_actual_beam_span d = actual_beam_span ∧ d_beam_size d = beam_size ∧
       d_beam_ply d = beam_ply.
Proof.
  intros joist_span_ft Hc Hj Hps Hb Harea Hsoil.
  destruct (selects_exists JOIST_SPANS site_input _ _ _ _ _ Hj Hps Hb Harea Hsoil)
    as (d & Hsel & Hd).
  exists d. split; [|done]. by apply generate_structure_with_complete.
Qed.

(** A 16 by 12 ft attached deck 25 ft above grade: 2x8 joists, three posts
    per row 8 ft apart, a doubled 2x12 beam, posts above every limit. *)
Lemma run_16_12_25 :
  ∃ d, generate_structure (SiteInput.default 16 12 25) =
         Return (assembled (SiteInput.default 16 12 25) d) ∧
       selects JOIST_SPANS (SiteInput.default 16 12 25) d ∧
       d_joist_size d = "2x8" ∧ d_num_posts d = 3%Z ∧ d_beam_size d = "2x12".
Proof.
  destruct (generate_structure_complete_run (SiteInput.default 16 12 25)
              "2x8" 3 (16 / inject_Z 2) "2x12" 2) as (d & Hret & Hsel & Hd);
    [ Qconst | vm_compute; reflexivity | vm_compute; reflexivity
    | vm_compute; reflexivity | Qconst | reflexivity | ].
  exists d. destruct Hd as (? & ? & ? & ? & ?).
  split; [exact Hret|]. split; [exact Hsel|]. split; [assumption|].
  split; assumption.
Qed.

Lemma post_height_is_advisory_witness :
  ∃ s p,
    generate_structure (SiteInput.default 16 12 25) = Return s ∧
    p ∈ DeckStructure.posts s ∧
    (∀ size, size ∈ POST_SIZES → ¬ Post.height_ft p <= post_height_limit size) ∧
    DeckStructure.post_size s = "6x6" ∧
    NotePostsVerify "6x6" (Post.height_ft p) ∈ DeckStructure.notes s ∧
    DeckStructure.errors s = [] ∧ DeckStructure.compliant s = true.
Proof.
  destruct run_16_12_25 as (d & Hret & Hsel & Hjs & Hn & Hbs).
  destruct (assembled_members (SiteInput.default 16 12 25) d) as (_ & _ & p & _ & _ & _ & Hp & _);
    [lia|Qconst|].
  assert (Hnone : ∀ size, size ∈ POST_SIZES →
                          ¬ Post.height_ft p <= post_height_limit size).
  { destruct (assembled_post _ _ _ Hp) as (Hh & _). rewrite Hh.
    destruct Hsel as (_ & Hjl & _ & _ & Hbl & _). rewrite Hjs in Hjl. rewrite Hbs in Hbl.
    rewrite (proj1 (proj2 LUMBER_SPECS_values)) in Hjl.
    rewrite (proj2 (proj2 (proj2 LUMBER_SPECS_values))) in Hbl.
    injection Hjl as <-. injection Hbl as <-.
    intros size Hsize. apply POST_SIZES_elem in Hsize as [->|[->| ->]]; Qconst. }
  exists (assembled (SiteInput.default 16 12 25) d), p.
  split; [exact Hret|]. split; [exact Hp|]. split; [exact Hnone|].
  exact (proj2 (proj2 (proj2 post_height_is_advisory)) _ _ p Hret Hp Hnone).
Defined.

(** ** Attachment mode *)

(** C9. On a compliant structure: for a freestanding deck the cantilever
    is 0, the joist span is depth / 2, there are exactly two beam rows, at
    depth / 3 and 2·depth / 3, and no ledger; otherwise there is exactly one
    beam row, at depth − cantilever, and a ledger tagged with the attachment
    mode.  The ledger is present if and only if the mode is not
    freestanding. *)
Theorem attachment_mode_layout (site_input : SiteInput.t) (s : DeckStructure.t) :
  generate_structure site_input = Return s →
  DeckStructure.compliant s = true →
  let depth := SiteInput.depth_ft site_input in
  let attachment := SiteInput.ledger_attachment site_input in
  (∃ joist_size, NoteJoists joist_size 16 (joist_span_ft_of site_input)
                   ∈ DeckStructure.notes s) ∧
  (attachment = FREESTANDING →
     cantilever_ft_of site_input = 0.0 ∧
     joist_span_ft_of site_input = depth / 2 ∧
     Beam.y_ft <$> DeckStructure.beams s = [depth / 3; 2 * depth / 3] ∧
     DeckStructure.ledger s = None) ∧
  (attachment ≠ FREESTANDING →
     Beam.y_ft <$> DeckStructure.beams s = [depth - cantilever_ft_of site_input] ∧
     ∃ l, DeckStructure.ledger s = Some l ∧
          Ledger.attachment l = LedgerAttachment_value attachment) ∧
  (is_Some (DeckStructure.ledger s) ↔ attachment ≠ FREESTANDING).
Proof.
  intros Hs Hcompl depth attachment.
  destruct (compliant_complete _ _ _ Hs Hcompl) as (d & _ & ->).
  unfold assembled, beam_y_positions_of.
  cbn [DeckStructure.notes DeckStructure.beams DeckStructure.ledger].
  fold depth attachment.
  split; [eexists; left|].
  destruct (decide (attachment = FREESTANDING)) as [Hfs|Hfs].
  - split; [|split].
    + intros _. unfold cantilever_ft_of, joist_span_ft_of. fold attachment depth.
      rewrite Hfs. done.
    + intros Hne. contradiction.
    + split; [intros [l Hl]; discriminate|contradiction].
  - split; [|split].
    + intros Heq. contradiction.
    + intros _. split; [reflexivity|]. eexists. split; reflexivity.
    + split; [done|]. intros _. by eexists.
Qed.

(** Scenario 2 of the specification: 20 by 8 ft, freestanding. *)
Lemma run_20_8_freestanding :
  ∃ d, generate_structure freestanding_20_8 = Return (assembled freestanding_20_8 d) ∧
       d_joist_size d = "2x6".
Proof.
  destruct (generate_structure_complete_run freestanding_20_8
              "2x6" 4 (20 / inject_Z 3) "2x8" 2) as (d & Hret & Hsel & Hd);
    [ Qconst | vm_compute; reflexivity | vm_compute; reflexivity
    | vm_compute; reflexivity | Qconst | reflexivity | ].
  exists d. destruct Hd as (? & _). split; [exact Hret|assumption].
Qed.

Lemma attachment_mode_layout_witness :
  ∃ s, generate_structure freestanding_20_8 = Return s ∧
       DeckStructure.compliant s = true ∧
       Beam.y_ft <$> DeckStructure.beams s = [8 / 3; 2 * 8 / 3] ∧
       DeckStructure.ledger s = None ∧
       DeckStructure.joist_size s = "2x6".
Proof.
  destruct run_20_8_freestanding as (d & Hret & Hjs).
  exists (assembled freestanding_20_8 d).
  assert (Hcompl : DeckStructure.compliant (assembled freestanding_20_8 d) = true)
    by reflexivity.
  split; [exact Hret|]. split; [exact Hcompl|].
  destruct (attachment_mode_layout freestanding_20_8 _ Hret Hcompl) as (_ & Hfree & _).
  destruct (Hfree eq_refl) as (_ & _ & Hbeams & Hledger).
  split; [exact Hbeams|]. split; [exact Hledger|exact Hjs].
Defined.

(** ** Joist spacing *)

Lemma select_joist_size_with_ext (t1 t2 : gmap (string * Z) Q) (span_ft : Q)
    (spacing_in : Z) :
  (∀ size, t1 !! (size, spacing_in) = t2 !! (size, spacing_in)) →
  _select_joist_size_with t1 span_ft spacing_in =
  _select_joist_size_with t2 span_ft spacing_in.
Proof.
  intros Hcol. unfold _select_joist_size_with, dict_get, JOIST_SIZES, find.
  by rewrite !Hcol.
Qed.

Lemma generate_structure_with_ext (t1 t2 : gmap (string * Z) Q)
    (site_input : SiteInput.t) :
  (∀ size, t1 !! (size, 16%Z) = t2 !! (size, 16%Z)) →
  generate_structure_with t1 site_input = generate_structure_with t2 site_input.
Proof.
  intros Hcol. unfold generate_structure_with.
  destruct (span_policy _ _) as [[c jspan] bc]. cbv beta iota zeta.
  by rewrite (select_joist_size_with_ext t1 t2 jspan 16 Hcol).
Qed.

(** C10. Every structure [generate_structure] returns has joist spacing
    16, and its joist note names 16; the result does not depend on any
    entry of the joist span table outside the 16 inch column, whatever the
    input. *)
Theorem joist_spacing_is_16 :
  (∀ site_input s,
     generate_structure site_input = Return s →
     DeckStructure.joist_spacing_in s = 16%Z ∧
     ∀ joist_size spacing_in span_ft,
       NoteJoists joist_size spacing_in span_ft ∈ DeckStructure.notes s →
       spacing_in = 16%Z) ∧
  (∀ tbl : gmap (string * Z) Q,
     (∀ size, tbl !! (size, 16%Z) = JOIST_SPANS !! (size, 16%Z)) →
     ∀ site_input,
       generate_structure_with tbl site_input = generate_structure site_input).
Proof.
  split.
  - intros site_input s Hs. apply generate_structure_with_outcome in Hs.
    destruct Hs as [Hgt|m' _ Hj|js jl n span m' _ _ _ _ Hb|d _ _].
    + split; [reflexivity|]. intros js sp span Hin. cbn in Hin.
      by apply elem_of_nil in Hin.
    + split; [reflexivity|]. intros js sp span Hin. cbn in Hin.
      by apply elem_of_nil in Hin.
    + split; [reflexivity|]. intros js' sp span' Hin. cbn in Hin.
      apply list_elem_of_singleton in Hin. by injection Hin as _ -> _.
    + split; [reflexivity|]. intros js sp span Hin. unfold assembled in Hin.
      cbn [DeckStructure.notes] in Hin. rewrite !elem_of_cons, elem_of_nil in Hin.
      destruct Hin as [Hin|[Hin|[Hin|[Hin|[Hin|[]]]]]]; try discriminate.
      * by injection Hin as _ -> _.
      * by destruct (Qgt_bool _ _).
  - intros tbl Hcol site_input. by apply generate_structure_with_ext.
Qed.

Lemma joist_spacing_is_16_witness :
  JOIST_SPANS_other_columns !! ("2x6", 12%Z) ≠ JOIST_SPANS !! ("2x6", 12%Z) ∧
  JOIST_SPANS_other_columns !! ("2x12", 24%Z) = None ∧
  generate_structure_with JOIST_SPANS_other_columns (SiteInput.default 16 12 3) =
  generate_structure (SiteInput.default 16 12 3).
Proof.
  split; [vm_compute; discriminate|]. split; [vm_compute; reflexivity|].
  apply (proj2 joist_spacing_is_16). intros size. unfold JOIST_SPANS_other_columns.
  rewrite lookup_insert_ne by congruence. by rewrite lookup_delete_ne by congruence.
Defined.

(** ** Elevations *)

(** The stack of lines 190-218 between four selected heights. *)
Lemma elevation_stack (height : Q) (joist_lumber beam_lumber : LumberSpec.t) :
  0 < LumberSpec.height_ft joist_lumber → 0 < LumberSpec.height_ft beam_lumber →
  joist_top_z_of height <= height ∧
  joist_bottom_z_of height joist_lumber < joist_top_z_of height ∧
  beam_bottom_z_of height joist_lumber beam_lumber <
    joist_bottom_z_of height joist_lumber ∧
  (0 < beam_bottom_z_of height joist_lumber beam_lumber ↔
   1.0 / 12 + LumberSpec.height_ft joist_lumber + LumberSpec.height_ft beam_lumber
     < height).
Proof.
  intros Hj Hb. unfold beam_bottom_z_of, joist_bottom_z_of, joist_top_z_of.
  assert (Hdeck : 1.0 / 12 == 1 # 12) by reflexivity. rewrite !Hdeck.
  repeat split; intros; lra.
Qed.

(** C1, as the code has it, with the float arithmetic read as exact
    rational arithmetic.  On every compliant structure, for each joist,
    beam, post and footing in it: the decking surface (height) is at or
    above the joist top, which is 1/12 ft below it; the joist top is above
    the joist bottom; the joist bottom is the beam top; the beam top is
    above the beam bottom; the beam bottom is the post top.  So the post top
    is height − 1/12 − joist depth − beam depth, and nothing compares it
    with grade: in exact arithmetic it is above grade exactly when the
    height exceeds the decking thickness plus the joist and beam depths (in
    binary64 the comparison can come out differently when the height is
    within rounding error of that sum), and the footing bottom is below
    grade exactly when the frost depth is positive. *)
Theorem elevation_order (site_input : SiteInput.t) (s : DeckStructure.t) :
  generate_structure site_input = Return s →
  DeckStructure.compliant s = true →
  ∀ j b p f,
    j ∈ DeckStructure.joists s → b ∈ DeckStructure.beams s →
    p ∈ DeckStructure.posts s → f ∈ DeckStructure.footings s →
    let height := SiteInput.height_ft site_input in
    let joist_top := joist_top_z_of height in
    let joist_bottom := Joist.z_ft j in
    let beam_top := Beam.z_ft b + LumberSpec.height_ft (Beam.lumber b) in
    let beam_bottom := Beam.z_ft b in
    let post_top := Post.height_ft p in
    let footing_bottom := - inject_Z (Footing.depth_in f) / 12 in
    joist_bottom = joist_top - LumberSpec.height_ft (Joist.lumber j) ∧
    beam_bottom = joist_bottom - LumberSpec.height_ft (Beam.lumber b) ∧
    joist_top <= height ∧
    joist_bottom < joist_top ∧
    joist_bottom == beam_top ∧
    beam_bottom < beam_top ∧
    beam_bottom = post_top ∧
    (0 < post_top ↔
     1.0 / 12 + LumberSpec.height_ft (Joist.lumber j)
       + LumberSpec.height_ft (Beam.lumber b) < height) ∧
    (footing_bottom < 0 ↔ (0 < SiteInput.frost_depth_in site_input)%Z).
Proof.
  intros Hs Hcompl j b p f Hj Hb Hp Hf.
  destruct (compliant_complete _ _ _ Hs Hcompl) as (d & Hsel & ->).
  apply assembled_joist in Hj as (Hjz & Hjl).
  apply assembled_beam in Hb as (Hbz & Hbl & _).
  apply assembled_post in Hp as (Hpz & _).
  apply assembled_footing in Hf as (Hfd & _).
  destruct (selects_lumber_heights _ _ _ Hsel) as (Hjpos & Hbpos).
  destruct (elevation_stack (SiteInput.height_ft site_input) _ _ Hjpos Hbpos)
    as (Htop & Hjb & Hbb & Hpost).
  cbv zeta. rewrite Hjz, Hbz, Hpz, Hjl, Hbl, Hfd.
  split; [reflexivity|]. split; [reflexivity|]. split; [exact Htop|].
  split; [exact Hjb|]. split; [unfold beam_bottom_z_of; ring|].
  split; [lra|]. split; [reflexivity|]. split; [exact Hpost|].
  assert (Hfoot : - inject_Z (SiteInput.frost_depth_in site_input) / 12
                  == - inject_Z (SiteInput.frost_depth_in site_input) * (1 # 12))
    by reflexivity.
  rewrite Hfoot. split.
  - intros H. rewrite Zlt_Qlt. change (inject_Z 0) with 0. lra.
  - intros H. rewrite Zlt_Qlt in H. change (inject_Z 0) with 0 in H. lra.
Qed.

(** Scenario 1 of the specification: 16 by 12 ft, 3 ft high, attached. *)
Lemma run_16_12_3 :
  ∃ d, generate_structure (SiteInput.default 16 12 3) =
         Return (assembled (SiteInput.default 16 12 3) d) ∧
       d_joist_size d = "2x8" ∧ d_num_posts d = 3%Z.
Proof.
  destruct (generate_structure_complete_run (SiteInput.default 16 12 3)
              "2x8" 3 (16 / inject_Z 2) "2x12" 2) as (d & Hret & Hsel & Hd);
    [ Qconst | vm_compute; reflexivity | vm_compute; reflexivity
    | vm_compute; reflexivity | Qconst | reflexivity | ].
  exists d. destruct Hd as (? & ? & _).
  split; [exact Hret|]. split; assumption.
Qed.

Lemma elevation_order_witness :
  ∃ s j b p f,
    generate_structure (SiteInput.default 16 12 3) = Return s ∧
    DeckStructure.compliant s = true ∧ DeckStructure.joist_size s = "2x8" ∧
    Joist.z_ft j < joist_top_z_of 3 ∧
    Joist.z_ft j == Beam.z_ft b + LumberSpec.height_ft (Beam.lumber b) ∧
    Beam.z_ft b = Post.height_ft p ∧
    (- inject_Z (Footing.depth_in f) / 12 < 0 ↔ (0 < 18)%Z).
Proof.
  destruct run_16_12_3 as (d & Hret & Hjs & Hn).
  destruct (assembled_members (SiteInput.default 16 12 3) d)
    as (j & b & p & f & Hj & Hb & Hp & Hf); [lia|Qconst|].
  assert (Hcompl : DeckStructure.compliant (assembled (SiteInput.default 16 12 3) d) = true)
    by reflexivity.
  exists (assembled (SiteInput.default 16 12 3) d), j, b, p, f.
  destruct (elevation_order _ _ Hret Hcompl j b p f Hj Hb Hp Hf)
    as (_ & _ & _ & H1 & H2 & _ & H3 & _ & H4).
  split; [exact Hret|]. split; [exact Hcompl|]. split; [exact Hjs|].
  split; [exact H1|]. split; [exact H2|]. split; [exact H3|exact H4].
Defined.

(** A 10 by 10 ft attached deck half a foot above grade: 2x6 joists on a
    doubled 2x8 beam are deeper than the deck is high. *)
Lemma run_10_10_half :
  ∃ d, generate_structure (SiteInput.default 10 10 0.5) =
         Return (assembled (SiteInput.default 10 10 0.5) d) ∧
       selects JOIST_SPANS (SiteInput.default 10 10 0.5) d ∧
       d_joist_size d = "2x6" ∧ d_num_posts d = 3%Z ∧ d_beam_size d = "2x8".
Proof.
  destruct (generate_structure_complete_run (SiteInput.default 10 10 0.5)
              "2x6" 3 (10 / inject_Z 2) "2x8" 2) as (d & Hret & Hsel & Hd);
    [ Qconst | vm_compute; reflexivity | vm_compute; reflexivity
    | vm_compute; reflexivity | Qconst | reflexivity | ].
  exists d. destruct Hd as (? & ? & ? & ? & ?).
  split; [exact Hret|]. split; [exact Hsel|]. split; [assumption|].
  split; assumption.
Qed.

(** C1 as stated fails: width, depth and height are positive, the
    structure is compliant, and its posts end below grade. *)
Lemma elevation_order_counterexample :
  0 < SiteInput.width_ft (SiteInput.default 10 10 0.5) ∧
  0 < SiteInput.depth_ft (SiteInput.default 10 10 0.5) ∧
  0 < SiteInput.height_ft (SiteInput.default 10 10 0.5) ∧
  ∃ s p,
    generate_structure (SiteInput.default 10 10 0.5) = Return s ∧
    DeckStructure.compliant s = true ∧
    p ∈ DeckStructure.posts s ∧
    ¬ 0 < Post.height_ft p.
Proof.
  split; [reflexivity|]. split; [reflexivity|]. split; [reflexivity|].
  destruct run_10_10_half as (d & Hret & Hsel & Hjs & Hn & Hbs).
  destruct (assembled_members (SiteInput.default 10 10 0.5) d)
    as (_ & _ & p & _ & _ & _ & Hp & _); [lia|Qconst|].
  exists (assembled (SiteInput.default 10 10 0.5) d), p.
  split; [exact Hret|]. split; [reflexivity|]. split; [exact Hp|].
  destruct (assembled_post _ _ _ Hp) as (Hh & _). rewrite Hh.
  destruct Hsel as (_ & Hjl & _ & _ & Hbl & _). rewrite Hjs in Hjl. rewrite Hbs in Hbl.
  rewrite (proj1 LUMBER_SPECS_values) in Hjl.
  rewrite (proj1 (proj2 LUMBER_SPECS_values)) in Hbl.
  injection Hjl as <-. injection Hbl as <-. Qconst.
Qed.

(** The boundary of the equivalence in C1 is a boundary of the exact
    arithmetic.  With 2x8 joists (7.25 in) on a 2x12 beam (11.25 in) the
    stack is 1/12 + 7.25/12 + 11.25/12 = 1.625 ft: at height 1.625 the exact
    post height is 0, and the binary64 post height is 2^-53, above 0. *)
Lemma post_height_boundary :
  beam_bottom_z_of 1.625 (LumberSpec.mk "2x8" 1.5 7.25) (LumberSpec.mk "2x12" 1.5 11.25)
    == 0 ∧
  post_height_binary64 1.625 7.25 11.25 = 0x1p-53%float ∧
  (0 <? post_height_binary64 1.625 7.25 11.25)%float = true.
Proof.
  split; [Qconst|]. split; vm_compute; reflexivity.
Qed.

(** ** services/pricing.py: the quote *)

Ltac eval_getitem :=
  repeat match goal with
  | |- context [getitem ?d ?k] =>
      let r := eval vm_compute in (getitem d k) in
      replace (getitem d k) with r by (vm_compute; reflexivity)
  end.

Lemma get_decking_price_Return (t : DeckingType) :
  _get_decking_price t = Return (decking_price_of t).
Proof. unfold _get_decking_price. eval_getitem. by destruct t. Qed.

Lemma get_railing_price_Return (t : RailingType) :
  _get_railing_price t = Return (railing_price_of t).
Proof. unfold _get_railing_price. eval_getitem. by destruct t. Qed.

Lemma one_minus_MARGIN_nonzero : ¬ 1 - MARGIN == 0.
Proof. Qconst. Qed.

(** [calculate_quote] up to its last division. *)
Lemma calculate_quote_eq (s : DeckStructure.t) :
  calculate_quote s =
  price_per_sqft ← truediv (Quote.total (priced s)) (sqft_of s);
  Return (Quote.mk (Quote.line_items (priced s)) (Quote.materials_subtotal (priced s))
            (Quote.labor_subtotal (priced s)) (Quote.permit_fees (priced s))
            (Quote.subtotal (priced s)) (Quote.margin_amount (priced s))
            (Quote.total (priced s)) (Quote.deck_sqft (priced s)) price_per_sqft).
Proof.
  unfold calculate_quote. rewrite get_decking_price_Return, get_railing_price_Return.
  eval_getitem. cbn [mbind result_bind]. cbv beta iota zeta.
  assert (Hrate :
    (if bool_decide (SiteInput.decking_type (DeckStructure.input s)
                     ∈ [COMPOSITE_TREX; COMPOSITE_TIMBERTECH])
     then Return 9.00 else Return 7.00)
    = Return (decking_rate_of (SiteInput.decking_type (DeckStructure.input s)))).
  { by destruct (SiteInput.decking_type (DeckStructure.input s)). }
  rewrite Hrate. cbn [mbind result_bind].
  unfold priced, permits_line, work_lines.
  fold (has_railing s) (has_stairs s).
  destruct (has_railing s); destruct (has_stairs s); cbn [mbind result_bind];
    rewrite (truediv_Return _ _ one_minus_MARGIN_nonzero); reflexivity.
Qed.

(** ** Selection is monotone *)

(** When every size that passes [pb] also passes [pa], the first size
    passing [pa] comes no later than the first size passing [pb]. *)
Lemma find_earlier {A : Type} (pa pb : A → bool) (l : list A) (j : nat) (y : A) :
  (∀ x, x ∈ l → pb x = true → pa x = true) →
  l !! j = Some y → pb y = true →
  ∃ (i : nat) (x : A), find pa l = Some x ∧ l !! i = Some x ∧ (i <= j)%nat.
Proof.
  intros Himp Hj Hy.
  assert (Hin : y ∈ l) by (by eapply list_elem_of_lookup_2).
  destruct (find pa l) as [x|] eqn:Hfind.
  - pose proof Hfind as Hfirst. apply find_Some_first in Hfirst as (i & Hi & _ & Hmin).
    exists i, x. split; [reflexivity|]. split; [exact Hi|].
    destruct (Nat.le_gt_cases i j) as [Hle|Hgt]; [exact Hle|].
    specialize (Hmin j y Hgt Hj). rewrite (Himp y Hin Hy) in Hmin. discriminate.
  - pose proof (proj1 (find_None_all _ _) Hfind y Hin) as Hnone.
    rewrite (Himp y Hin Hy) in Hnone. discriminate.
Qed.

(** X1. For a fixed spacing, a shorter span never gets a larger joist: where
    the selector returns for a span, it returns for every shorter span, and
    with a size that stands no later in the catalog.  This holds for every
    spacing, tabulated or not. *)
Theorem joist_selector_monotone (span_a span_b : Q) (spacing_in : Z)
    (size_b : string) (j : nat) :
  span_a <= span_b →
  _select_joist_size span_b spacing_in = Return size_b →
  JOIST_SIZES !! j = Some size_b →
  ∃ (size_a : string) (i : nat),
    _select_joist_size span_a spacing_in = Return size_a ∧
    JOIST_SIZES !! i = Some size_a ∧ (i <= j)%nat.
Proof.
  intros Hle Hb Hj. unfold _select_joist_size, _select_joist_size_with in *.
  destruct (find _ JOIST_SIZES) as [found|] eqn:Hfind in Hb; [|discriminate].
  injection Hb as ->. apply find_some in Hfind as [_ Hpass].
  edestruct (find_earlier
               (fun size => Qge_bool (dict_get JOIST_SPANS (size, spacing_in) 0) span_a)
               (fun size => Qge_bool (dict_get JOIST_SPANS (size, spacing_in) 0) span_b)
               JOIST_SIZES j size_b) as (i & x & Hfa & Hi & Hij); [|exact Hj|exact Hpass|].
  - intros x _ Hx. apply Qge_bool_true in Hx. apply Qge_bool_true. lra.
  - exists x, i. rewrite Hfa. done.
Qed.

Lemma joist_selector_monotone_witness :
  ∃ (size_a : string) (i : nat),
    _select_joist_size 9 16 = Return size_a ∧
    JOIST_SIZES !! i = Some size_a ∧ (i <= 1)%nat.
Proof.
  apply (joist_selector_monotone 9 10 16 "2x8" 1);
    [Qconst | vm_compute; reflexivity | reflexivity].
Defined.

(** The beam table falls with the joist span category. *)
Lemma beam_max_span_antitone (joist_a joist_b : Q) (size : string) :
  joist_a <= joist_b → size ∈ JOIST_SIZES →
  beam_max_span (_get_joist_span_category joist_b) size <=
  beam_max_span (_get_joist_span_category joist_a) size.
Proof.
  intros Hle Hsize. unfold _get_joist_span_category.
  destruct (Qle_bool joist_a 6) eqn:Ha6; destruct (Qle_bool joist_a 8) eqn:Ha8;
  destruct (Qle_bool joist_a 10) eqn:Ha10;
  destruct (Qle_bool joist_b 6) eqn:Hb6; destruct (Qle_bool joist_b 8) eqn:Hb8;
  destruct (Qle_bool joist_b 10) eqn:Hb10;
  repeat match goal with
  | H : Qle_bool _ _ = true |- _ => apply Qle_bool_iff in H
  | H : Qle_bool _ _ = false |- _ =>
      apply not_true_iff_false in H; rewrite Qle_bool_iff in H
  end;
  try (exfalso; lra);
  apply JOIST_SIZES_elem in Hsize as [->|[->|[->| ->]]]; Qconst.
Qed.

(** X2. A shorter beam span under a shorter joist span never gets a larger
    beam: where the selector returns, it returns for every pair of spans
    that are no longer, with a size no later in the catalog. *)
Theorem beam_selector_monotone (beam_a beam_b joist_a joist_b : Q)
    (size_b : string) (ply_b : Z) (j : nat) :
  beam_a <= beam_b → joist_a <= joist_b →
  _select_beam_size beam_b joist_b = Return (size_b, ply_b) →
  JOIST_SIZES !! j = Some size_b →
  ∃ (size_a : string) (i : nat),
    _select_beam_size beam_a joist_a = Return (size_a, 2%Z) ∧
    JOIST_SIZES !! i = Some size_a ∧ (i <= j)%nat.
Proof.
  intros Hbeam Hjoist Hb Hj. unfold _select_beam_size in *.
  destruct (find _ JOIST_SIZES) as [found|] eqn:Hfind in Hb; [|discriminate].
  injection Hb as -> _. apply find_some in Hfind as [_ Hpass].
  edestruct (find_earlier
               (fun size => Qge_bool (dict_get BEAM_SPANS
                  ("2-" +:+ size, _get_joist_span_category joist_a) 0) beam_a)
               (fun size => Qge_bool (dict_get BEAM_SPANS
                  ("2-" +:+ size, _get_joist_span_category joist_b) 0) beam_b)
               JOIST_SIZES j size_b) as (i & x & Hfa & Hi & Hij); [|exact Hj|exact Hpass|].
  - intros x Hx Hpb. apply Qge_bool_true in Hpb. apply Qge_bool_true.
    pose proof (beam_max_span_antitone joist_a joist_b x Hjoist Hx) as Hanti.
    unfold beam_max_span in Hanti. lra.
  - exists x, i. cbv zeta. rewrite Hfa. done.
Qed.

Lemma beam_selector_monotone_witness :
  ∃ (size_a : string) (i : nat),
    _select_beam_size 5 8 = Return (size_a, 2%Z) ∧
    JOIST_SIZES !! i = Some size_a ∧ (i <= 3)%nat.
Proof.
  apply (beam_selector_monotone 5 8 8 10 "2x12" 2 3);
    [Qconst | Qconst | vm_compute; reflexivity | reflexivity].
Defined.

(** X3. On the same soil a larger tributary area never gets a smaller
    footing. *)
Theorem footing_diameter_monotone (area_a area_b : Q) (soil_bearing_psf : Z)
    (size_a size_b : Z) :
  0 <= area_a → area_a <= area_b → (0 < soil_bearing_psf)%Z →
  _calculate_footing_diameter area_a soil_bearing_psf = Return size_a →
  _calculate_footing_diameter area_b soil_bearing_psf = Return size_b →
  (size_a <= size_b)%Z.
Proof.
  intros Ha Hab Hsoil Hsa Hsb.
  destruct (calculate_footing_diameter_round_up area_a soil_bearing_psf Ha Hsoil)
    as (sa & Hsa' & Hina & Hlea & Hgta).
  destruct (calculate_footing_diameter_round_up area_b soil_bearing_psf
              ltac:(lra) Hsoil) as (sb & Hsb' & Hinb & Hleb & Hgtb).
  rewrite Hsa in Hsa'. rewrite Hsb in Hsb'.
  injection Hsa' as <-. injection Hsb' as <-. cbv zeta in *.
  set (da := diameter_of_area (required_area_sqin_of area_a soil_bearing_psf)) in *.
  set (db := diameter_of_area (required_area_sqin_of area_b soil_bearing_psf)) in *.
  assert (Hd : (da <= db)%R).
  { subst da db. unfold diameter_of_area.
    assert (Hq : required_area_sqin_of area_a soil_bearing_psf <=
                 required_area_sqin_of area_b soil_bearing_psf).
    { unfold required_area_sqin_of.
      assert (Hpos : 0 < inject_Z soil_bearing_psf) by (by apply inject_Z_pos).
      assert (Hdiv : area_a * TOTAL_LOAD_PSF / inject_Z soil_bearing_psf <=
                     area_b * TOTAL_LOAD_PSF / inject_Z soil_bearing_psf).
      { apply Qle_shift_div_l; [exact Hpos|].
        assert (Heq : area_a * TOTAL_LOAD_PSF / inject_Z soil_bearing_psf
                      * inject_Z soil_bearing_psf == area_a * TOTAL_LOAD_PSF).
        { rewrite Qmult_comm. apply Qmult_div_r. lra. }
        rewrite Heq. unfold TOTAL_LOAD_PSF, DEAD_LOAD_PSF, LIVE_LOAD_PSF. lra. }
      lra. }
    apply Qle_Rle in Hq. pose proof PI_RGT_0 as Hpi.
    assert (Hx : (Q2R (required_area_sqin_of area_a soil_bearing_psf) / PI <=
                  Q2R (required_area_sqin_of area_b soil_bearing_psf) / PI)%R).
    { apply Rmult_le_compat_r; [|exact Hq]. left. by apply Rinv_0_lt_compat. }
    apply sqrt_le_1_alt in Hx. lra. }
  apply STANDARD_SIZES_elem in Hina. apply STANDARD_SIZES_elem in Hinb.
  destruct (Rle_lt_dec db 24) as [Hb24|Hb24].
  - destruct (Hleb Hb24) as [Hdb _].
    assert (Ha24 : (da <= 24)%R) by lra.
    destruct (Hlea Ha24) as [_ Hmin]. apply Hmin; [by apply STANDARD_SIZES_elem|lra].
  - rewrite (Hgtb Hb24). lia.
Qed.

Lemma footing_80_1500 : _calculate_footing_diameter 80 1500 = Return 24%Z.
Proof.
  destruct (calculate_footing_diameter_round_up 80 1500)
    as (size & Hret & Hin & Hle & _); [Qconst|reflexivity|].
  rewrite Hret. f_equal. cbv zeta in Hle.
  assert (Hd : (20 < diameter_of_area (required_area_sqin_of 80 1500) <= 24)%R).
  { pose proof PI_gt_3. pose proof PI_4. split.
    - apply diameter_of_area_gt; [lra|]. rewrite required_area_80_1500. lra.
    - apply diameter_of_area_le; [lra|]. rewrite required_area_80_1500. lra. }
  destruct (Hle (proj2 Hd)) as [Hsize _]. apply STANDARD_SIZES_elem in Hin.
  destruct Hin as [->|[->|[->|[->|[->| ->]]]]]; first [reflexivity | exfalso; lra].
Qed.

Lemma footing_diameter_monotone_witness :
  ∃ size_a, _calculate_footing_diameter 40 1500 = Return size_a ∧ (size_a <= 24)%Z.
Proof.
  destruct (calculate_footing_diameter_round_up 40 1500) as (sa & Hsa & _);
    [Qconst|reflexivity|].
  exists sa. split; [exact Hsa|].
  apply (footing_diameter_monotone 40 80 1500 sa 24);
    [Qconst | Qconst | reflexivity | exact Hsa |].
  exact footing_80_1500.
Defined.

(** ** Compliance, errors and exceptions *)

Lemma outcome_halted_or_complete (tbl : gmap (string * Z) Q) (site_input : SiteInput.t)
    (s : DeckStructure.t) :
  outcome tbl site_input s →
  (∃ joist_size notes m,
     s = halted site_input joist_size notes m ∧
     is_span_exceeded m || is_cantilever_exceeded m = true) ∨
  (∃ d, selects tbl site_input d ∧ s = assembled site_input d).
Proof.
  intros [Hgt|m _ Hj|js jl n span m _ _ _ _ Hb|d _ Hsel].
  - left. by eexists _, _, _.
  - left. apply select_joist_size_with_Raise in Hj as [_ [= ->]]. by eexists _, _, _.
  - left. apply select_beam_size_Raise in Hb as [_ [= ->]]. by eexists _, _, _.
  - right. by exists d.
Qed.

Lemma selects_num_posts (tbl : gmap (string * Z) Q) (site_input : SiteInput.t)
    (d : Design) :
  selects tbl site_input d → (2 <= d_num_posts d)%Z.
Proof.
  intros (_ & _ & Hps & _).
  destruct (post_spacing_Return (SiteInput.width_ft site_input)) as [Hret Hn].
  rewrite Hret in Hps. injection Hps as <- _. exact Hn.
Qed.

(** X4. The compliance flag and the errors go together: a returned structure
    is compliant exactly when its errors are empty.  A non-compliant one
    has exactly one error, a span-exceeded or cantilever-exceeded message,
    and no geometry at all; a compliant one has five notes, three rim
    joists and at least one footing, post and beam. *)
Theorem compliant_iff_no_errors (site_input : SiteInput.t) (s : DeckStructure.t) :
  generate_structure site_input = Return s →
  (DeckStructure.compliant s = true ↔ DeckStructure.errors s = []) ∧
  (DeckStructure.compliant s = false →
     (∃ m, DeckStructure.errors s = [m] ∧
           is_span_exceeded m || is_cantilever_exceeded m = true) ∧
     DeckStructure.footings s = [] ∧ DeckStructure.posts s = [] ∧
     DeckStructure.beams s = [] ∧ DeckStructure.joists s = [] ∧
     DeckStructure.ledger s = None ∧ DeckStructure.rim_joists s = [] ∧
     DeckStructure.beam_size s = "" ∧ DeckStructure.post_size s = "" ∧
     (length (DeckStructure.notes s) <= 1)%nat) ∧
  (DeckStructure.compliant s = true →
     length (DeckStructure.notes s) = 5%nat ∧
     length (DeckStructure.rim_joists s) = 3%nat ∧
     DeckStructure.footings s ≠ [] ∧ DeckStructure.posts s ≠ [] ∧
     DeckStructure.beams s ≠ []).
Proof.
  intros Hs. apply generate_structure_with_outcome in Hs.
  pose proof Hs as Hout. apply outcome_halted_or_complete in Hout.
  destruct Hout as [(js & notes & m & -> & Hm)|(d & Hsel & ->)].
  - split; [cbn; split; discriminate|]. split; [|cbn; discriminate].
    intros _. split; [by exists m|]. cbn. repeat split; try reflexivity.
    inversion Hs; cbn; lia.
  - split; [cbn; done|]. split; [cbn; discriminate|]. intros _.
    split; [reflexivity|]. split; [reflexivity|].
    pose proof (selects_num_posts _ _ _ Hsel) as Hn.
    destruct (beam_y_positions_nonempty site_input) as [y Hy].
    assert (H0 : 0%Z ∈ seqZ 0 (d_num_posts d)) by (apply elem_of_seqZ; lia).
    unfold assembled.
    cbn [DeckStructure.footings DeckStructure.posts DeckStructure.beams].
    split; [|split].
    + intros Hnil. eapply elem_of_nil. rewrite <- Hnil.
      apply list_elem_of_bind. exists y. split; [|exact Hy].
      apply list_elem_of_fmap. by exists 0%Z.
    + intros Hnil. eapply elem_of_nil. rewrite <- Hnil.
      apply list_elem_of_bind. exists y. split; [|exact Hy].
      apply list_elem_of_fmap. by exists 0%Z.
    + intros Hnil. eapply elem_of_nil. rewrite <- Hnil.
      apply list_elem_of_fmap. by exists y.
Qed.

Lemma run_16_30_3 :
  ∃ m, generate_structure (SiteInput.default 16 30 3) =
       Return (halted (SiteInput.default 16 30 3) "" [] m).
Proof.
  eexists. apply generate_structure_with_joist_exceeded; [Qconst|].
  vm_compute. reflexivity.
Qed.

Lemma compliant_iff_no_errors_witness :
  ∃ s, generate_structure (SiteInput.default 16 30 3) = Return s ∧
       DeckStructure.compliant s = false ∧ length (DeckStructure.errors s) = 1%nat ∧
       DeckStructure.posts s = [].
Proof.
  destruct run_16_30_3 as [m Hret]. eexists. split; [exact Hret|].
  split; [reflexivity|].
  destruct (compliant_iff_no_errors _ _ Hret) as (_ & Hhalt & _).
  destruct (Hhalt eq_refl) as ((m' & Herr & _) & _ & Hposts & _).
  split; [by rewrite Herr|exact Hposts].
Defined.

(** The footing step raises on a zero soil bearing capacity (division by
    zero) and on a negative required area (square root), and not
    otherwise. *)
Lemma calculate_footing_diameter_Raise (tributary_area_sqft : Q) (soil_bearing_psf : Z)
    (e : exception) :
  _calculate_footing_diameter tributary_area_sqft soil_bearing_psf = Raise e →
  (soil_bearing_psf = 0%Z ∧ e = ZeroDivisionError) ∨
  (soil_bearing_psf ≠ 0%Z ∧
   required_area_sqin_of tributary_area_sqft soil_bearing_psf < 0 ∧
   e = ValueError MsgMathDomainError).
Proof.
  unfold _calculate_footing_diameter, required_diameter, truediv.
  destruct (Qeq_bool (inject_Z soil_bearing_psf) 0) eqn:Hz.
  - intros [= <-]. left. split; [|reflexivity].
    apply Qeq_bool_iff in Hz. unfold Qeq in Hz. simpl in Hz. lia.
  - cbn [mbind result_bind].
    fold (required_area_sqin_of tributary_area_sqft soil_bearing_psf).
    unfold math_sqrt. destruct (Rlt_dec _ 0) as [Hneg|Hnonneg].
    + intros [= <-]. right. split.
      * intros ->. vm_compute in Hz. discriminate.
      * split; [|reflexivity]. apply Rlt_Qlt. rewrite RMicromega.Q2R_0.
        pose proof PI_RGT_0 as Hpi.
        apply Rmult_lt_compat_r with (r := PI) in Hneg; [|exact Hpi].
        replace (Q2R (required_area_sqin_of tributary_area_sqft soil_bearing_psf)
                 / PI * PI)%R
          with (Q2R (required_area_sqin_of tributary_area_sqft soil_bearing_psf))
          in Hneg by (field; lra).
        lra.
    + cbn [mbind result_bind]. destruct (find _ _); discriminate.
Qed.

Lemma POST_SIZES_lumber (height_ft : Q) (size : string) :
  _select_post_size height_ft = Return size →
  size ∈ POST_SIZES ∧ ∃ l, LUMBER_SPECS !! size = Some l ∧ LumberSpec.nominal l = size.
Proof.
  rewrite select_post_size_eq. intros [= <-].
  destruct (Qge_bool 8.0 height_ft); [|destruct (Qge_bool 14.0 height_ft)];
    (split; [apply POST_SIZES_elem; tauto|]; eexists;
     split; [vm_compute; reflexivity|reflexivity]).
Qed.

(** An exception of [generate_structure] comes from the footing step of an
    otherwise complete run. *)
Lemma generate_structure_with_Raise (tbl : gmap (string * Z) Q)
    (site_input : SiteInput.t) (e : exception) :
  generate_structure_with tbl site_input = Raise e →
  ∃ num_posts actual_beam_span,
    post_spacing (SiteInput.width_ft site_input) = Return (num_posts, actual_beam_span) ∧
    _calculate_footing_diameter (actual_beam_span * joist_span_ft_of site_input)
      (SiteInput.soil_bearing_psf site_input) = Raise e.
Proof.
  intros H. unfold generate_structure_with in H. unfold joist_span_ft_of.
  destruct (span_policy _ _) as [[c jspan] bc] eqn:Hpol. cbn [fst snd].
  cbv beta iota zeta in H.
  destruct (Qgt_bool c _); [discriminate|].
  destruct (_select_joist_size_with tbl jspan 16) as [js|e'] eqn:Hj.
  2:{ apply select_joist_size_with_Raise in Hj as [_ ->]. discriminate. }
  destruct (JOIST_SIZES_lumber js) as (jl & Hjl & _);
    [by eapply select_joist_size_with_catalog|].
  unfold getitem in H. rewrite Hjl in H. cbn [mbind result_bind] in H.
  destruct (post_spacing_Return (SiteInput.width_ft site_input)) as [Hps _].
  rewrite Hps in H. cbn [mbind result_bind] in H.
  eexists _, _. split; [exact Hps|].
  destruct (_select_beam_size _ jspan) as [[bs ply]|e'] eqn:Hb.
  2:{ apply select_beam_size_Raise in Hb as [_ ->]. discriminate. }
  destruct (JOIST_SIZES_lumber bs) as (bl & Hbl & _);
    [by eapply select_beam_size_catalog|].
  rewrite Hbl in H. cbn [mbind result_bind] in H.
  destruct (select_post_size_lumber
              (SiteInput.height_ft site_input - 1.0 / 12 - LumberSpec.height_ft jl
               - LumberSpec.height_ft bl)) as (ps & pl & Hp & Hpl).
  rewrite Hp in H. cbn [mbind result_bind] in H.
  rewrite Hpl in H. cbn [mbind result_bind] in H.
  destruct (_calculate_footing_diameter _ _) as [fd|e'] eqn:Hf.
  - cbn [mbind result_bind] in H.
    rewrite (truediv_Return _ _ twelve_nonzero) in H. cbn [mbind result_bind] in H.
    rewrite (truediv_Return _ _ joist_spacing_ft_nonzero) in H. discriminate.
  - cbn [mbind result_bind] in H. by injection H as ->.
Qed.

(** X5. Within the number model (finite floats read as exact rationals,
    integers within the float range; NaN, infinities and larger integers,
    on which [math.ceil] and the conversion of an int to a float raise, are
    outside it), [generate_structure] raises nothing but a
    [ZeroDivisionError], and that only on a zero soil bearing capacity, or
    the math-domain [ValueError] of the square root, and that only on a
    negative required footing area; it never raises a [KeyError]. *)
Theorem generate_structure_exceptions (site_input : SiteInput.t) (e : exception) :
  generate_structure site_input = Raise e →
  ∃ num_posts actual_beam_span,
    post_spacing (SiteInput.width_ft site_input) = Return (num_posts, actual_beam_span) ∧
    let tributary_area := actual_beam_span * joist_span_ft_of site_input in
    let soil := SiteInput.soil_bearing_psf site_input in
    ((soil = 0%Z ∧ e = ZeroDivisionError) ∨
     (soil ≠ 0%Z ∧ required_area_sqin_of tributary_area soil < 0 ∧
      e = ValueError MsgMathDomainError)).
Proof.
  intros H. apply generate_structure_with_Raise in H as (n & span & Hps & Hf).
  exists n, span. split; [exact Hps|]. by apply calculate_footing_diameter_Raise.
Qed.

Lemma generate_structure_exceptions_witness :
  ∃ num_posts actual_beam_span,
    post_spacing 16 = Return (num_posts, actual_beam_span) ∧
    ((0%Z = 0%Z ∧ ZeroDivisionError = ZeroDivisionError) ∨
     (0%Z ≠ 0%Z ∧
      required_area_sqin_of
        (actual_beam_span *
         joist_span_ft_of
           (SiteInput.mk 16 12 3 DIRECT 0 18 0.0 COMPOSITE_TREX NONE 0.0 0 "" "")) 0 < 0 ∧
      ZeroDivisionError = ValueError MsgMathDomainError)).
Proof.
  exact (generate_structure_exceptions _ _ generate_structure_zero_soil).
Defined.

(** ** Which designs are compliant *)

Lemma select_joist_size_16_Return (span_ft : Q) :
  span_ft <= 19.5 → ∃ size, _select_joist_size span_ft 16 = Return size.
Proof.
  intros Hle. destruct (_select_joist_size span_ft 16) as [size|e] eqn:H;
    [by exists size|].
  apply select_joist_size_Raise_span in H. lra.
Qed.

Lemma select_beam_size_Return_spans (beam_span_ft joist_span_ft : Q) :
  beam_span_ft <= 8 → joist_span_ft <= 10 ∨ beam_span_ft <= 7.5 →
  ∃ size, _select_beam_size beam_span_ft joist_span_ft = Return (size, 2%Z).
Proof.
  intros H8 Hor.
  destruct (_select_beam_size beam_span_ft joist_span_ft) as [[size ply]|e] eqn:H.
  { apply select_beam_size_catalog in H as [_ ->]. by exists size. }
  pose proof (select_beam_size_Raise_span _ _ _ H8 H) as Hj.
  apply select_beam_size_Raise in H as [Hnone _].
  specialize (Hnone "2x12" ltac:(apply JOIST_SIZES_elem; tauto)).
  destruct (get_joist_span_category_cases joist_span_ft) as (_ & _ & _ & H12).
  rewrite (H12 Hj) in Hnone. apply Qnot_le_lt in Hnone.
  assert (beam_max_span "12" "2x12" == 7.5) by reflexivity.
  destruct Hor as [Hor|Hor]; lra.
Qed.

Lemma select_beam_size_Raise_spans (beam_span_ft joist_span_ft : Q) :
  10 < joist_span_ft → 7.5 < beam_span_ft →
  ∃ m, _select_beam_size beam_span_ft joist_span_ft = Raise (ValueError m).
Proof.
  intros Hj Hb. eexists. apply select_beam_size_Raise. split; [|reflexivity].
  destruct (get_joist_span_category_cases joist_span_ft) as (_ & _ & _ & H12).
  rewrite (H12 Hj). intros size Hsize. apply Qlt_not_le.
  apply JOIST_SIZES_elem in Hsize as [->|[->|[->| ->]]];
    (eapply Qle_lt_trans; [|exact Hb]); Qconst.
Qed.

(** X6. With positive width, depth and soil bearing capacity the engine
    returns a structure, and the structure is compliant exactly when the
    joist span is at most 19.5 ft and either the joist span is at most 10 ft
    or the beam span is at most 7.5 ft. *)
Theorem compliance_region (site_input : SiteInput.t) :
  0 < SiteInput.width_ft site_input →
  0 < SiteInput.depth_ft site_input →
  (0 < SiteInput.soil_bearing_psf site_input)%Z →
  ∃ s num_posts actual_beam_span,
    post_spacing (SiteInput.width_ft site_input) = Return (num_posts, actual_beam_span) ∧
    generate_structure site_input = Return s ∧
    (DeckStructure.compliant s = true ↔
     joist_span_ft_of site_input <= 19.5 ∧
     (joist_span_ft_of site_input <= 10 ∨ actual_beam_span <= 7.5)).
Proof.
  intros Hw Hd Hsoil.
  assert (Hc : cantilever_ft_of site_input <=
               SiteInput.depth_ft site_input * MAX_CANTILEVER_RATIO)
    by (apply cantilever_within_limit; left; lra).
  pose proof (joist_span_pos _ Hd) as Hjspan.
  destruct (post_spacing_Return (SiteInput.width_ft site_input)) as [Hps _].
  destruct (post_spacing_bounds _ _ _ Hps) as (_ & _ & Hle8 & _ & Hspan).
  specialize (Hspan Hw). revert Hps Hle8 Hspan.
  generalize (Z.max 2 (Qceiling (SiteInput.width_ft site_input / 8.0) + 1)).
  intros n. generalize (SiteInput.width_ft site_input / inject_Z (n - 1)).
  intros span Hps Hle8 Hspan.
  destruct (Qlt_le_dec 19.5 (joist_span_ft_of site_input)) as [Hj|Hj].
  { assert (∃ m, _select_joist_size (joist_span_ft_of site_input) 16 =
                 Raise (ValueError m)) as [m Hm].
    { eexists. apply select_joist_size_with_Raise. split; [|reflexivity].
      intros size Hsize. apply Qlt_not_le.
      apply JOIST_SIZES_elem in Hsize as [->|[->|[->| ->]]];
        (eapply Qle_lt_trans; [|exact Hj]); Qconst. }
    eexists _, n, span. split; [exact Hps|].
    split; [by apply generate_structure_with_joist_exceeded|].
    cbn. split; [discriminate|]. intros [Hle _]. lra. }
  destruct (select_joist_size_16_Return _ Hj) as [js Hjs].
  destruct (JOIST_SIZES_lumber js) as (jl & Hjl & _);
    [by eapply select_joist_size_with_catalog|].
  destruct (Qlt_le_dec 10 (joist_span_ft_of site_input)) as [H10|H10];
    [destruct (Qlt_le_dec 7.5 span) as [H75|H75]|].
  - destruct (select_beam_size_Raise_spans _ _ H10 H75) as [m Hm].
    eexists _, n, span. split; [exact Hps|].
    split; [by eapply generate_structure_with_beam_exceeded|].
    cbn. split; [discriminate|]. intros [_ [Hle|Hle]]; lra.
  - destruct (select_beam_size_Return_spans span (joist_span_ft_of site_input))
      as [bs Hbs]; [exact Hle8|by right|].
    destruct (selects_exists JOIST_SPANS site_input _ _ _ _ _ Hjs Hps Hbs)
      as (d & Hsel & _); [nra|exact Hsoil|].
    eexists _, n, span. split; [exact Hps|].
    split; [by apply generate_structure_with_complete|].
    cbn. split; [|done]. intros _. split; [exact Hj|by right].
  - destruct (select_beam_size_Return_spans span (joist_span_ft_of site_input))
      as [bs Hbs]; [exact Hle8|by left|].
    destruct (selects_exists JOIST_SPANS site_input _ _ _ _ _ Hjs Hps Hbs)
      as (d & Hsel & _); [nra|exact Hsoil|].
    eexists _, n, span. split; [exact Hps|].
    split; [by apply generate_structure_with_complete|].
    cbn. split; [|done]. intros _. split; [exact Hj|by left].
Qed.

Lemma compliance_region_witness :
  ∃ s, generate_structure (SiteInput.default 16 30 3) = Return s ∧
       DeckStructure.compliant s ≠ true.
Proof.
  destruct (compliance_region (SiteInput.default 16 30 3))
    as (s & n & span & _ & Hret & Hiff); [reflexivity|reflexivity|reflexivity|].
  exists s. split; [exact Hret|]. intros Hcompl. apply Hiff in Hcompl as [Hle _].
  revert Hle. Qconst.
Defined.

(** ** Posts and footings of a returned structure *)

Lemma Qge_bool_cases (a b : Q) :
  (Qge_bool a b = true ∧ b <= a) ∨ (Qge_bool a b = false ∧ a < b).
Proof.
  destruct (Qge_bool a b) eqn:H.
  - left. split; [reflexivity|]. by apply Qge_bool_true.
  - right. split; [reflexivity|]. apply Qge_bool_false in H. by apply Qnot_le_lt.
Qed.

(** X7. All posts of a returned structure have one height h, the beam bottom.
    The post size is 4x4 for h at most 8 ft, 4x6 for h above 8 and at most
    14, 6x6 above 14; the posts' lumber is the catalog entry of that size.
    The structure carries the plain post note exactly when h is at most
    20 ft and the verify-with-engineer note exactly when h is above 20 ft. *)
Theorem post_size_by_height (site_input : SiteInput.t) (s : DeckStructure.t)
    (p : Post.t) :
  generate_structure site_input = Return s →
  p ∈ DeckStructure.posts s →
  let h := Post.height_ft p in
  (∀ p', p' ∈ DeckStructure.posts s → Post.height_ft p' = h) ∧
  (∀ b, b ∈ DeckStructure.beams s → Beam.z_ft b = h) ∧
  (h <= 8 → DeckStructure.post_size s = "4x4") ∧
  (8 < h → h <= 14 → DeckStructure.post_size s = "4x6") ∧
  (14 < h → DeckStructure.post_size s = "6x6") ∧
  LUMBER_SPECS !! DeckStructure.post_size s = Some (Post.lumber p) ∧
  LumberSpec.nominal (Post.lumber p) = DeckStructure.post_size s ∧
  (NotePosts (DeckStructure.post_size s) h ∈ DeckStructure.notes s ↔ h <= 20) ∧
  (NotePostsVerify (DeckStructure.post_size s) h ∈ DeckStructure.notes s ↔ 20 < h).
Proof.
  intros Hs Hp h.
  destruct (posts_complete _ _ _ _ Hs Hp) as (d & Hsel & ->).
  pose proof (assembled_post _ _ _ Hp) as (Hh & Hlum & _).
  destruct Hsel as (_ & _ & _ & _ & _ & Hps & Hpl & _).
  fold h in Hh. rewrite <- Hh in Hps. clearbody h.
  pose proof (POST_SIZES_lumber _ _ Hps) as (_ & l & Hl & Hnom).
  rewrite Hpl in Hl. injection Hl as <-.
  rewrite select_post_size_eq in Hps. injection Hps as Hps.
  destruct post_height_limit_values as (L4 & L6 & L66).
  change (DeckStructure.post_size (assembled site_input d)) with (d_post_size d).
  split; [|split; [|split; [|split; [|split; [|split; [|split]]]]]].
  - intros p' Hp'. apply assembled_post in Hp' as (Hh' & _). by rewrite Hh', Hh.
  - intros b Hb. apply assembled_beam in Hb as (Hz & _). by rewrite Hz, Hh.
  - intros H8. rewrite <- Hps.
    by rewrite (proj2 (Qge_bool_true 8.0 h)) by lra.
  - intros H8 H14. rewrite <- Hps.
    rewrite (proj2 (Qge_bool_false 8.0 h)) by (apply Qlt_not_le; lra).
    by rewrite (proj2 (Qge_bool_true 14.0 h)) by lra.
  - intros H14. rewrite <- Hps.
    rewrite (proj2 (Qge_bool_false 8.0 h)) by (apply Qlt_not_le; lra).
    by rewrite (proj2 (Qge_bool_false 14.0 h)) by (apply Qlt_not_le; lra).
  - by rewrite Hlum.
  - by rewrite Hlum.
  - unfold assembled. cbn [DeckStructure.notes].
    rewrite <- Hh.
    assert (Hlim : Qgt_bool h (post_height_limit (d_post_size d)) = true → 20 < h).
    { intros Hgt. apply Qgt_bool_true in Hgt. rewrite <- Hps in Hgt.
      destruct (Qge_bool_cases 8.0 h) as [[E8 H8]|[E8 H8]]; rewrite E8 in Hgt;
        [rewrite L4 in Hgt; lra|].
      destruct (Qge_bool_cases 14.0 h) as [[E14 H14]|[E14 H14]]; rewrite E14 in Hgt;
        [rewrite L6 in Hgt; lra|]. rewrite L66 in Hgt. lra. }
    assert (Hlim' : Qgt_bool h (post_height_limit (d_post_size d)) = false → h <= 20).
    { intros Hgt. apply Qgt_bool_false in Hgt. rewrite <- Hps in Hgt.
      destruct (Qge_bool_cases 8.0 h) as [[E8 H8]|[E8 H8]]; rewrite E8 in Hgt; [lra|].
      destruct (Qge_bool_cases 14.0 h) as [[E14 H14]|[E14 H14]]; rewrite E14 in Hgt;
        [lra|].
      rewrite L66 in Hgt. lra. }
    rewrite !elem_of_cons, !elem_of_nil.
    destruct (Qgt_bool h (post_height_limit (d_post_size d))) eqn:Hgt; split; split.
    + intros [H|[H|[H|[H|[H|[]]]]]]; discriminate.
    + intros Hle. specialize (Hlim eq_refl). lra.
    + intros _. by apply Hlim.
    + intros _. do 2 right. by left.
    + intros _. by apply Hlim'.
    + intros _. do 2 right. by left.
    + intros [H|[H|[H|[H|[H|[]]]]]]; discriminate.
    + intros Hlt. specialize (Hlim' eq_refl). lra.
Qed.

Lemma post_size_by_height_witness :
  ∃ s p, generate_structure (SiteInput.default 16 12 3) = Return s ∧
         p ∈ DeckStructure.posts s ∧
         (NotePosts (DeckStructure.post_size s) (Post.height_ft p)
            ∈ DeckStructure.notes s ↔ Post.height_ft p <= 20).
Proof.
  destruct run_16_12_3 as (d & Hret & _ & Hn).
  destruct (assembled_members (SiteInput.default 16 12 3) d)
    as (_ & _ & p & _ & _ & _ & Hp & _); [lia|Qconst|].
  eexists _, p. split; [exact Hret|]. split; [exact Hp|].
  exact (proj1 (proj2 (proj2 (proj2 (proj2 (proj2 (proj2 (proj2
           (post_size_by_height _ _ p Hret Hp))))))))).
Defined.

Lemma calculate_footing_diameter_standard (tributary_area_sqft : Q)
    (soil_bearing_psf size : Z) :
  _calculate_footing_diameter tributary_area_sqft soil_bearing_psf = Return size →
  size ∈ STANDARD_SIZES.
Proof.
  unfold _calculate_footing_diameter.
  destruct (required_diameter _ _) as [d|e]; [|discriminate].
  cbn [mbind result_bind]. destruct (standard_size_round_up d) as (sz & Heq & Hin & _).
  cbv zeta. rewrite Heq. by intros [= <-].
Qed.

(** X8. On a compliant structure the footing diameter is one of 12, 14, 16,
    18, 20, 24: it is what the footing computation returns for the
    tributary area beam span × joist span on the input's soil.  There is
    one footing under every post, at the post's position and in the post's
    order, each of that diameter and as deep as the frost depth. *)
Theorem footings_under_posts (site_input : SiteInput.t) (s : DeckStructure.t) :
  generate_structure site_input = Return s →
  DeckStructure.compliant s = true →
  DeckStructure.footing_diameter_in s ∈ [12; 14; 16; 18; 20; 24]%Z ∧
  (∃ num_posts actual_beam_span,
     post_spacing (SiteInput.width_ft site_input) = Return (num_posts, actual_beam_span) ∧
     _calculate_footing_diameter (actual_beam_span * joist_span_ft_of site_input)
       (SiteInput.soil_bearing_psf site_input)
     = Return (DeckStructure.footing_diameter_in s)) ∧
  (fun f => (Footing.x_ft f, Footing.y_ft f)) <$> DeckStructure.footings s =
    (fun p => (Post.x_ft p, Post.y_ft p)) <$> DeckStructure.posts s ∧
  (∀ f, f ∈ DeckStructure.footings s →
     Footing.diameter_in f = DeckStructure.footing_diameter_in s ∧
     Footing.depth_in f = SiteInput.frost_depth_in site_input).
Proof.
  intros Hs Hcompl. destruct (compliant_complete _ _ _ Hs Hcompl) as (d & Hsel & ->).
  pose proof Hsel as (_ & _ & Hps & _ & _ & _ & _ & Hf).
  split; [|split; [|split]].
  - by eapply calculate_footing_diameter_standard.
  - by eexists _, _.
  - unfold assembled. cbn [DeckStructure.footings DeckStructure.posts].
    generalize (beam_y_positions_of site_input). intros ys.
    induction ys as [|y ys IH]; [reflexivity|].
    cbn [mbind list_bind]. rewrite !fmap_app, IH, <- !list_fmap_compose. reflexivity.
  - intros f Hin. apply assembled_footing in Hin as [Hdepth Hdiam]. done.
Qed.

Lemma footings_under_posts_witness :
  ∃ s, generate_structure (SiteInput.default 16 12 3) = Return s ∧
       DeckStructure.footing_diameter_in s ∈ [12; 14; 16; 18; 20; 24]%Z ∧
       length (DeckStructure.footings s) = length (DeckStructure.posts s).
Proof.
  destruct run_16_12_3 as (d & Hret & _). eexists. split; [exact Hret|].
  destruct (footings_under_posts _ _ Hret eq_refl) as (Hin & _ & Hpos & _).
  split; [exact Hin|].
  apply (f_equal length) in Hpos. by rewrite !length_fmap in Hpos.
Defined.

(** ** Lumber of the members *)

Lemma JOIST_SIZES_nominal (size : string) (l : LumberSpec.t) :
  size ∈ JOIST_SIZES → LUMBER_SPECS !! size = Some l → LumberSpec.nominal l = size.
Proof.
  destruct LUMBER_SPECS_values as (V6 & V8 & V10 & V12).
  intros Hsize. apply JOIST_SIZES_elem in Hsize as [->|[->|[->| ->]]];
    rewrite ?V6, ?V8, ?V10, ?V12; by intros [= <-].
Qed.

(** X9. On a compliant structure the joist size and the beam size are catalog
    sizes among 2x6, 2x8, 2x10, 2x12, and every member's lumber is the
    catalog entry of its selected size: the joists, the ledger and the three
    rim joists (left, right, outer) carry the joist lumber, the beams the
    beam lumber, with ply 2. *)
Theorem member_lumber_is_catalog (site_input : SiteInput.t) (s : DeckStructure.t) :
  generate_structure site_input = Return s →
  DeckStructure.compliant s = true →
  let width := SiteInput.width_ft site_input in
  let depth := SiteInput.depth_ft site_input in
  DeckStructure.joist_size s ∈ JOIST_SIZES ∧
  DeckStructure.beam_size s ∈ JOIST_SIZES ∧
  DeckStructure.beam_ply s = 2%Z ∧
  (∃ joist_lumber,
     LUMBER_SPECS !! DeckStructure.joist_size s = Some joist_lumber ∧
     LumberSpec.nominal joist_lumber = DeckStructure.joist_size s ∧
     (∀ j, j ∈ DeckStructure.joists s → Joist.lumber j = joist_lumber) ∧
     (∀ l, DeckStructure.ledger s = Some l → Ledger.lumber l = joist_lumber) ∧
     DeckStructure.rim_joists s =
       [ RimAlongY "left" (- width / 2) 0 depth joist_lumber;
         RimAlongY "right" (width / 2) 0 depth joist_lumber;
         RimAlongX "outer" (- width / 2) (width / 2) depth joist_lumber ]) ∧
  (∃ beam_lumber,
     LUMBER_SPECS !! DeckStructure.beam_size s = Some beam_lumber ∧
     LumberSpec.nominal beam_lumber = DeckStructure.beam_size s ∧
     (∀ b, b ∈ DeckStructure.beams s →
        Beam.lumber b = beam_lumber ∧ Beam.ply b = 2%Z)).
Proof.
  intros Hs Hcompl width depth.
  destruct (compliant_complete _ _ _ Hs Hcompl) as (d & Hsel & ->).
  destruct Hsel as (Hj & Hjl & _ & Hb & Hbl & _).
  pose proof (select_joist_size_with_catalog _ _ _ _ Hj) as Hjin.
  pose proof (select_beam_size_catalog _ _ _ _ Hb) as [Hbin Hply].
  split; [exact Hjin|]. split; [exact Hbin|]. split; [exact Hply|]. split.
  - exists (d_joist_lumber d). split; [exact Hjl|].
    split; [by apply JOIST_SIZES_nominal|]. split; [|split].
    + intros j Hin. by apply assembled_joist in Hin as [_ ?].
    + unfold assembled. cbn [DeckStructure.ledger].
      destruct (decide _); [discriminate|]. by intros l [= <-].
    + reflexivity.
  - exists (d_beam_lumber d). split; [exact Hbl|].
    split; [by apply JOIST_SIZES_nominal|].
    intros b Hin. apply assembled_beam in Hin as (_ & ? & Hp). split; [done|].
    by rewrite Hp.
Qed.

Lemma member_lumber_is_catalog_witness :
  ∃ s, generate_structure (SiteInput.default 16 12 3) = Return s ∧
       DeckStructure.joist_size s ∈ JOIST_SIZES ∧ DeckStructure.beam_ply s = 2%Z.
Proof.
  destruct run_16_12_3 as (d & Hret & _). eexists. split; [exact Hret|].
  destruct (member_lumber_is_catalog _ _ Hret eq_refl) as (Hj & _ & Hply & _).
  split; [exact Hj|exact Hply].
Defined.

(** ** Layout of posts, beams and joists *)

Lemma beam_y_positions_length (site_input : SiteInput.t) :
  length (beam_y_positions_of site_input) =
  if decide (SiteInput.ledger_attachment site_input = FREESTANDING) then 2%nat else 1%nat.
Proof. unfold beam_y_positions_of. by destruct (decide _). Qed.

Lemma bind_const_length_fmap {A B C : Type} (f : A → B → C) (ys : list A) (l : list B) :
  length (y ← ys; f y <$> l) = (length ys * length l)%nat.
Proof.
  induction ys as [|y ys IH]; [reflexivity|].
  cbn [mbind list_bind length]. rewrite length_app, length_fmap.
  cbn [mbind] in IH. rewrite IH. lia.
Qed.

(** X10. On a compliant structure for a positive width: every beam row has one
    beam running from x = −width/2 to x = width/2, and [num_posts] posts; the
    posts of a row stand at x = −width/2 + i × beam span for i = 0 ..
    num_posts − 1, all within the beam, the first at its start and the last
    at its end. *)
Theorem posts_along_beams (site_input : SiteInput.t) (s : DeckStructure.t) :
  0 < SiteInput.width_ft site_input →
  generate_structure site_input = Return s →
  DeckStructure.compliant s = true →
  let width := SiteInput.width_ft site_input in
  let rows := beam_y_positions_of site_input in
  ∃ num_posts actual_beam_span,
    post_spacing width = Return (num_posts, actual_beam_span) ∧
    (fun b => (Beam.x_start_ft b, Beam.x_end_ft b, Beam.y_ft b)) <$> DeckStructure.beams s
      = (fun y => (- width / 2, width / 2, y)) <$> rows ∧
    length (DeckStructure.posts s) = (length rows * Z.to_nat num_posts)%nat ∧
    (∀ p, p ∈ DeckStructure.posts s →
       Post.y_ft p ∈ rows ∧
       ∃ i, (0 <= i < num_posts)%Z ∧
            Post.x_ft p = - (width / 2) + inject_Z i * actual_beam_span ∧
            - (width / 2) <= Post.x_ft p ∧ Post.x_ft p <= width / 2) ∧
    (∀ y, y ∈ rows →
       ∃ first last,
         first ∈ DeckStructure.posts s ∧ last ∈ DeckStructure.posts s ∧
         Post.y_ft first = y ∧ Post.y_ft last = y ∧
         Post.x_ft first == - (width / 2) ∧ Post.x_ft last == width / 2).
Proof.
  intros Hw Hs Hcompl width rows.
  destruct (compliant_complete _ _ _ Hs Hcompl) as (d & Hsel & ->).
  pose proof (selects_num_posts _ _ _ Hsel) as Hn.
  destruct Hsel as (_ & _ & Hps & _).
  destruct (post_spacing_bounds _ _ _ Hps) as (_ & _ & Hle & Hsum & Hpos).
  specialize (Hpos Hw). fold width in Hps, Hsum.
  exists (d_num_posts d), (d_actual_beam_span d). split; [exact Hps|].
  unfold assembled. cbn [DeckStructure.beams DeckStructure.posts]. fold width rows.
  split; [|split; [|split]].
  - by rewrite <- list_fmap_compose.
  - rewrite bind_const_length_fmap, length_seqZ. reflexivity.
  - intros p Hp. apply list_elem_of_bind in Hp as (y & Hp & Hy).
    apply list_elem_of_fmap in Hp as (i & -> & Hi). apply elem_of_seqZ in Hi.
    cbn [Post.x_ft Post.y_ft]. split; [exact Hy|]. exists i.
    split; [lia|]. split; [reflexivity|].
    assert (Hi0 : 0 <= inject_Z i).
    { change 0 with (inject_Z 0). rewrite <- Zle_Qle. lia. }
    assert (Hik : inject_Z i <= inject_Z (d_num_posts d - 1)).
    { rewrite <- Zle_Qle. lia. }
    assert (Hmul : inject_Z i * d_actual_beam_span d <=
                   inject_Z (d_num_posts d - 1) * d_actual_beam_span d).
    { apply Qmult_le_compat_r; [exact Hik|lra]. }
    assert (Hhalf : width / 2 == width * (1 # 2)) by reflexivity.
    assert (0 <= inject_Z i * d_actual_beam_span d) by (apply Qmult_le_0_compat; lra).
    split; rewrite Hhalf; lra.
  - intros y Hy.
    exists (Post.mk (- (width / 2) + inject_Z 0 * d_actual_beam_span d) y
              (beam_bottom_z_of (SiteInput.height_ft site_input) (d_joist_lumber d)
                 (d_beam_lumber d)) (d_post_lumber d)),
           (Post.mk (- (width / 2) + inject_Z (d_num_posts d - 1) * d_actual_beam_span d) y
              (beam_bottom_z_of (SiteInput.height_ft site_input) (d_joist_lumber d)
                 (d_beam_lumber d)) (d_post_lumber d)).
    cbn [Post.x_ft Post.y_ft].
    assert (Hhalf : width / 2 == width * (1 # 2)) by reflexivity.
    split; [|split; [|split; [reflexivity|split; [reflexivity|split]]]].
    + apply list_elem_of_bind. exists y. split; [|exact Hy].
      apply list_elem_of_fmap. exists 0%Z. split; [reflexivity|].
      apply elem_of_seqZ. lia.
    + apply list_elem_of_bind. exists y. split; [|exact Hy].
      apply list_elem_of_fmap. exists (d_num_posts d - 1)%Z. split; [reflexivity|].
      apply elem_of_seqZ. lia.
    + change (inject_Z 0) with 0. lra.
    + rewrite Hsum, Hhalf. lra.
Qed.

Lemma posts_along_beams_witness :
  ∃ s, generate_structure (SiteInput.default 16 12 3) = Return s ∧
       length (DeckStructure.posts s) = 3%nat ∧ length (DeckStructure.beams s) = 1%nat.
Proof.
  destruct run_16_12_3 as (d & Hret & _). eexists. split; [exact Hret|].
  destruct (posts_along_beams (SiteInput.default 16 12 3) _ eq_refl Hret eq_refl)
    as (n & span & Hps & Hbeams & Hlen & _).
  assert (Hn : n = 3%Z).
  { destruct (post_spacing_Return (SiteInput.width_ft (SiteInput.default 16 12 3)))
      as [Hret' _].
    rewrite Hret' in Hps. by injection Hps as <- _. }
  split.
  - rewrite Hlen, Hn. reflexivity.
  - apply (f_equal length) in Hbeams. rewrite !length_fmap in Hbeams.
    rewrite Hbeams. reflexivity.
Defined.

(** The joist run: [num_joists] joists 16/12 ft apart, centred on x = 0. *)
Lemma joist_run_within_width (width : Q) :
  0 <= width →
  let joist_spacing_ft := inject_Z 16 / 12 in
  let num_joists := (Qfloor (width / joist_spacing_ft) + 1)%Z in
  (1 <= num_joists)%Z ∧
  inject_Z (num_joists - 1) * joist_spacing_ft <= width ∧
  width < inject_Z num_joists * joist_spacing_ft.
Proof.
  intros Hw sp n.
  assert (Hsp : sp == 4 # 3) by reflexivity.
  assert (Hq : width == sp * (width / sp)) by (symmetry; apply Qmult_div_r; Qconst).
  assert (Hfloor : (0 <= Qfloor (width / sp))%Z).
  { change 0%Z with (Qfloor 0). apply Qfloor_resp_le.
    apply Qle_shift_div_l; [Qconst|]. lra. }
  pose proof (Qfloor_le (width / sp)) as Hlo.
  pose proof (Qlt_floor (width / sp)) as Hhi.
  assert (Hn1 : (n - 1 = Qfloor (width / sp))%Z) by (subst n; lia).
  rewrite Hn1. subst n. revert Hq Hfloor Hlo Hhi.
  generalize (width / sp). intros q Hq Hfloor Hlo Hhi. clear Hn1.
  revert Hlo Hhi.
  generalize (inject_Z (Qfloor q)) (inject_Z (Qfloor q + 1)). intros lo hi Hlo Hhi.
  clearbody sp. split; [lia|]. rewrite Hq, Hsp. split; lra.
Qed.

(** X11. On a compliant structure for a non-negative width: there are
    floor(width / (16/12)) + 1 joists, at least one, and the joist-count note
    names their number; consecutive joists are 16/12 ft apart; every joist
    runs from y = 0 to y = depth and lies within the deck width; the run is
    symmetric about x = 0 (the mirror image of every joist position is a
    joist position). *)
Theorem joists_centred (site_input : SiteInput.t) (s : DeckStructure.t) :
  0 <= SiteInput.width_ft site_input →
  generate_structure site_input = Return s →
  DeckStructure.compliant s = true →
  let width := SiteInput.width_ft site_input in
  let num_joists := (Qfloor (width / (inject_Z 16 / 12)) + 1)%Z in
  (1 <= num_joists)%Z ∧
  len (DeckStructure.joists s) = num_joists ∧
  NoteJoistCount num_joists ∈ DeckStructure.notes s ∧
  (∀ (i : nat) (a b : Joist.t),
     DeckStructure.joists s !! i = Some a → DeckStructure.joists s !! S i = Some b →
     Joist.x_ft b - Joist.x_ft a == 16 # 12) ∧
  (∀ j, j ∈ DeckStructure.joists s →
     Joist.y_start_ft j = 0 ∧ Joist.y_end_ft j = SiteInput.depth_ft site_input ∧
     - (width / 2) <= Joist.x_ft j ∧ Joist.x_ft j <= width / 2 ∧
     ∃ j', j' ∈ DeckStructure.joists s ∧ Joist.x_ft j' == - Joist.x_ft j).
Proof.
  intros Hw Hs Hcompl width n.
  destruct (compliant_complete _ _ _ Hs Hcompl) as (d & Hsel & ->).
  destruct (joist_run_within_width width Hw) as (Hn & Hrun & _). fold n in Hn, Hrun.
  unfold assembled. cbn [DeckStructure.joists DeckStructure.notes]. fold width n.
  set (sp := inject_Z 16 / 12) in *.
  assert (Hsp : sp == 4 # 3) by reflexivity.
  assert (Hhalf : width / 2 == width * (1 # 2)) by reflexivity.
  assert (Hstart : ∀ x, - x / 2 == - (x * (1 # 2))) 
    by (intros x; unfold Qdiv; change (/ 2) with (1 # 2); ring).
  split; [exact Hn|]. split; [|split; [|split]].
  - unfold len. rewrite length_fmap, length_seqZ. lia.
  - rewrite !elem_of_cons. tauto.
  - intros i a b Ha Hb. rewrite list_lookup_fmap in Ha, Hb.
    destruct (seqZ 0 n !! i) as [ia|] eqn:Hia; [|discriminate].
    destruct (seqZ 0 n !! S i) as [ib|] eqn:Hib; [|discriminate].
    apply lookup_seqZ in Hia as [-> _]. apply lookup_seqZ in Hib as [-> _].
    cbn in Ha, Hb. injection Ha as <-. injection Hb as <-. cbn [Joist.x_ft].
    assert (Hsucc : inject_Z (0 + Z.of_nat (S i)) == inject_Z (0 + Z.of_nat i) + 1).
    { change 1 with (inject_Z 1). rewrite <- inject_Z_plus.
      replace (0 + Z.of_nat (S i))%Z with (0 + Z.of_nat i + 1)%Z by lia. reflexivity. }
    rewrite Hsucc, Hsp. ring.
  - intros j Hj. apply list_elem_of_fmap in Hj as (i & -> & Hi).
    apply elem_of_seqZ in Hi. cbn [Joist.x_ft Joist.y_start_ft Joist.y_end_ft].
    split; [reflexivity|]. split; [reflexivity|].
    assert (Hi0 : 0 <= inject_Z i).
    { change 0 with (inject_Z 0). rewrite <- Zle_Qle. lia. }
    assert (Hik : inject_Z i <= inject_Z (n - 1)) by (rewrite <- Zle_Qle; lia).
    rewrite (Hstart (inject_Z (n - 1) * sp)), Hhalf.
    rewrite Hsp in *. split; [lra|]. split; [lra|].
    eexists (Joist.mk _ _ _ _ _). split.
    + apply list_elem_of_fmap. exists (n - 1 - i)%Z. split; [reflexivity|].
      apply elem_of_seqZ. lia.
    + cbn [Joist.x_ft].
      assert (Hmir : inject_Z (n - 1 - i) == inject_Z (n - 1) - inject_Z i).
      { unfold Zminus at 1. rewrite inject_Z_plus, inject_Z_opp. ring. }
      rewrite (Hstart (inject_Z (n - 1) * sp)), Hmir, Hsp. ring.
Qed.

Lemma joists_centred_witness :
  ∃ s, generate_structure (SiteInput.default 16 12 3) = Return s ∧
       len (DeckStructure.joists s) = 13%Z.
Proof.
  destruct run_16_12_3 as (d & Hret & _). eexists. split; [exact Hret|].
  assert (Hw : 0 <= SiteInput.width_ft (SiteInput.default 16 12 3)) by Qconst.
  destruct (joists_centred _ _ Hw Hret eq_refl) as (_ & Hlen & _).
  rewrite Hlen. reflexivity.
Defined.

(** ** services/pricing.py: when a quote is returned *)

Lemma foldl_Qplus_acc (a : Q) (l : list Q) : foldl Qplus a l == a + sum_floats l.
Proof.
  unfold sum_floats. revert a. induction l as [|x l IH]; intros a; cbn [foldl].
  - ring.
  - rewrite (IH (a + x)), (IH (0 + x)). ring.
Qed.

Lemma sum_floats_cons (x : Q) (l : list Q) : sum_floats (x :: l) == x + sum_floats l.
Proof. unfold sum_floats at 1. cbn [foldl]. rewrite foldl_Qplus_acc. ring. Qed.

Lemma sum_floats_app (l1 l2 : list Q) :
  sum_floats (l1 ++ l2) == sum_floats l1 + sum_floats l2.
Proof.
  unfold sum_floats at 1. rewrite foldl_app, foldl_Qplus_acc. reflexivity.
Qed.

Lemma sum_floats_totals (l : list LineItem.t) :
  sum_floats (LineItem.total <$> l) ==
  sum_floats (LineItem.material_cost <$> l) + sum_floats (LineItem.labor_cost <$> l).
Proof.
  induction l as [|x l IH]; [reflexivity|].
  rewrite !fmap_cons, !sum_floats_cons, IH. unfold LineItem.total. ring.
Qed.

Lemma calculate_quote_Return (s : DeckStructure.t) :
  ¬ sqft_of s == 0 → calculate_quote s = Return (priced s).
Proof.
  intros H. rewrite calculate_quote_eq, (truediv_Return _ _ H). reflexivity.
Qed.

Lemma calculate_quote_Raise (s : DeckStructure.t) :
  sqft_of s == 0 → calculate_quote s = Raise ZeroDivisionError.
Proof.
  intros H. rewrite calculate_quote_eq, (truediv_Raise _ _ H). reflexivity.
Qed.

Lemma calculate_quote_inv (s : DeckStructure.t) (q : Quote.t) :
  calculate_quote s = Return q → ¬ sqft_of s == 0 ∧ q = priced s.
Proof.
  intros Hq. destruct (Qeq_dec (sqft_of s) 0) as [H|H].
  - rewrite (calculate_quote_Raise _ H) in Hq. discriminate.
  - rewrite (calculate_quote_Return _ H) in Hq. by injection Hq as <-.
Qed.

Lemma sqft_zero (s : DeckStructure.t) :
  sqft_of s == 0 ↔
  SiteInput.width_ft (DeckStructure.input s) == 0 ∨
  SiteInput.depth_ft (DeckStructure.input s) == 0.
Proof.
  unfold sqft_of. split.
  - apply Qmult_integral.
  - intros [H|H]; rewrite H; ring.
Qed.

(** X12. [calculate_quote] raises exactly when the deck has no area: it
    raises ZeroDivisionError (from the last line, total / sqft) if and only
    if width or depth is zero, returns a quote if and only if both are
    non-zero, and raises no other exception: every key it looks up in
    MATERIAL_PRICES, LABOR_RATES and PERMIT_FEES is present and 1 - MARGIN is
    not zero. *)
Theorem quote_raises_on_zero_area (s : DeckStructure.t) :
  let width := SiteInput.width_ft (DeckStructure.input s) in
  let depth := SiteInput.depth_ft (DeckStructure.input s) in
  (calculate_quote s = Raise ZeroDivisionError ↔ width == 0 ∨ depth == 0) ∧
  ((∃ q, calculate_quote s = Return q) ↔ ¬ width == 0 ∧ ¬ depth == 0) ∧
  (∀ e, calculate_quote s = Raise e → e = ZeroDivisionError).
Proof.
  intros width depth. pose proof (sqft_zero s) as Hz. fold width depth in Hz.
  destruct (Qeq_dec (sqft_of s) 0) as [H|H].
  - rewrite (calculate_quote_Raise _ H). split; [|split].
    + split; [intros _; by apply Hz|reflexivity].
    + split; [intros [q Hq]; discriminate|]. intros [Hw Hd].
      apply Hz in H as [H|H]; contradiction.
    + intros e He. by injection He as <-.
  - rewrite (calculate_quote_Return _ H). split; [|split].
    + split; [discriminate|]. intros H0. apply Hz in H0. contradiction.
    + split; [|by eexists]. intros _. split; intros H0; apply H; apply Hz; tauto.
    + discriminate.
Qed.

Lemma quote_raises_on_zero_area_witness :
  calculate_quote (DeckStructure.new (SiteInput.default 0 12 3)) = Raise ZeroDivisionError.
Proof.
  apply (quote_raises_on_zero_area (DeckStructure.new (SiteInput.default 0 12 3))).
  left. reflexivity.
Defined.

(** ** services/pricing.py: margin and totals *)

Lemma priced_margin (s : DeckStructure.t) :
  Quote.margin_amount (priced s) == (1 # 3) * Quote.subtotal (priced s).
Proof.
  unfold priced. cbn [Quote.margin_amount Quote.subtotal].
  generalize (sum_floats (LineItem.material_cost <$> work_lines s ++ [permits_line s])%list
              + sum_floats (LineItem.labor_cost <$> work_lines s ++ [permits_line s])%list).
  intros x. unfold Qdiv.
  assert (Hinv : / (1 - MARGIN) == 4 # 3) by reflexivity.
  assert (HM : MARGIN == 1 # 4) by reflexivity.
  rewrite Hinv, HM. ring.
Qed.

(** X13. In a returned quote the subtotal is materials plus labor, the
    margin amount is one third of the subtotal, which is MARGIN (25%) of the
    total: the margin is a gross margin on the selling price, not a markup on
    cost; the total is 4/3 of the subtotal; deck_sqft is width times depth
    and price_per_sqft times deck_sqft gives back the total. *)
Theorem quote_margin_is_gross (s : DeckStructure.t) (q : Quote.t) :
  calculate_quote s = Return q →
  Quote.subtotal q = Quote.materials_subtotal q + Quote.labor_subtotal q ∧
  Quote.margin_amount q == (1 # 3) * Quote.subtotal q ∧
  Quote.margin_amount q == MARGIN * Quote.total q ∧
  Quote.total q == (4 # 3) * Quote.subtotal q ∧
  Quote.deck_sqft q =
    SiteInput.width_ft (DeckStructure.input s) * SiteInput.depth_ft (DeckStructure.input s) ∧
  Quote.price_per_sqft q * Quote.deck_sqft q == Quote.total q.
Proof.
  intros Hq. apply calculate_quote_inv in Hq as [Hsq ->].
  pose proof (priced_margin s) as Hm.
  assert (Ht : Quote.total (priced s) =
               Quote.subtotal (priced s) + Quote.margin_amount (priced s)) by reflexivity.
  assert (HM : MARGIN == 1 # 4) by reflexivity.
  split; [reflexivity|]. split; [exact Hm|]. split; [|split; [|split]].
  - rewrite Ht, HM, Hm. ring.
  - rewrite Ht, Hm. ring.
  - reflexivity.
  - change (Quote.price_per_sqft (priced s))
      with (Quote.total (priced s) / sqft_of s).
    change (Quote.deck_sqft (priced s)) with (sqft_of s).
    rewrite Qmult_comm. apply Qmult_div_r. exact Hsq.
Qed.

Lemma quote_margin_is_gross_witness :
  ∃ q, calculate_quote (DeckStructure.new (SiteInput.default 16 12 3)) = Return q ∧
       Quote.margin_amount q == MARGIN * Quote.total q.
Proof.
  assert (Hsq : ¬ sqft_of (DeckStructure.new (SiteInput.default 16 12 3)) == 0) by Qconst.
  eexists. split; [exact (calculate_quote_Return _ Hsq)|].
  apply (quote_margin_is_gross _ _ (calculate_quote_Return _ Hsq)).
Defined.

(** ** services/pricing.py: the line items *)

Lemma has_railing_true (s : DeckStructure.t) :
  has_railing s = true ↔
  SiteInput.railing_type (DeckStructure.input s) ≠ NONE ∧
  0 < SiteInput.railing_lf (DeckStructure.input s).
Proof.
  unfold has_railing. rewrite andb_true_iff, negb_true_iff, bool_decide_eq_false.
  by rewrite Qgt_bool_true.
Qed.

Lemma has_stairs_true (s : DeckStructure.t) :
  has_stairs s = true ↔ (0 < SiteInput.stair_count (DeckStructure.input s))%Z.
Proof. unfold has_stairs. apply Z.ltb_lt. Qed.

(** X14. The line items of a returned quote come in a fixed order: Footings,
    Posts, Beams, Joists, Ledger & Rim, Framing Labor, Decking, then the
    optional lines, then Cleanup and Permits last.  The optional lines are
    Railing, present exactly when the railing type is not NONE and
    railing_lf > 0, and Stairs, present exactly when stair_count > 0, in
    this order; so a quote has 9 to 11 lines and no category twice. *)
Theorem quote_line_items (s : DeckStructure.t) (q : Quote.t) :
  calculate_quote s = Return q →
  let site := DeckStructure.input s in
  ∃ optional : list string,
    LineItem.category <$> Quote.line_items q =
      (["Footings"; "Posts"; "Beams"; "Joists"; "Ledger & Rim"; "Framing Labor"; "Decking"]
       ++ optional ++ ["Cleanup"; "Permits"])%list ∧
    sublist optional ["Railing"; "Stairs"] ∧
    ("Railing" ∈ optional ↔
       SiteInput.railing_type site ≠ NONE ∧ 0 < SiteInput.railing_lf site) ∧
    ("Stairs" ∈ optional ↔ (0 < SiteInput.stair_count site)%Z) ∧
    (9 <= len (Quote.line_items q) <= 11)%Z ∧
    NoDup (LineItem.category <$> Quote.line_items q).
Proof.
  intros Hq site. apply calculate_quote_inv in Hq as [_ ->].
  pose proof (has_railing_true s) as Hr. pose proof (has_stairs_true s) as Hs.
  fold site in Hr, Hs. unfold priced, work_lines. cbn [Quote.line_items].
  exists ((if has_railing s then ["Railing"] else [])
          ++ (if has_stairs s then ["Stairs"] else []))%list.
  destruct (has_railing s); destruct (has_stairs s); cbn [app fmap list_fmap];
    (split; [reflexivity|]);
    (split; [repeat first [apply sublist_nil | apply sublist_skip | apply sublist_cons]|]);
    (split; [rewrite <- Hr, ?elem_of_cons, ?elem_of_nil; intuition congruence|]);
    (split; [rewrite <- Hs, ?elem_of_cons, ?elem_of_nil; intuition congruence|]);
    (split; [unfold len; cbn; lia|]).
  all: unfold footings_line, posts_line, beams_line, joists_line, ledger_rim_line,
      framing_labor_line, decking_line, railing_line, stairs_line, cleanup_line,
      permits_line; cbn [LineItem.category].
  all: apply (bool_decide_unpack _); vm_compute; exact I.
Qed.

Lemma quote_line_items_witness :
  ∃ q, calculate_quote (DeckStructure.new (SiteInput.default 16 12 3)) = Return q ∧
       (9 <= len (Quote.line_items q) <= 11)%Z.
Proof.
  assert (Hsq : ¬ sqft_of (DeckStructure.new (SiteInput.default 16 12 3)) == 0) by Qconst.
  eexists. split; [exact (calculate_quote_Return _ Hsq)|].
  destruct (quote_line_items _ _ (calculate_quote_Return _ Hsq))
    as (opt & _ & _ & _ & _ & Hlen & _).
  exact Hlen.
Defined.

(** ** services/pricing.py: permit fees *)

Lemma permit_fee_closed (value : Q) :
  permit_fee_of value + permit_fee_of value * 0.65 + 250.00 == 575.05 + 0.023925 * value.
Proof.
  unfold permit_fee_of, Qdiv.
  assert (H1000 : / 1000 == 1 # 1000) by reflexivity.
  rewrite H1000. ring.
Qed.

(** X15. The permit line of a returned quote is its last line and the only
    one in category Permits.  With V the value of the lines before it
    (materials plus labor, before margin), permit_fees is
    (197 + 14.50 V / 1000) * 1.65 + 250 = 575.05 + 0.023925 V and equals the
    total of the permit line, whose labor is the 250.00 filing rate.  The
    permit line is part of the subtotal, so the margin is charged on the
    permit fees too: the quote total is 4/3 of V plus permit_fees. *)
Theorem quote_permit_fees (s : DeckStructure.t) (q : Quote.t) :
  calculate_quote s = Return q →
  ∃ (work : list LineItem.t) (permit : LineItem.t),
    Quote.line_items q = (work ++ [permit])%list ∧
    LineItem.category permit = "Permits" ∧
    ¬ "Permits" ∈ (LineItem.category <$> work) ∧
    LineItem.labor_cost permit = 250.00 ∧
    Quote.permit_fees q == LineItem.total permit ∧
    Quote.permit_fees q == 575.05 + 0.023925 * sum_floats (LineItem.total <$> work) ∧
    Quote.subtotal q == sum_floats (LineItem.total <$> work) + Quote.permit_fees q ∧
    Quote.total q == (4 # 3) * (sum_floats (LineItem.total <$> work) + Quote.permit_fees q).
Proof.
  intros Hq. apply calculate_quote_inv in Hq as [_ ->].
  exists (work_lines s), (permits_line s).
  pose proof (priced_margin s) as Hm.
  assert (Ht : Quote.total (priced s) =
               Quote.subtotal (priced s) + Quote.margin_amount (priced s)) by reflexivity.
  assert (Hfees : Quote.permit_fees (priced s) == LineItem.total (permits_line s)).
  { unfold priced, permits_line, LineItem.total.
    cbn [Quote.permit_fees LineItem.material_cost LineItem.labor_cost]. reflexivity. }
  assert (Hclosed : Quote.permit_fees (priced s)
                    == 575.05 + 0.023925 * sum_floats (LineItem.total <$> work_lines s)).
  { unfold priced. cbn [Quote.permit_fees].
    rewrite permit_fee_closed, sum_floats_totals. reflexivity. }
  assert (Hsub : Quote.subtotal (priced s)
                 == sum_floats (LineItem.total <$> work_lines s)
                    + Quote.permit_fees (priced s)).
  { rewrite Hfees. unfold priced. cbn [Quote.subtotal].
    rewrite !fmap_app, !sum_floats_app, sum_floats_totals.
    cbn [fmap list_fmap]. rewrite !sum_floats_cons. unfold LineItem.total, sum_floats.
    cbn [foldl]. ring. }
  split; [reflexivity|]. split; [reflexivity|]. split.
  { unfold work_lines. destruct (has_railing s); destruct (has_stairs s);
      cbn [app fmap list_fmap];
      unfold footings_line, posts_line, beams_line, joists_line, ledger_rim_line,
        framing_labor_line, decking_line, railing_line, stairs_line, cleanup_line;
      cbn [LineItem.category];
      apply (bool_decide_unpack _); vm_compute; exact I. }
  split; [reflexivity|]. split; [exact Hfees|]. split; [exact Hclosed|].
  split; [exact Hsub|]. rewrite Ht, Hm, Hsub. ring.
Qed.

Lemma quote_permit_fees_witness :
  ∃ q, calculate_quote (DeckStructure.new (SiteInput.default 16 12 3)) = Return q ∧
       ∃ permit, last (Quote.line_items q) = Some permit ∧
                 LineItem.category permit = "Permits".
Proof.
  assert (Hsq : ¬ sqft_of (DeckStructure.new (SiteInput.default 16 12 3)) == 0) by Qconst.
  eexists. split; [exact (calculate_quote_Return _ Hsq)|].
  destruct (quote_permit_fees _ _ (calculate_quote_Return _ Hsq))
    as (work & permit & Hlines & Hcat & _).
  exists permit. rewrite Hlines, last_snoc. split; [reflexivity|exact Hcat].
Defined.

(** ** services/pricing.py: labor *)

(** X16. The labor subtotal of a returned quote comes to: 175.00 per
    footing, 14.00 + 0.50 per square foot for framing and cleanup, 9.00 per
    square foot of composite decking or 7.00 of wood decking, 35.00 per foot
    of railing and 225.00 per stair tread when these lines are present, and
    the 250.00 permit filing.  Posts, beams, joists, ledger and rim carry no
    labor of their own, so the labor does not depend on the sizes or the
    number of the framing members, only on the footings and the site. *)
Theorem quote_labor (s : DeckStructure.t) (q : Quote.t) :
  calculate_quote s = Return q →
  let site := DeckStructure.input s in
  let sqft := SiteInput.width_ft site * SiteInput.depth_ft site in
  let is_composite :=
    bool_decide (SiteInput.decking_type site ∈ [COMPOSITE_TREX; COMPOSITE_TIMBERTECH]) in
  Quote.labor_subtotal q ==
    175.00 * inject_Z (len (DeckStructure.footings s))
    + sqft * (14.00 + (if is_composite then 9.00 else 7.00) + 0.50)
    + (if has_railing s then 35.00 * SiteInput.railing_lf site else 0)
    + (if has_stairs s then 225.00 * inject_Z (SiteInput.stair_count site) else 0)
    + 250.00.
Proof.
  intros Hq site sqft is_composite. apply calculate_quote_inv in Hq as [_ ->].
  assert (Hrate : (if is_composite then 9.00 else 7.00)
                  = decking_rate_of (SiteInput.decking_type site)).
  { subst is_composite. by destruct (SiteInput.decking_type site). }
  rewrite Hrate. clear Hrate is_composite.
  unfold priced, work_lines. cbn [Quote.labor_subtotal].
  destruct (has_railing s); destruct (has_stairs s); cbn [app fmap list_fmap];
    unfold footings_line, posts_line, beams_line, joists_line, ledger_rim_line,
      framing_labor_line, decking_line, railing_line, stairs_line, cleanup_line,
      permits_line; cbn [LineItem.labor_cost];
    unfold sum_floats; cbn [foldl]; fold site; unfold sqft_of; fold site; fold sqft;
    ring.
Qed.

Lemma quote_labor_witness :
  ∃ q, calculate_quote (DeckStructure.new (SiteInput.default 16 12 3)) = Return q ∧
       Quote.labor_subtotal q == 4762.
Proof.
  assert (Hsq : ¬ sqft_of (DeckStructure.new (SiteInput.default 16 12 3)) == 0) by Qconst.
  eexists. split; [exact (calculate_quote_Return _ Hsq)|].
  rewrite (quote_labor _ _ (calculate_quote_Return _ Hsq)). reflexivity.
Defined.

(** ** services/pricing.py: what the quote does not read *)

(** X17. [calculate_quote] reads neither the compliance flag nor the
    errors, the notes or the rim joists of the structure: two structures
    that differ only in these get the same result.  A structure with
    [compliant = False] is priced like a compliant one. *)
Theorem quote_ignores_compliance (s : DeckStructure.t) (rim_joists : list RimJoist)
    (compliant : bool) (notes errors : list message) :
  calculate_quote
    (DeckStructure.mk (DeckStructure.input s) (DeckStructure.footings s)
       (DeckStructure.posts s) (DeckStructure.beams s) (DeckStructure.joists s)
       (DeckStructure.ledger s) rim_joists (DeckStructure.joist_size s)
       (DeckStructure.joist_spacing_in s) (DeckStructure.beam_size s)
       (DeckStructure.beam_ply s) (DeckStructure.post_size s)
       (DeckStructure.footing_diameter_in s) compliant notes errors)
  = calculate_quote s.
Proof. destruct s. reflexivity. Qed.

(** ** services/pricing.py: lumber prices *)

Lemma str_lower_idemp (s : string) : str_lower (str_lower s) = str_lower s.
Proof.
  induction s as [|c s IH]; [reflexivity|]. cbn [str_lower]. rewrite IH. f_equal.
  clear. destruct c as [[] [] [] [] [] [] [] []]; reflexivity.
Qed.

Lemma get_lumber_price_JOIST_SIZES (size : string) :
  size ∈ JOIST_SIZES →
  MATERIAL_PRICES !! (size +:+ "_pt_lf") = Some (_get_lumber_price size) ∧
  1.25 <= _get_lumber_price size ∧ _get_lumber_price size <= 2.40.
Proof.
  rewrite JOIST_SIZES_elem. intros [-> | [-> | [-> | ->]]];
    (split; [vm_compute; reflexivity|split; Qconst]).
Qed.

Lemma get_lumber_price_POST_SIZES (size : string) :
  size ∈ POST_SIZES →
  MATERIAL_PRICES !! (size +:+ "_pt_lf") = Some (_get_lumber_price size) ∧
  2.10 <= _get_lumber_price size ∧ _get_lumber_price size <= 4.80.
Proof.
  rewrite POST_SIZES_elem. intros [-> | [-> | ->]];
    (split; [vm_compute; reflexivity|split; Qconst]).
Qed.

(** X18. [_get_lumber_price] looks the lower-cased size up under
    <size>_pt_lf: every size the engine can select (2x6 to 2x12 for joists
    and beams, 4x4 to 6x6 for posts) has its own entry in MATERIAL_PRICES,
    so the 2.00 default is not used for them; a size without an entry, such
    as the empty size of a structure without beams or posts, is priced at
    2.00; the lookup ignores case. *)
Theorem lumber_price_lookup :
  (∀ size, size ∈ (JOIST_SIZES ++ POST_SIZES)%list →
     MATERIAL_PRICES !! (size +:+ "_pt_lf") = Some (_get_lumber_price size)) ∧
  (∀ nominal, MATERIAL_PRICES !! (str_lower nominal +:+ "_pt_lf") = None →
     _get_lumber_price nominal = 2.00) ∧
  (∀ nominal price, MATERIAL_PRICES !! (str_lower nominal +:+ "_pt_lf") = Some price →
     _get_lumber_price nominal = price) ∧
  (∀ nominal, _get_lumber_price (str_lower nominal) = _get_lumber_price nominal) ∧
  _get_lumber_price "" = 2.00 ∧
  _get_lumber_price "4x8" = 2.00 ∧
  _get_lumber_price "2X10" = _get_lumber_price "2x10".
Proof.
  split; [|split; [|split; [|split; [|split; [|split]]]]].
  - intros size [H|H]%elem_of_app.
    + by apply get_lumber_price_JOIST_SIZES.
    + by apply get_lumber_price_POST_SIZES.
  - intros nominal H. unfold _get_lumber_price, dict_get. by rewrite H.
  - intros nominal price H. unfold _get_lumber_price, dict_get. by rewrite H.
  - intros nominal. unfold _get_lumber_price. by rewrite str_lower_idemp.
  - vm_compute. reflexivity.
  - vm_compute. reflexivity.
  - vm_compute. reflexivity.
Qed.

(** ** Engine and pricing together: the quote of a compliant structure *)

Lemma sum_floats_const {A : Type} (f : A → Q) (c : Q) (l : list A) :
  (∀ x, f x == c) → sum_floats (f <$> l) == inject_Z (len l) * c.
Proof.
  intros Hf. induction l as [|x l IH].
  - unfold len. cbn. ring.
  - rewrite fmap_cons, sum_floats_cons, IH, Hf. unfold len. cbn [length].
    rewrite Nat2Z.inj_succ. unfold Z.succ. rewrite inject_Z_plus.
    change (inject_Z 1) with 1. ring.
Qed.

Lemma assembled_rows (site_input : SiteInput.t) :
  len (beam_y_positions_of site_input) =
  if decide (SiteInput.ledger_attachment site_input = FREESTANDING) then 2%Z else 1%Z.
Proof. unfold len. rewrite beam_y_positions_length. by destruct (decide _). Qed.

Lemma assembled_counts (site_input : SiteInput.t) (d : Design) :
  (0 <= d_num_posts d)%Z →
  len (DeckStructure.footings (assembled site_input d)) =
    (len (beam_y_positions_of site_input) * d_num_posts d)%Z ∧
  len (DeckStructure.posts (assembled site_input d)) =
    (len (beam_y_positions_of site_input) * d_num_posts d)%Z.
Proof.
  intros Hn. unfold assembled, len. cbn [DeckStructure.footings DeckStructure.posts].
  rewrite !bind_const_length_fmap, length_seqZ. lia.
Qed.

Lemma assembled_beam_lf (site_input : SiteInput.t) (d : Design) :
  beam_lf_of (assembled site_input d) ==
  inject_Z (len (beam_y_positions_of site_input))
  * (SiteInput.width_ft site_input * inject_Z (d_beam_ply d)).
Proof.
  unfold beam_lf_of, assembled. cbn [DeckStructure.beams].
  rewrite <- list_fmap_compose. apply sum_floats_const.
  intros y. cbn [compose Beam.x_end_ft Beam.x_start_ft Beam.ply].
  unfold Qdiv. change (/ 2) with (1 # 2). ring.
Qed.

Lemma assembled_joist_lf (site_input : SiteInput.t) (d : Design) :
  0 <= SiteInput.width_ft site_input →
  joist_lf_of (assembled site_input d) ==
  inject_Z (Qfloor (SiteInput.width_ft site_input / (inject_Z 16 / 12)) + 1)
  * SiteInput.depth_ft site_input.
Proof.
  intros Hw. destruct (joist_run_within_width _ Hw) as (Hn & _).
  unfold joist_lf_of, assembled. cbn [DeckStructure.joists].
  rewrite <- list_fmap_compose.
  rewrite (sum_floats_const _ (SiteInput.depth_ft site_input)).
  - unfold len. rewrite length_seqZ, Z2Nat.id by lia. reflexivity.
  - intros i. cbn [compose Joist.y_end_ft Joist.y_start_ft]. ring.
Qed.

(** X19. The quote of a compliant structure the engine generates for a
    positive width, with rows = 2 for a freestanding deck and 1 otherwise,
    num_posts = max(2, ceil(width / 8) + 1) and
    num_joists = floor(width / (16/12)) + 1: the first four lines are
    Footings, Posts, Beams and Joists; footings and posts are both counted
    rows * num_posts; each footing costs 48.40 in materials (four bags of
    concrete and a post base, with waste) and 175.00 in labor; the beam line
    bills rows * 2 * width linear feet (two plies across the full width) and
    the joist line num_joists * depth linear feet; and the joist, beam and
    post sizes all have their own entry in MATERIAL_PRICES, so none of them
    is priced at the 2.00 default. *)
Theorem quote_of_compliant_structure (site_input : SiteInput.t) (s : DeckStructure.t)
    (q : Quote.t) :
  0 < SiteInput.width_ft site_input →
  generate_structure site_input = Return s →
  DeckStructure.compliant s = true →
  calculate_quote s = Return q →
  let width := SiteInput.width_ft site_input in
  let depth := SiteInput.depth_ft site_input in
  let rows :=
    if decide (SiteInput.ledger_attachment site_input = FREESTANDING) then 2%Z else 1%Z in
  let num_posts := Z.max 2 (Qceiling (width / 8.0) + 1) in
  let num_joists := (Qfloor (width / (inject_Z 16 / 12)) + 1)%Z in
  ∃ (footings posts beams joists : LineItem.t) (rest : list LineItem.t),
    Quote.line_items q = footings :: posts :: beams :: joists :: rest ∧
    LineItem.category <$> [footings; posts; beams; joists] =
      ["Footings"; "Posts"; "Beams"; "Joists"] ∧
    LineItem.quantity footings = inject_Z (rows * num_posts) ∧
    LineItem.material_cost footings == 48.40 * inject_Z (rows * num_posts) ∧
    LineItem.labor_cost footings == 175.00 * inject_Z (rows * num_posts) ∧
    LineItem.quantity posts = inject_Z (rows * num_posts) ∧
    LineItem.quantity beams == inject_Z rows * 2 * width ∧
    LineItem.material_cost beams ==
      inject_Z rows * 2 * width * _get_lumber_price (DeckStructure.beam_size s)
      * WASTE_FACTOR ∧
    LineItem.quantity joists == inject_Z num_joists * depth ∧
    (∀ size, size ∈ [DeckStructure.joist_size s; DeckStructure.beam_size s;
                     DeckStructure.post_size s] →
       MATERIAL_PRICES !! (size +:+ "_pt_lf") = Some (_get_lumber_price size)).
Proof.
  intros Hw Hs Hcompl Hq width depth rows num_posts num_joists.
  destruct (compliant_complete _ _ _ Hs Hcompl) as (d & Hsel & ->).
  apply calculate_quote_inv in Hq as [_ ->].
  pose proof (selects_num_posts _ _ _ Hsel) as Hn.
  destruct Hsel as (Hj & _ & Hps & Hb & _ & Hp & _).
  apply post_spacing_bounds in Hps as (Hnum & _). fold width num_posts in Hnum.
  apply select_joist_size_with_catalog in Hj.
  apply select_beam_size_catalog in Hb as [Hb Hply].
  apply POST_SIZES_lumber in Hp as [Hp _].
  destruct (assembled_counts site_input d) as [Hf Hpo]; [lia|].
  rewrite assembled_rows in Hf, Hpo. fold rows in Hf, Hpo. rewrite Hnum in Hf, Hpo.
  pose proof (assembled_beam_lf site_input d) as Hblf.
  rewrite assembled_rows, Hply in Hblf. fold rows width in Hblf.
  pose proof (assembled_joist_lf site_input d (Qlt_le_weak _ _ Hw)) as Hjlf.
  fold width num_joists depth in Hjlf.
  set (s := assembled site_input d) in *.
  exists (footings_line s), (posts_line s), (beams_line s), (joists_line s).
  eexists. split; [reflexivity|]. split; [reflexivity|].
  unfold footings_line, posts_line, beams_line, joists_line.
  cbn [LineItem.quantity LineItem.material_cost LineItem.labor_cost].
  rewrite Hf, Hpo.
  assert (Hwaste : WASTE_FACTOR == 11 # 10) by reflexivity.
  change (inject_Z 2) with 2 in Hblf.
  split; [reflexivity|]. split; [rewrite Hwaste; change (inject_Z 4) with 4; ring|].
  split; [ring|]. split; [reflexivity|]. split; [rewrite Hblf; ring|].
  split; [rewrite Hblf; ring|]. split; [exact Hjlf|].
  intros size Hsize. rewrite !elem_of_cons, elem_of_nil in Hsize.
  change (DeckStructure.joist_size s) with (d_joist_size d) in Hsize.
  change (DeckStructure.beam_size s) with (d_beam_size d) in Hsize.
  change (DeckStructure.post_size s) with (d_post_size d) in Hsize.
  destruct Hsize as [-> | [-> | [-> | []]]].
  - by apply get_lumber_price_JOIST_SIZES.
  - by apply get_lumber_price_JOIST_SIZES.
  - by apply get_lumber_price_POST_SIZES.
Qed.

Lemma quote_of_compliant_structure_witness :
  ∃ s q, generate_structure (SiteInput.default 16 12 3) = Return s ∧
         calculate_quote s = Return q ∧
         ∃ footings rest, Quote.line_items q = footings :: rest ∧
                          LineItem.quantity footings = 3.
Proof.
  destruct run_16_12_3 as (d & Hret & _).
  assert (Hw : 0 < SiteInput.width_ft (SiteInput.default 16 12 3)) by Qconst.
  assert (Hsq : ¬ sqft_of (assembled (SiteInput.default 16 12 3) d) == 0) by Qconst.
  eexists _, _. split; [exact Hret|]. split; [exact (calculate_quote_Return _ Hsq)|].
  destruct (quote_of_compliant_structure _ _ _ Hw Hret eq_refl
              (calculate_quote_Return _ Hsq))
    as (footings & posts & beams & joists & rest & Hlines & _ & Hqty & _).
  exists footings, (posts :: beams :: joists :: rest). split; [exact Hlines|].
  rewrite Hqty. reflexivity.
Defined.

(** ** Engine and pricing together: the quote of a rejected design *)

Lemma member_lines_empty (s : DeckStructure.t) :
  DeckStructure.footings s = [] → DeckStructure.posts s = [] →
  DeckStructure.beams s = [] → DeckStructure.joists s = [] →
  Forall (fun li => LineItem.quantity li == 0 ∧ LineItem.total li == 0)
    [footings_line s; posts_line s; beams_line s; joists_line s].
Proof.
  intros Hf Hp Hb Hj.
  unfold footings_line, posts_line, beams_line, joists_line, beam_lf_of, joist_lf_of,
    LineItem.total.
  rewrite Hf, Hp, Hb, Hj. unfold len, sum_floats.
  cbn [fmap list_fmap foldl length LineItem.quantity LineItem.material_cost
       LineItem.labor_cost].
  change (inject_Z (Z.of_nat 0)) with 0.
  repeat (apply List.Forall_cons;
          [cbv beta; cbn [LineItem.quantity LineItem.material_cost LineItem.labor_cost];
           split; ring|]).
  apply List.Forall_nil.
Qed.

Lemma decking_line_lower (s : DeckStructure.t) :
  0 <= sqft_of s → 7 * sqft_of s <= LineItem.total (decking_line s).
Proof.
  intros Hs. unfold decking_line, LineItem.total.
  cbn [LineItem.material_cost LineItem.labor_cost].
  assert (Hinv : / (5.5 / 12) == 24 # 11) by reflexivity.
  assert (Hdiv : sqft_of s / (5.5 / 12) == sqft_of s * (24 # 11)).
  { unfold Qdiv at 1. rewrite Hinv. reflexivity. }
  assert (Hquarter : sqft_of s / 4 == sqft_of s * (1 # 4)) by reflexivity.
  assert (Hwaste : WASTE_FACTOR == 11 # 10) by reflexivity.
  rewrite Hdiv, Hquarter, Hwaste. revert Hs. generalize (sqft_of s). intros a Ha.
  destruct (SiteInput.decking_type (DeckStructure.input s));
    unfold decking_price_of, decking_rate_of; lra.
Qed.

Lemma railing_line_nonneg (s : DeckStructure.t) :
  has_railing s = true → 0 <= LineItem.total (railing_line s).
Proof.
  intros [_ Hlf]%has_railing_true. unfold railing_line, LineItem.total.
  cbn [LineItem.material_cost LineItem.labor_cost].
  assert (Hwaste : WASTE_FACTOR == 11 # 10) by reflexivity. rewrite Hwaste.
  revert Hlf. generalize (SiteInput.railing_lf (DeckStructure.input s)). intros a Ha.
  destruct (SiteInput.railing_type (DeckStructure.input s));
    unfold railing_price_of; lra.
Qed.

Lemma stairs_line_nonneg (s : DeckStructure.t) :
  has_stairs s = true → 0 <= LineItem.total (stairs_line s).
Proof.
  intros Hn%has_stairs_true. unfold stairs_line, LineItem.total.
  cbn [LineItem.material_cost LineItem.labor_cost].
  assert (Hwaste : WASTE_FACTOR == 11 # 10) by reflexivity. rewrite Hwaste.
  apply inject_Z_pos in Hn. revert Hn.
  generalize (inject_Z (SiteInput.stair_count (DeckStructure.input s))). intros a Ha.
  change (inject_Z 3) with 3. lra.
Qed.

Lemma ledger_rim_line_halted (site_input : SiteInput.t) (joist_size : string)
    (notes : list message) (m : message) :
  0 <= SiteInput.width_ft site_input → 0 <= SiteInput.depth_ft site_input →
  joist_size = "" ∨ joist_size ∈ JOIST_SIZES →
  0 <= LineItem.total (ledger_rim_line (halted site_input joist_size notes m)).
Proof.
  intros Hw Hd Hjs.
  assert (Hprice : 0 <= _get_lumber_price joist_size).
  { destruct Hjs as [->|Hjs]; [Qconst|].
    apply get_lumber_price_JOIST_SIZES in Hjs as (_ & Hlo & _). lra. }
  unfold ledger_rim_line, framing_misc_lf_of, ledger_lf_of, halted, LineItem.total.
  cbn [DeckStructure.ledger DeckStructure.input DeckStructure.joist_size
       LineItem.material_cost LineItem.labor_cost].
  assert (Hwaste : WASTE_FACTOR == 11 # 10) by reflexivity. rewrite Hwaste.
  assert (Hrim : 0 <= (0 + (SiteInput.depth_ft site_input * 2
                            + SiteInput.width_ft site_input))
                      * _get_lumber_price joist_size).
  { apply Qmult_le_0_compat; [lra|exact Hprice]. }
  revert Hrim.
  generalize ((0 + (SiteInput.depth_ft site_input * 2 + SiteInput.width_ft site_input))
              * _get_lumber_price joist_size).
  intros a Ha. assert (H0 : 0 / 16 * 12 * 1.20 == 0) by reflexivity.
  rewrite H0. lra.
Qed.

Lemma work_value_halted (site_input : SiteInput.t) (joist_size : string)
    (notes : list message) (m : message) :
  0 < SiteInput.width_ft site_input → 0 < SiteInput.depth_ft site_input →
  joist_size = "" ∨ joist_size ∈ JOIST_SIZES →
  21.5 * (SiteInput.width_ft site_input * SiteInput.depth_ft site_input)
  <= sum_floats (LineItem.total <$> work_lines (halted site_input joist_size notes m)).
Proof.
  intros Hw Hd Hjs. set (s := halted site_input joist_size notes m).
  assert (Hsq : 0 < sqft_of s) by (apply Qmult_lt_0_compat; assumption).
  change (SiteInput.width_ft site_input * SiteInput.depth_ft site_input) with (sqft_of s).
  pose proof (member_lines_empty s eq_refl eq_refl eq_refl eq_refl) as Hmem.
  rewrite !Forall_cons in Hmem.
  destruct Hmem as ((_ & Hf) & (_ & Hp) & (_ & Hb) & (_ & Hj) & _).
  pose proof (ledger_rim_line_halted site_input joist_size notes m
                (Qlt_le_weak _ _ Hw) (Qlt_le_weak _ _ Hd) Hjs) as Hrim.
  fold s in Hrim.
  pose proof (decking_line_lower s (Qlt_le_weak _ _ Hsq)) as Hdeck.
  assert (Hframing : LineItem.total (framing_labor_line s) == 14 * sqft_of s).
  { unfold framing_labor_line, LineItem.total.
    cbn [LineItem.material_cost LineItem.labor_cost]. ring. }
  assert (Hcleanup : LineItem.total (cleanup_line s) == (1 # 2) * sqft_of s).
  { unfold cleanup_line, LineItem.total.
    cbn [LineItem.material_cost LineItem.labor_cost]. ring. }
  pose proof (railing_line_nonneg s) as Hrail.
  pose proof (stairs_line_nonneg s) as Hstairs.
  unfold work_lines.
  destruct (has_railing s); destruct (has_stairs s); cbn [app fmap list_fmap];
    rewrite !sum_floats_cons; unfold sum_floats at 1; cbn [foldl];
    rewrite Hf, Hp, Hb, Hj, Hframing, Hcleanup;
    try specialize (Hrail eq_refl); try specialize (Hstairs eq_refl); lra.
Qed.

Lemma priced_subtotal (s : DeckStructure.t) :
  Quote.subtotal (priced s) ==
  575.05 + (1 + 0.023925) * sum_floats (LineItem.total <$> work_lines s).
Proof.
  unfold priced. cbn [Quote.subtotal].
  rewrite !fmap_app, !sum_floats_app. cbn [fmap list_fmap]. rewrite !sum_floats_cons.
  change (sum_floats []) with 0. unfold permits_line.
  cbn [LineItem.material_cost LineItem.labor_cost]. rewrite sum_floats_totals.
  generalize (sum_floats (LineItem.material_cost <$> work_lines s))
             (sum_floats (LineItem.labor_cost <$> work_lines s)).
  intros a b. unfold permit_fee_of, Qdiv.
  assert (H1000 : / 1000 == 1 # 1000) by reflexivity. rewrite H1000. ring.
Qed.

(** X20. A design the engine rejects still gets a quote.  When
    [generate_structure] returns a structure with [compliant = False] for a
    positive width and depth, [calculate_quote] on it returns a quote: its
    Footings, Posts, Beams and Joists lines have quantity 0 and total 0,
    while framing labor, decking, cleanup and permits are billed in full, so
    that the total is above 4/3 * (575.05 + 21.5 * width * depth), more than
    766 dollars. *)
Theorem rejected_design_is_priced (site_input : SiteInput.t) (s : DeckStructure.t) :
  0 < SiteInput.width_ft site_input → 0 < SiteInput.depth_ft site_input →
  generate_structure site_input = Return s →
  DeckStructure.compliant s = false →
  ∃ q (footings posts beams joists : LineItem.t) (rest : list LineItem.t),
    calculate_quote s = Return q ∧
    Quote.line_items q = footings :: posts :: beams :: joists :: rest ∧
    LineItem.category <$> [footings; posts; beams; joists] =
      ["Footings"; "Posts"; "Beams"; "Joists"] ∧
    Forall (fun li => LineItem.quantity li == 0 ∧ LineItem.total li == 0)
      [footings; posts; beams; joists] ∧
    (4 # 3) * (575.05 + 21.5 * (SiteInput.width_ft site_input
                                * SiteInput.depth_ft site_input))
      < Quote.total q ∧
    766 < Quote.total q.
Proof.
  intros Hw Hd Hs Hcompl. apply generate_structure_with_outcome in Hs.
  assert (Hhalt : ∃ joist_size notes m,
            s = halted site_input joist_size notes m ∧
            (joist_size = "" ∨ joist_size ∈ JOIST_SIZES)).
  { destruct Hs as [?|? ? ?|js ? ? ? ? ? Hj ? ? ?|d ? Hsel].
    - eexists _, _, _. split; [reflexivity|by left].
    - eexists _, _, _. split; [reflexivity|by left].
    - eexists _, _, _. split; [reflexivity|]. right.
      by eapply select_joist_size_with_catalog.
    - cbn in Hcompl. discriminate. }
  destruct Hhalt as (js & notes & m & -> & Hjs). clear Hs Hcompl.
  pose proof (work_value_halted site_input js notes m Hw Hd Hjs) as Hvalue.
  set (s := halted site_input js notes m) in *.
  assert (Hsq : 0 < sqft_of s) by (apply Qmult_lt_0_compat; assumption).
  assert (Hnz : ¬ sqft_of s == 0) by lra.
  pose proof (calculate_quote_Return s Hnz) as Hq.
  exists (priced s), (footings_line s), (posts_line s), (beams_line s), (joists_line s).
  eexists. split; [exact Hq|]. split; [reflexivity|]. split; [reflexivity|].
  split; [by apply member_lines_empty|].
  assert (Htotal : Quote.total (priced s) ==
                   (4 # 3) * (575.05 + (1 + 0.023925)
                                       * sum_floats (LineItem.total <$> work_lines s))).
  { assert (Ht : Quote.total (priced s) =
                 Quote.subtotal (priced s) + Quote.margin_amount (priced s))
      by reflexivity.
    rewrite Ht, priced_margin, priced_subtotal. ring. }
  change (SiteInput.width_ft site_input * SiteInput.depth_ft site_input)
    with (sqft_of s) in *.
  rewrite Htotal. revert Hvalue Hsq.
  generalize (sum_floats (LineItem.total <$> work_lines s)) (sqft_of s).
  intros v a Hv Ha. split; lra.
Qed.

Lemma rejected_design_is_priced_witness :
  ∃ s q, generate_structure (SiteInput.default 16 30 3) = Return s ∧
         DeckStructure.compliant s = false ∧
         calculate_quote s = Return q ∧ 766 < Quote.total q.
Proof.
  destruct run_16_30_3 as (m & Hret).
  assert (Hw : 0 < SiteInput.width_ft (SiteInput.default 16 30 3)) by Qconst.
  assert (Hd : 0 < SiteInput.depth_ft (SiteInput.default 16 30 3)) by Qconst.
  destruct (rejected_design_is_priced _ _ Hw Hd Hret eq_refl)
    as (q & _ & _ & _ & _ & _ & Hq & _ & _ & _ & _ & Htotal).
  exists (halted (SiteInput.default 16 30 3) "" [] m), q.
  split; [exact Hret|]. split; [reflexivity|]. split; [exact Hq|exact Htotal].
Defined.

(** ** Where the joists bear *)

(** X21. Joists against beam rows on a compliant structure of positive
    depth.  On a ledger-attached deck the one beam row stands at the joist
    span from the ledger (y = 0), the joists run past it by exactly the
    cantilever, and this overhang is within MAX_CANTILEVER_RATIO of the
    depth.  On a freestanding deck the two beam rows are depth / 3 apart,
    less than the depth / 2 the joists were sized for, and the joists run
    depth / 3 past the rows at both ends: more than MAX_CANTILEVER_RATIO of
    the depth, while the cantilever the check looks at is 0. *)
Theorem joist_bearing_geometry (site_input : SiteInput.t) (s : DeckStructure.t) :
  0 < SiteInput.depth_ft site_input →
  generate_structure site_input = Return s →
  DeckStructure.compliant s = true →
  let depth := SiteInput.depth_ft site_input in
  let attachment := SiteInput.ledger_attachment site_input in
  (attachment ≠ FREESTANDING →
     ∀ j b, j ∈ DeckStructure.joists s → b ∈ DeckStructure.beams s →
       Beam.y_ft b - Joist.y_start_ft j == joist_span_ft_of site_input ∧
       Joist.y_end_ft j - Beam.y_ft b == cantilever_ft_of site_input ∧
       Joist.y_end_ft j - Beam.y_ft b <= depth * MAX_CANTILEVER_RATIO) ∧
  (attachment = FREESTANDING →
     cantilever_ft_of site_input == 0 ∧
     ∃ inner outer,
       Beam.y_ft <$> DeckStructure.beams s = [inner; outer] ∧
       outer - inner == depth / 3 ∧
       outer - inner < joist_span_ft_of site_input ∧
       ∀ j, j ∈ DeckStructure.joists s →
         inner - Joist.y_start_ft j == depth / 3 ∧
         Joist.y_end_ft j - outer == depth / 3 ∧
         depth * MAX_CANTILEVER_RATIO < Joist.y_end_ft j - outer).
Proof.
  intros Hd Hs Hcompl depth attachment.
  destruct (compliant_complete _ _ _ Hs Hcompl) as (d & _ & ->).
  assert (Hratio : MAX_CANTILEVER_RATIO == 1 # 4) by reflexivity.
  assert (Hthird : ∀ x, x / 3 == x * (1 # 3)) by (intros x; reflexivity).
  fold depth in Hd.
  split.
  - intros Hatt j b Hj Hb.
    pose proof (cantilever_within_limit site_input (or_intror Hatt)) as Hc.
    fold depth in Hc.
    unfold assembled in Hj, Hb. cbn [DeckStructure.joists DeckStructure.beams] in Hj, Hb.
    apply list_elem_of_fmap in Hj as (i & -> & _).
    apply list_elem_of_fmap in Hb as (y & -> & Hy).
    unfold beam_y_positions_of in Hy. fold attachment depth in Hy.
    destruct (decide (attachment = FREESTANDING)); [contradiction|].
    apply list_elem_of_singleton in Hy as ->.
    cbn [Joist.y_start_ft Joist.y_end_ft Beam.y_ft]. fold depth.
    assert (Hspan : joist_span_ft_of site_input
                    = depth - cantilever_ft_of site_input).
    { unfold joist_span_ft_of, cantilever_ft_of. fold attachment depth.
      by rewrite span_policy_attached. }
    rewrite Hspan. split; [ring|]. split; [ring|].
    revert Hc. generalize (cantilever_ft_of site_input). intros c Hc. lra.
  - intros Hfs. split.
    { unfold cantilever_ft_of. fold attachment depth.
      rewrite Hfs, span_policy_freestanding. reflexivity. }
    exists (depth / 3), (2 * depth / 3).
    assert (Htwo : 2 * depth / 3 == depth * (2 # 3)).
    { unfold Qdiv. change (/ 3) with (1 # 3). ring. }
    assert (Hspan : joist_span_ft_of site_input == depth * (1 # 2)).
    { unfold joist_span_ft_of. fold attachment depth.
      rewrite Hfs, span_policy_freestanding. reflexivity. }
    split.
    { unfold assembled, beam_y_positions_of. cbn [DeckStructure.beams].
      fold attachment depth. rewrite <- list_fmap_compose.
      by destruct (decide (attachment = FREESTANDING)). }
    split; [rewrite Htwo, !Hthird; ring|].
    split; [rewrite Htwo, Hspan, !Hthird; lra|].
    intros j Hj. unfold assembled in Hj. cbn [DeckStructure.joists] in Hj.
    apply list_elem_of_fmap in Hj as (i & -> & _).
    cbn [Joist.y_start_ft Joist.y_end_ft]. fold depth.
    rewrite Htwo, Hratio, !Hthird. split; [ring|]. split; [ring|]. lra.
Qed.

Lemma joist_bearing_geometry_witness :
  ∃ s, generate_structure freestanding_20_8 = Return s ∧
       ∃ inner outer, Beam.y_ft <$> DeckStructure.beams s = [inner; outer].
Proof.
  destruct run_20_8_freestanding as (d & Hret & _). eexists. split; [exact Hret|].
  assert (Hd : 0 < SiteInput.depth_ft freestanding_20_8) by Qconst.
  destruct (joist_bearing_geometry _ _ Hd Hret eq_refl) as [_ Hfs].
  destruct (Hfs eq_refl) as (_ & inner & outer & Hrows & _).
  exists inner, outer. exact Hrows.
Defined.
